(** * pdf_brute_force_sbi: a shallow embedding of [brute.py]

    The program searches the 11-digit password of an encrypted PDF whose
    first five or last six digits are known.  This file embeds

    - [validate_date_suffix] and the part of the standard library's
      [datetime.strptime] it relies on (format [%d%m%y]);
    - the enumeration of candidates ([itertools.product], [itertools.islice])
      and the worker loop of [test_password_range];
    - the range splitting of [parallel_brute_force];
    - the argument validation of the [__main__] block;
    - the processes of one run (workers, monitor, coordinator) as an
      interleaving step function over the shared counter, lock, stop flag
      and queue.

    Python [str] values are Rocq strings (code points below 256), Python
    integers are [Z], exceptions are an explicit [result] type. *)

From Stdlib Require Import ZArith Lia Ascii String List Sorted.
From stdpp Require Import base tactics option list numbers strings sorting.

Open Scope string_scope.
Open Scope list_scope.
Open Scope Z_scope.

(** ** Exceptions *)

Inductive exn : Type :=
| ValueError
| ZeroDivisionError.

Inductive result (A : Type) : Type :=
| Ok (a : A)
| Raise (e : exn).
Arguments Ok {A} a.
Arguments Raise {A} e.

Definition bind {A B : Type} (r : result A) (k : A -> result B) : result B :=
  match r with
  | Ok a => k a
  | Raise e => Raise e
  end.

(** ** Characters and decimal digits *)

(** [ord(c)] *)
Definition ord (c : ascii) : Z := Z.of_N (N_of_ascii c).

Definition is_digit (c : ascii) : bool := (48 <=? ord c) && (ord c <=? 57).

Definition digit_value (c : ascii) : Z := ord c - 48.

Definition all_digits (s : string) : bool :=
  forallb is_digit (list_ascii_of_string s).

(** The value of a string of decimal digits, most significant first. *)
Definition decimal_value (cs : list ascii) : Z :=
  fold_left (fun acc c => 10 * acc + digit_value c) cs 0.

(** [digits = "0123456789"], and the characters iterating over it yields. *)
Definition digits : string := "0123456789".
Definition digits_pool : list ascii := list_ascii_of_string digits.

(** ** datetime.strptime(_, "%d%m%y")

    [_strptime] turns the format into one regular expression, the
    concatenation of the directives' groups

      %d  (?P<d>3[0-1]|[1-2]\d|0[1-9]|[1-9]| [1-9])
      %m  (?P<m>1[0-2]|0[1-9]|[1-9])
      %y  (?P<y>\d\d)

    matches it at the start of the input ([re.match]), raises [ValueError]
    when nothing matches or when input is left over, converts the groups
    with [int], resolves the century of [%y] and builds a [datetime.date],
    whose constructor raises [ValueError] for a day the month does not
    have.  On code points below 256 the class [\d] is ['0'..'9']. *)

Inductive cls : Type :=
| Lit (c : ascii)
| Rng (lo hi : ascii)
| AnyDigit.

Definition cls_matches (k : cls) (c : ascii) : bool :=
  match k with
  | Lit a => Ascii.eqb a c
  | Rng lo hi => (ord lo <=? ord c) && (ord c <=? ord hi)
  | AnyDigit => is_digit c
  end.

(** One alternative: a sequence of classes, each consuming one character. *)
Fixpoint match_alt (alt : list cls) (s : list ascii)
  : option (list ascii * list ascii) :=
  match alt with
  | [] => Some ([], s)
  | k :: alt' =>
      match s with
      | [] => None
      | c :: s' =>
          if cls_matches k c then
            match match_alt alt' s' with
            | Some (m, rest) => Some (c :: m, rest)
            | None => None
            end
          else None
      end
  end.

(** A sequence of groups, each an ordered alternation.  The alternatives of a
    group are tried in order and the first one after which the remaining
    groups match is kept: the backtracking of [re]. *)
Fixpoint match_groups (gs : list (list (list cls))) (s : list ascii)
  : option (list (list ascii) * list ascii) :=
  match gs with
  | [] => Some ([], s)
  | g :: gs' =>
      let try_alt (alt : list cls) :=
        match match_alt alt s with
        | Some (m, rest) =>
            match match_groups gs' rest with
            | Some (ms, r) => Some (m :: ms, r)
            | None => None
            end
        | None => None
        end in
      (fix first_of (alts : list (list cls)) :=
         match alts with
         | [] => None
         | alt :: alts' =>
             match try_alt alt with
             | Some found => Some found
             | None => first_of alts'
             end
         end) g
  end.

Definition group_d : list (list cls) :=
  [ [Lit "3"; Rng "0" "1"]; [Rng "1" "2"; AnyDigit]; [Lit "0"; Rng "1" "9"];
    [Rng "1" "9"]; [Lit " "; Rng "1" "9"] ]%char.
Definition group_m : list (list cls) :=
  [ [Lit "1"; Rng "0" "2"]; [Lit "0"; Rng "1" "9"]; [Rng "1" "9"] ]%char.
Definition group_y : list (list cls) :=
  [ [AnyDigit; AnyDigit] ].

Definition format_regex : list (list (list cls)) := [group_d; group_m; group_y].

(** [int(text)] for the texts the groups capture: optional leading blanks,
    then decimal digits. *)
Fixpoint lstrip (cs : list ascii) : list ascii :=
  match cs with
  | c :: cs' => if Ascii.eqb c " " then lstrip cs' else cs
  | [] => []
  end.

Definition py_int (cs : list ascii) : result Z :=
  let body := lstrip cs in
  match body with
  | [] => Raise ValueError
  | _ => if forallb is_digit body then Ok (decimal_value body) else Raise ValueError
  end.

(** [datetime.date]: [_is_leap], [_DAYS_IN_MONTH], [_days_in_month] and the
    range check of the constructor. *)
Definition _is_leap (year : Z) : bool :=
  (year mod 4 =? 0) && (negb (year mod 100 =? 0) || (year mod 400 =? 0)).

Definition _DAYS_IN_MONTH : list Z :=
  [-1; 31; 28; 31; 30; 31; 30; 31; 31; 30; 31; 30; 31].

Definition _days_in_month (year month : Z) : Z :=
  if (month =? 2) && _is_leap year then 29
  else nth (Z.to_nat month) _DAYS_IN_MONTH 0.

Record date : Type := mkdate { year : Z; month : Z; day : Z }.

Definition datetime_date (y m d : Z) : result date :=
  if negb ((1 <=? y) && (y <=? 9999)) then Raise ValueError
  else if negb ((1 <=? m) && (m <=? 12)) then Raise ValueError
  else if negb ((1 <=? d) && (d <=? _days_in_month y m)) then Raise ValueError
  else Ok (mkdate y m d).

(** The century of a two-digit year: [00..68] is 20xx, [69..99] is 19xx. *)
Definition century (yy : Z) : Z :=
  if yy <=? 68 then yy + 2000 else yy + 1900.

Definition strptime (data_string : string) : result date :=
  match match_groups format_regex (list_ascii_of_string data_string) with
  | None => Raise ValueError                      (* does not match format *)
  | Some (_, _ :: _) => Raise ValueError          (* unconverted data remains *)
  | Some ([d; m; y], []) =>
      bind (py_int y) (fun yy =>
      bind (py_int m) (fun mm =>
      bind (py_int d) (fun dd =>
      datetime_date (century yy) mm dd)))
  | Some (_, []) => Raise ValueError
  end.

(** ** validate_date_suffix *)

Definition validate_date_suffix (suffix : string) : result bool :=
  if negb (String.length suffix =? 6)%nat then Ok false
  else
    match strptime suffix with
    | Ok _ => Ok true
    | Raise ValueError => Ok false
    | Raise e => Raise e
    end.

(** ** itertools.product, itertools.islice and the candidates of a range *)

(** [product(pool, repeat=r)], as the library documents it: starting from
    the single empty tuple, every pass over the pool extends every tuple
    built so far by every element of the pool, in order. *)
Fixpoint product {A : Type} (pool : list A) (repeat : nat) : list (list A) :=
  match repeat with
  | O => [[]]
  | S r => flat_map (fun x => map (fun y => x ++ [y]) pool) (product pool r)
  end.

(** [islice(it, start, stop)] for the non-negative bounds the splitting
    loop produces: skip [start] items, then yield up to [stop - start]. *)
Definition islice {A : Type} (it : list A) (start stop : Z) : list A :=
  take (Z.to_nat (stop - start)) (drop (Z.to_nat start) it).

(** ["".join(combination)] *)
Definition join (combination : list ascii) : string :=
  string_of_list_ascii combination.

(** Line 43: the password built from one combination. *)
Definition compose (fixed_part : string) (is_prefix : bool)
    (combination : list ascii) : string :=
  let remaining_part := join combination in
  if is_prefix then fixed_part +:+ remaining_part
  else remaining_part +:+ fixed_part.

(** The iterator of line 41.  ([11 - len(fixed_part)] is never negative for
    the fixed parts the main block lets through.) *)
Definition combinations (fixed_part : string) (start stop : Z)
  : list (list ascii) :=
  islice (product digits_pool (11 - String.length fixed_part)) start stop.

(** ** The document: what opening it and probing it answer *)

(** [pdf_reader.decrypt(password)] returns a code (1: the user password
    matched) or raises an exception that [except Exception] catches. *)
Inductive probe_result : Type :=
| Returns (code : Z)
| Raises.

(** [pdf_opens i] tells whether lines 38-39 succeed in worker [i]. *)
Record pdf : Type := mkpdf {
  pdf_opens : nat -> bool;
  pdf_decrypt : string -> probe_result
}.

(** ** test_password_range, run alone

    The loop of lines 41-57 over the passwords of its range: the passwords
    tried, in order, and the item put on the queue at the end. *)
Fixpoint test_loop (decrypt : string -> probe_result) (passwords : list string)
  : list string * option string :=
  match passwords with
  | [] => ([], None)
  | password :: rest =>
      match decrypt password with
      | Returns code =>
          if code =? 1 then ([password], Some password)
          else let '(tried, item) := test_loop decrypt rest in
               (password :: tried, item)
      | Raises =>
          let '(tried, item) := test_loop decrypt rest in
          (password :: tried, item)
      end
  end.

Inductive worker_end : Type :=
| Died
| Returned (tried : list string) (item : option string).

Definition test_password_range (opens : bool) (decrypt : string -> probe_result)
    (fixed_part : string) (is_prefix : bool) (start stop : Z) : worker_end :=
  if opens then
    let '(tried, item) :=
      test_loop decrypt
        (map (compose fixed_part is_prefix) (combinations fixed_part start stop)) in
    Returned tried item
  else Died.

(** ** The splitting loop of parallel_brute_force (lines 82-83, 97-99) *)

Definition total_combinations (fixed_part : string) : Z :=
  10 ^ (11 - Z.of_nat (String.length fixed_part)).

(** [range(n)] *)
Definition py_range (n : Z) : list Z := seqZ 0 n.

(** [//] on integers rounds towards minus infinity, as [Z.div] does; a zero
    divisor raises in Python and is excluded where [split_ranges] is called. *)
Definition split_ranges (total num_processes : Z) : list (Z * Z) :=
  let chunk_size := total / num_processes in
  fold_left
    (fun processes i =>
       let start := i * chunk_size in
       let stop := if i <? num_processes - 1 then (i + 1) * chunk_size
                   else total in
       processes ++ [(start, stop)])
    (py_range num_processes) [].

(** ** The main block: argument validation (lines 136-153) *)

Record args : Type := mkargs {
  args_file : string;
  args_prefix : option string;
  args_suffix : option string;
  args_processes : Z
}.

(** Truth value of an optional string argument: [None] and the empty string
    are false. *)
Definition truthy (o : option string) : bool :=
  match o with
  | Some s => negb (String.eqb s "")
  | None => false
  end.

Definition len (o : option string) : nat :=
  match o with
  | Some s => String.length s
  | None => 0
  end.

Inductive checked : Type :=
| UsageError (message : string) (status : Z)
| Accepted (fixed_part : string) (is_prefix : bool).

Definition check_args (a : args) : result checked :=
  if truthy (args_prefix a) && truthy (args_suffix a) then
    Ok (UsageError "Specify either --prefix or --suffix, not both." 1)
  else if truthy (args_prefix a) && negb (len (args_prefix a) =? 5)%nat then
    Ok (UsageError "Prefix must be exactly 5 digits." 1)
  else
    bind (if truthy (args_suffix a) then
            if negb (len (args_suffix a) =? 6)%nat then Ok true
            else bind (validate_date_suffix (default "" (args_suffix a)))
                      (fun valid => Ok (negb valid))
          else Ok false)
      (fun bad_suffix =>
         if bad_suffix then
           Ok (UsageError "Suffix must be a valid 6-digit date in the format DDMMYY." 1)
         else if negb (truthy (args_prefix a)) && negb (truthy (args_suffix a)) then
           Ok (UsageError "You must specify either --prefix or --suffix." 1)
         else
           let fixed_part := if truthy (args_prefix a)
                             then default "" (args_prefix a)
                             else default "" (args_suffix a) in
           let is_prefix := truthy (args_prefix a) in
           Ok (Accepted fixed_part is_prefix)).

(** ** One run: the processes and what they share

    [parallel_brute_force] starts a monitor process and one worker process
    per range, all sharing [total_attempts] (a C [int]), [stop_flag], [lock]
    and [queue].  A process is a small state machine whose state says where
    in its code it stands; a step of the run is one step of one process, and
    a schedule chooses the process each time.  [history] records what the
    processes did, oldest first. *)

Inductive actor : Type :=
| Coordinator
| Monitor
| Worker (i : nat).

(** Where a worker stands in [test_password_range]. *)
Inductive wstate : Type :=
| WOpen (start stop : Z)                    (* started, before line 38 *)
| WNext (it : list (list ascii))            (* line 41: asks the iterator *)
| WAcquire (password : string) (it : list (list ascii))   (* line 45 *)
| WLoad (password : string) (it : list (list ascii))      (* line 47, read *)
| WStore (v : Z) (password : string) (it : list (list ascii)) (* line 47, write *)
| WRelease (password : string) (it : list (list ascii))   (* leaves line 45's block *)
| WProbe (password : string) (it : list (list ascii))     (* line 50 *)
| WReturned                                 (* after a queue.put *)
| WDied.                                    (* uncaught exception of line 38-39 *)

(** Where the monitor stands in [monitor_progress]. *)
Inductive mstate : Type :=
| MTest | MSleep | MAcquire | MPrint | MReturned.

(** Where the coordinator stands after line 102. *)
Inductive cstate : Type :=
| CJoin (k : nat) (found_password : option string)   (* line 107 *)
| CDrain (k : nat) (found_password : option string)  (* line 109 *)
| CStop (found_password : option string)             (* lines 116-117 *)
| CJoinMonitor (found_password : option string)      (* line 118 *)
| CDone (found_password : option string).            (* after lines 120-123 *)

Inductive event : Type :=
| EvProbe (i : nat) (password : string)     (* worker i calls decrypt *)
| EvPut (i : nat) (item : option string)    (* worker i puts on the queue *)
| EvDied (i : nat)                          (* worker i dies opening the file *)
| EvProgress (v : Z)                        (* the monitor prints the count *)
| EvReport (found_password : option string). (* lines 120-123 *)

Record sys : Type := mksys {
  procs : list wstate;
  mon : mstate;
  coord : cstate;
  total_attempts : Z;
  stop_flag : bool;
  lock : option actor;
  queue : list (option string);
  history : list event
}.

Definition set_proc (i : nat) (w : wstate) (s : sys) : sys :=
  mksys (<[i:=w]> (procs s)) (mon s) (coord s) (total_attempts s)
        (stop_flag s) (lock s) (queue s) (history s).
Definition set_mon (m : mstate) (s : sys) : sys :=
  mksys (procs s) m (coord s) (total_attempts s)
        (stop_flag s) (lock s) (queue s) (history s).
Definition set_coord (c : cstate) (s : sys) : sys :=
  mksys (procs s) (mon s) c (total_attempts s)
        (stop_flag s) (lock s) (queue s) (history s).
Definition set_total (v : Z) (s : sys) : sys :=
  mksys (procs s) (mon s) (coord s) v
        (stop_flag s) (lock s) (queue s) (history s).
Definition set_stop (b : bool) (s : sys) : sys :=
  mksys (procs s) (mon s) (coord s) (total_attempts s)
        b (lock s) (queue s) (history s).
Definition set_lock (l : option actor) (s : sys) : sys :=
  mksys (procs s) (mon s) (coord s) (total_attempts s)
        (stop_flag s) l (queue s) (history s).
Definition set_queue (q : list (option string)) (s : sys) : sys :=
  mksys (procs s) (mon s) (coord s) (total_attempts s)
        (stop_flag s) (lock s) q (history s).
Definition emit (e : event) (s : sys) : sys :=
  mksys (procs s) (mon s) (coord s) (total_attempts s)
        (stop_flag s) (lock s) (queue s) (history s ++ [e]).

(** [Value('i', _)]: a store keeps the low 32 bits, read as signed. *)
Definition c_int (z : Z) : Z := (z + 2 ^ 31) mod 2 ^ 32 - 2 ^ 31.

(** A process the coordinator's [join] returns for. *)
Definition terminated (w : wstate) : bool :=
  match w with
  | WReturned | WDied => true
  | _ => false
  end.

Section Run.

Variable doc : pdf.
Variable fixed_part : string.
Variable is_prefix : bool.

Definition step_worker (i : nat) (s : sys) : option sys :=
  match procs s !! i with
  | None => None
  | Some (WOpen start stop) =>
      if pdf_opens doc i then
        Some (set_proc i (WNext (combinations fixed_part start stop)) s)
      else Some (emit (EvDied i) (set_proc i WDied s))
  | Some (WNext []) =>
      Some (emit (EvPut i None)
              (set_queue (queue s ++ [None]) (set_proc i WReturned s)))
  | Some (WNext (combination :: it)) =>
      Some (set_proc i (WAcquire (compose fixed_part is_prefix combination) it) s)
  | Some (WAcquire password it) =>
      match lock s with
      | None => Some (set_lock (Some (Worker i)) (set_proc i (WLoad password it) s))
      | Some _ => None
      end
  | Some (WLoad password it) =>
      Some (set_proc i (WStore (total_attempts s) password it) s)
  | Some (WStore v password it) =>
      Some (set_total (c_int (v + 1)) (set_proc i (WRelease password it) s))
  | Some (WRelease password it) =>
      Some (set_lock None (set_proc i (WProbe password it) s))
  | Some (WProbe password it) =>
      let s' := emit (EvProbe i password) s in
      match pdf_decrypt doc password with
      | Returns code =>
          if code =? 1 then
            Some (emit (EvPut i (Some password))
                    (set_queue (queue s' ++ [Some password])
                       (set_proc i WReturned s')))
          else Some (set_proc i (WNext it) s')
      | Raises => Some (set_proc i (WNext it) s')
      end
  | Some WReturned => None
  | Some WDied => None
  end.

Definition step_monitor (s : sys) : option sys :=
  match mon s with
  | MTest => Some (set_mon (if stop_flag s then MReturned else MSleep) s)
  | MSleep => Some (set_mon MAcquire s)
  | MAcquire =>
      match lock s with
      | None => Some (set_lock (Some Monitor) (set_mon MPrint s))
      | Some _ => None
      end
  | MPrint =>
      Some (set_lock None (emit (EvProgress (total_attempts s)) (set_mon MTest s)))
  | MReturned => None
  end.

Definition step_coordinator (s : sys) : option sys :=
  match coord s with
  | CJoin k found_password =>
      match procs s !! k with
      | None => Some (set_coord (CStop found_password) s)
      | Some w =>
          if terminated w then Some (set_coord (CDrain k found_password) s)
          else None
      end
  | CDrain k found_password =>
      match queue s with
      | [] => Some (set_coord (CJoin (S k) found_password) s)
      | result :: q =>
          if truthy result then
            Some (set_coord (CJoin (S k) result) (set_queue q s))
          else Some (set_coord (CDrain k found_password) (set_queue q s))
      end
  | CStop found_password =>
      Some (set_coord (CJoinMonitor found_password) (set_stop true s))
  | CJoinMonitor found_password =>
      match mon s with
      | MReturned =>
          Some (emit (EvReport found_password) (set_coord (CDone found_password) s))
      | _ => None
      end
  | CDone _ => None
  end.

Definition step (a : actor) (s : sys) : option sys :=
  match a with
  | Coordinator => step_coordinator s
  | Monitor => step_monitor s
  | Worker i => step_worker i s
  end.

(** A run under a schedule; [None] when the schedule picks a process that
    cannot move (blocked, finished or absent). *)
Fixpoint exec (schedule : list actor) (s : sys) : option sys :=
  match schedule with
  | [] => Some s
  | a :: rest =>
      match step a s with
      | Some s' => exec rest s'
      | None => None
      end
  end.

(** The state after line 102: every process started, none has run. *)
Definition parallel_brute_force (num_processes : Z) : result sys :=
  if num_processes =? 0 then Raise ZeroDivisionError
  else
    Ok (mksys
          (map (fun r => WOpen (fst r) (snd r))
               (split_ranges (total_combinations fixed_part) num_processes))
          MTest (CJoin 0 None) 0 false None [] []).

End Run.

(** Lines 120-123: what the last print says. *)
Inductive report : Type :=
| PasswordFound (password : string)
| NotFoundExhausted.

Definition final_report (found_password : option string) : report :=
  match found_password with
  | Some password => if truthy found_password then PasswordFound password
                     else NotFoundExhausted
  | None => NotFoundExhausted
  end.

(** The whole program: the main block, then the run it starts. *)
Inductive started : Type :=
| Exited (message : string) (status : Z)
| Running (fixed_part : string) (is_prefix : bool) (s : sys).

Definition main (doc : pdf) (a : args) : result started :=
  bind (check_args a) (fun c =>
    match c with
    | UsageError message status => Ok (Exited message status)
    | Accepted fixed_part is_prefix =>
        bind (parallel_brute_force fixed_part (args_processes a))
             (fun s => Ok (Running fixed_part is_prefix s))
    end).

(** ** Notions the statements use *)

(** Membership of a candidate index in a half-open range. *)
Definition in_range (r : Z * Z) (idx : Z) : Prop := fst r <= idx < snd r.

(** The zero-padded base-10 expansion of [idx] to [k] digits, written from
    its meaning: the last digit is [idx mod 10], the digits before it expand
    [idx / 10] to [k - 1] places. *)
Definition digit_char (d : Z) : ascii := ascii_of_N (Z.to_N (48 + d)).

Fixpoint zeropad_digits (k : nat) (idx : Z) : list ascii :=
  match k with
  | O => []
  | S k' => zeropad_digits k' (idx / 10) ++ [digit_char (idx mod 10)]
  end.

Definition zeropad (idx : Z) (k : nat) : string :=
  string_of_list_ascii (zeropad_digits k idx).

(** The candidate of index [idx], as the specification composes it. *)
Definition candidate (fixed_part : string) (is_prefix : bool) (idx : Z) : string :=
  let variable := zeropad idx (11 - String.length fixed_part) in
  if is_prefix then fixed_part +:+ variable else variable +:+ fixed_part.

(** Whether a probe's answer makes line 50 true. *)
Definition matches (decrypt : string -> probe_result) (password : string) : bool :=
  match decrypt password with
  | Returns code => code =? 1
  | Raises => false
  end.

(** A real DDMMYY date, from the calendar: two digits of day, two of month,
    two of year; the month is 1..12, the day is at least 1 and at most the
    length of the month, February having 29 days in leap years; a year of
    two digits up to 68 is in the 2000s, from 69 on in the 1900s. *)
Definition leap_year (y : Z) : bool :=
  (y mod 4 =? 0) && (negb (y mod 100 =? 0) || (y mod 400 =? 0)).

Definition month_length (y m : Z) : Z :=
  if m =? 2 then (if leap_year y then 29 else 28)
  else if (m =? 4) || (m =? 6) || (m =? 9) || (m =? 11) then 30
  else 31.

Definition two_digits (a b : ascii) : Z := 10 * digit_value a + digit_value b.

Definition pivot_year (yy : Z) : Z :=
  if yy <=? 68 then 2000 + yy else 1900 + yy.

Definition real_ddmmyy_date (s : string) : bool :=
  match list_ascii_of_string s with
  | [d1; d2; m1; m2; y1; y2] =>
      let dd := two_digits d1 d2 in
      let mm := two_digits m1 m2 in
      let y := pivot_year (two_digits y1 y2) in
      (1 <=? mm) && (mm <=? 12) && (1 <=? dd) && (dd <=? month_length y mm)
  | _ => false
  end.

(** The string of six characters. *)
Definition six (c1 c2 c3 c4 c5 c6 : ascii) : string :=
  String c1 (String c2 (String c3 (String c4 (String c5 (String c6 ""))))).

Definition for_all_digits (P : ascii -> bool) : bool := forallb P digits_pool.

(** Whether every way through the groups [gs] consumes at most [n]
    characters. *)
Fixpoint fits (gs : list (list (list cls))) (n : nat) : Prop :=
  match gs with
  | [] => True
  | g :: gs' =>
      Forall (fun alt => (length alt <= n)%nat /\ fits gs' (n - length alt)) g
  end.

(** The day and the month [%d%m] reads from four characters, when it
    consumes them all. *)
Definition day_month (c1 c2 c3 c4 : ascii) : option (Z * Z) :=
  match match_groups [group_d; group_m] [c1; c2; c3; c4] with
  | Some ([d; m], []) =>
      match py_int d, py_int m with
      | Ok dd, Ok mm => Some (dd, mm)
      | _, _ => None
      end
  | _ => None
  end.

(** The same, from the calendar: a day 01..31 and a month 01..12. *)
Definition day_month_spec (c1 c2 c3 c4 : ascii) : option (Z * Z) :=
  let dd := two_digits c1 c2 in
  let mm := two_digits c3 c4 in
  if (1 <=? dd) && (dd <=? 31) && (1 <=? mm) && (mm <=? 12)
  then Some (dd, mm) else None.

Definition same_day_month (a b : option (Z * Z)) : bool :=
  match a, b with
  | Some (d1, m1), Some (d2, m2) => (d1 =? d2) && (m1 =? m2)
  | None, None => true
  | _, _ => false
  end.

Definition for_all_four_digits (P : ascii -> ascii -> ascii -> ascii -> bool)
  : bool :=
  for_all_digits (fun c1 => for_all_digits (fun c2 =>
  for_all_digits (fun c3 => for_all_digits (fun c4 => P c1 c2 c3 c4)))).

(** A probe that treats an exception as the answer "no match". *)
Definition quiet (decrypt : string -> probe_result) (password : string)
  : probe_result :=
  match decrypt password with
  | Raises => Returns 0
  | answer => answer
  end.

(** An option given on the command line, whatever its text. *)
Definition supplied (o : option string) : bool :=
  match o with
  | Some _ => true
  | None => false
  end.

(** *** Reading a history *)

(** The passwords worker [i] probed, in order. *)
Definition probes_of (i : nat) (h : list event) : list string :=
  flat_map (fun e => match e with
                     | EvProbe j password => if Nat.eqb j i then [password] else []
                     | _ => []
                     end) h.

(** The number of probes in a history. *)
Fixpoint probe_count (h : list event) : Z :=
  match h with
  | [] => 0
  | EvProbe _ _ :: h' => 1 + probe_count h'
  | _ :: h' => probe_count h'
  end.

(** Whether some worker probes after another worker has put a found
    password on the queue. *)
Fixpoint probe_after_found (found_by : list nat) (h : list event) : bool :=
  match h with
  | [] => false
  | EvPut i (Some _) :: h' => probe_after_found (i :: found_by) h'
  | EvProbe j _ :: h' =>
      existsb (fun i => negb (Nat.eqb i j)) found_by || probe_after_found found_by h'
  | _ :: h' => probe_after_found found_by h'
  end.

(** A worker that has counted a probe it has not made yet. *)
Definition in_flight (w : wstate) : Z :=
  match w with
  | WRelease _ _ | WProbe _ _ => 1
  | _ => 0
  end.

Fixpoint in_flight_count (ws : list wstate) : Z :=
  match ws with
  | [] => 0
  | w :: ws' => in_flight w + in_flight_count ws'
  end.

(** The probes counted so far by the workers [ws], numbered from [i]. *)
Fixpoint attempts_from (h : list event) (i : nat) (ws : list wstate) : Z :=
  match ws with
  | [] => 0
  | w :: ws' =>
      Z.of_nat (length (probes_of i h)) + in_flight w + attempts_from h (S i) ws'
  end.

(** The candidates in a list of ranges. *)
Fixpoint width_sum (ranges : list (Z * Z)) : Z :=
  match ranges with
  | [] => 0
  | r :: ranges' => (snd r - fst r) + width_sum ranges'
  end.

(** *** Invariants of a run *)

Section RunInvariants.

Variable doc : pdf.
Variable fixed_part : string.
Variable is_prefix : bool.

(** The passwords of a range, in the order the worker meets them. *)
Definition passwords (r : Z * Z) : list string :=
  map (compose fixed_part is_prefix) (combinations fixed_part (fst r) (snd r)).

Definition no_match (tried : list string) : Prop :=
  Forall (fun pw => matches (pdf_decrypt doc) pw = false) tried.

(** What holds of worker [i], whose range is [r], when it stands at [w]:
    what it has probed and what its iterator still holds make up its range,
    nothing probed so far matched, and it holds the lock exactly between
    acquiring and releasing it. *)
Definition worker_inv (i : nat) (r : Z * Z) (h : list event)
    (lk : option actor) (total : Z) (w : wstate) : Prop :=
  let tried := probes_of i h in
  let rest it := map (compose fixed_part is_prefix) it in
  match w with
  | WOpen start stop =>
      (start, stop) = r /\ tried = [] /\ lk <> Some (Worker i)
  | WNext it =>
      tried ++ rest it = passwords r /\ no_match tried /\ lk <> Some (Worker i)
  | WAcquire pw it =>
      tried ++ pw :: rest it = passwords r /\ no_match tried /\
      lk <> Some (Worker i)
  | WLoad pw it =>
      tried ++ pw :: rest it = passwords r /\ no_match tried /\
      lk = Some (Worker i)
  | WStore v pw it =>
      tried ++ pw :: rest it = passwords r /\ no_match tried /\
      lk = Some (Worker i) /\ v = total
  | WRelease pw it =>
      tried ++ pw :: rest it = passwords r /\ no_match tried /\
      lk = Some (Worker i)
  | WProbe pw it =>
      tried ++ pw :: rest it = passwords r /\ no_match tried /\
      lk <> Some (Worker i)
  | WReturned =>
      tried = fst (test_loop (pdf_decrypt doc) (passwords r)) /\
      lk <> Some (Worker i)
  | WDied =>
      tried = [] /\ pdf_opens doc i = false /\ lk <> Some (Worker i)
  end.

Definition probe_in_bounds (n : nat) (e : event) : Prop :=
  match e with
  | EvProbe j _ => (j < n)%nat
  | _ => True
  end.

Definition run_inv (ranges : list (Z * Z)) (s : sys) : Prop :=
  length (procs s) = length ranges /\
  (forall i w r, procs s !! i = Some w -> ranges !! i = Some r ->
     worker_inv i r (history s) (lock s) (total_attempts s) w) /\
  (mon s = MPrint -> lock s = Some Monitor) /\
  lock s <> Some Coordinator /\
  total_attempts s = attempts_from (history s) 0 (procs s) /\
  Forall (probe_in_bounds (length (procs s))) (history s).

(** The coordinator has joined the workers before the one it stands at. *)
Definition joined (s : sys) : Prop :=
  let upto k := forall j w, (j < k)%nat -> procs s !! j = Some w ->
                            terminated w = true in
  match coord s with
  | CJoin k _ => upto k
  | CDrain k _ => upto (S k)
  | CStop _ | CJoinMonitor _ | CDone _ => upto (length (procs s))
  end.

(** What holds throughout a run in which no worker can open the document. *)
Definition found_of (c : cstate) : option string :=
  match c with
  | CJoin _ f | CDrain _ f | CStop f | CJoinMonitor f | CDone f => f
  end.

Definition unopened (w : wstate) : Prop :=
  match w with
  | WOpen _ _ | WDied => True
  | _ => False
  end.

Definition fail_inv (s : sys) : Prop :=
  Forall unopened (procs s) /\
  queue s = [] /\
  found_of (coord s) = None /\
  (lock s = None \/ lock s = Some Monitor) /\
  (mon s = MPrint <-> lock s = Some Monitor) /\
  (stop_flag s = true <->
   match coord s with CJoinMonitor _ | CDone _ => True | _ => False end) /\
  (mon s = MReturned -> stop_flag s = true) /\
  match coord s with
  | CDrain k _ => (k < length (procs s))%nat
  | _ => True
  end.

(** The process to run next, and how far the run is from its report, when
    no worker can open the document. *)
Definition next_actor (s : sys) : actor :=
  match coord s with
  | CJoin k _ =>
      match procs s !! k with
      | Some (WOpen _ _) => Worker k
      | _ => Coordinator
      end
  | CJoinMonitor _ =>
      match mon s with
      | MReturned => Coordinator
      | _ => Monitor
      end
  | _ => Coordinator
  end.

Definition mon_rank (m : mstate) : nat :=
  match m with
  | MReturned => 0
  | MTest => 1
  | MPrint => 2
  | MAcquire => 3
  | MSleep => 4
  end.

Definition rank (s : sys) : nat :=
  match coord s with
  | CJoin k _ =>
      3 * (length (procs s) - k) + 10 +
      match procs s !! k with
      | Some (WOpen _ _) => 1
      | _ => 0
      end
  | CDrain k _ => 3 * (length (procs s) - k) + 9
  | CStop _ => 9
  | CJoinMonitor _ => 1 + mon_rank (mon s)
  | CDone _ => 0
  end.

End RunInvariants.

(** *** Two documents and the runs on them the statements name *)

(** A document that opens and whose password is [00000010199]. *)
Definition doc_first : pdf :=
  mkpdf (fun _ => true)
        (fun password => if String.eqb password "00000010199"
                         then Returns 1 else Returns 0).

(** A document no worker can open. *)
Definition doc_unreadable : pdf :=
  mkpdf (fun _ => false) (fun _ => Returns 0).

(** The history of the run of [parallel_brute_force] under a schedule. *)
Definition history_of (doc : pdf) (fixed_part : string) (is_prefix : bool)
    (num_processes : Z) (schedule : list actor) : option (list event) :=
  match parallel_brute_force fixed_part num_processes with
  | Ok s0 => history <$> exec doc fixed_part is_prefix schedule s0
  | Raise _ => None
  end.

(** One pass of a worker through its loop body: next, acquire, load,
    store, release, probe. *)
Definition one_probe (i : nat) : list actor := replicate 6 (Worker i).





(** *** More readings of a history, and what a run keeps in order *)

(** A worker between acquiring the lock and releasing it. *)
Definition critical (w : wstate) : bool :=
  match w with
  | WLoad _ _ | WStore _ _ _ | WRelease _ _ => true
  | _ => false
  end.

(** The final reports, the progress lines and the passwords probed that a
    history records, in order. *)
Definition reports (h : list event) : list (option string) :=
  flat_map (fun e => match e with EvReport f => [f] | _ => [] end) h.

Definition progress_values (h : list event) : list Z :=
  flat_map (fun e => match e with EvProgress v => [v] | _ => [] end) h.

Definition all_probes (h : list event) : list string :=
  flat_map (fun e => match e with EvProbe _ pw => [pw] | _ => [] end) h.

(** The coordinator has set the stop flag. *)
Definition past_stop (c : cstate) : bool :=
  match c with
  | CJoinMonitor _ | CDone _ => true
  | _ => false
  end.

(** Where the final report stands: none before the coordinator is done,
    and then one, the last event, after the monitor has returned. *)
Definition report_last (c : cstate) (n : nat) (m : mstate) (h : list event)
  : Prop :=
  match c with
  | CDrain k _ => (k < n)%nat /\ reports h = []
  | CDone f =>
      m = MReturned /\ exists h', h = h' ++ [EvReport f] /\ reports h' = []
  | _ => reports h = []
  end.

(** Who holds the lock, when the flag is set, and where the report stands. *)
Definition sync_inv (s : sys) : Prop :=
  (lock s = Some Monitor -> mon s = MPrint) /\
  (forall i, lock s = Some (Worker i) -> (i < length (procs s))%nat) /\
  stop_flag s = past_stop (coord s) /\
  (mon s = MReturned -> stop_flag s = true) /\
  report_last (coord s) (length (procs s)) (mon s) (history s).

(** *** What the queue holds and what the coordinator has found *)

Section RunReport.

Variable doc : pdf.

(** An item of the queue that is [None], or a password that was probed,
    that the document answered 1 for, and that is true for line 111. *)
Definition sound_item (h : list event) (item : option string) : Prop :=
  match item with
  | None => True
  | Some pw =>
      pw <> "" /\ matches (pdf_decrypt doc) pw = true /\ pw ∈ all_probes h
  end.

(** Some worker has put a password on the queue. *)
Definition found_put (h : list event) : Prop :=
  exists i pw, EvPut i (Some pw) ∈ h.

(** The coordinator has a password, or the queue holds none. *)
Definition drained (f : option string) (q : list (option string)) : Prop :=
  f <> None \/ Forall (fun item => item = None) q.

Definition queue_inv (s : sys) : Prop :=
  Forall (sound_item (history s)) (queue s) /\
  sound_item (history s) (found_of (coord s)) /\
  (found_put (history s) ->
   found_of (coord s) <> None \/ exists pw, Some pw ∈ queue s) /\
  (forall i, procs s !! i = Some WReturned ->
     (exists pw, EvPut i (Some pw) ∈ history s) \/
     no_match doc (probes_of i (history s))) /\
  match coord s with
  | CJoin k f => (length (procs s) <= k)%nat -> drained f (queue s)
  | CDrain _ _ => True
  | CStop f | CJoinMonitor f | CDone f => drained f (queue s)
  end.

End RunReport.

(** A run of one worker that finds the password at its first probe, then
    the coordinator and the monitor to the end. *)
Definition found_at_once : list actor :=
  Worker 0 :: one_probe 0 ++
  [Coordinator; Coordinator; Coordinator; Coordinator; Monitor; Coordinator].

(** The shortest run without workers. *)
Definition no_worker_run : list actor :=
  [Coordinator; Coordinator; Monitor; Coordinator].

(** *** The progress lines *)

(** Every progress line of a history shows the number of probes made before
    it, or up to [n] more. *)
Definition progress_bounded (n : Z) (h : list event) : Prop :=
  forall h1 v h2, h = h1 ++ EvProgress v :: h2 ->
    probe_count h1 <= v <= probe_count h1 + n.

Definition progress_inv (s : sys) : Prop :=
  progress_bounded (Z.of_nat (length (procs s))) (history s) /\
  StronglySorted Z.le (progress_values (history s)) /\
  Forall (fun v => v <= total_attempts s) (progress_values (history s)).

(** The monitor passing once through its loop: test, sleep, acquire,
    print. *)
Definition one_line : list actor := [Monitor; Monitor; Monitor; Monitor].

(** *** How far a run is from its report *)

Section RunRank.

Variable fixed_part : string.

(** The steps a worker still has to take, at most. *)
Definition work (w : wstate) : nat :=
  match w with
  | WOpen start stop => 6 * length (combinations fixed_part start stop) + 2
  | WNext it => 6 * length it + 1
  | WAcquire _ it => 6 * length it + 6
  | WLoad _ it => 6 * length it + 5
  | WStore _ _ it => 6 * length it + 4
  | WRelease _ it => 6 * length it + 3
  | WProbe _ it => 6 * length it + 2
  | WReturned | WDied => 0
  end.

Fixpoint total_work (ws : list wstate) : nat :=
  match ws with
  | [] => 0
  | w :: ws' => work w + total_work ws'
  end.

Definition coord_rank (n : nat) (c : cstate) : nat :=
  match c with
  | CJoin k _ => 2 * (n - k) + 4
  | CDrain k _ => 2 * (n - k) + 3
  | CStop _ => 3
  | CJoinMonitor _ => 2
  | CDone _ => 0
  end.

Definition run_rank (s : sys) : nat :=
  2 * total_work (procs s) + length (queue s) +
  coord_rank (length (procs s)) (coord s) + mon_rank (mon s).

(** A process that can move: the holder of the lock if there is one, else
    the worker the coordinator waits for, or the monitor once the flag is
    set, or the coordinator. *)
Definition scheduled (s : sys) : actor :=
  match lock s with
  | Some a => a
  | None =>
      match coord s with
      | CJoin k _ =>
          match procs s !! k with
          | Some w => if terminated w then Coordinator else Worker k
          | None => Coordinator
          end
      | CJoinMonitor _ =>
          match mon s with
          | MReturned => Coordinator
          | _ => Monitor
          end
      | _ => Coordinator
      end
  end.

End RunRank.

(* ================================================================= *)
(** * Properties *)

(** ** The splitting loop *)

Lemma fold_left_snoc {A B : Type} (f : A -> B) (l : list A) (acc : list B) :
  fold_left (fun processes i => processes ++ [f i]) l acc = acc ++ map f l.
Proof.
  revert acc. induction l as [|x l IH]; intros acc; simpl.
  - by rewrite app_nil_r.
  - rewrite IH. by rewrite <- app_assoc.
Qed.

Lemma split_ranges_map (total n : Z) :
  split_ranges total n =
  map (fun i => (i * (total / n),
                 if i <? n - 1 then (i + 1) * (total / n) else total))
      (seqZ 0 n).
Proof. unfold split_ranges, py_range. by rewrite fold_left_snoc. Qed.

Lemma split_ranges_length (total n : Z) :
  length (split_ranges total n) = Z.to_nat n.
Proof. by rewrite split_ranges_map, length_map, length_seqZ. Qed.

Lemma split_ranges_lookup (total n : Z) (i : nat) :
  Z.of_nat i < n ->
  split_ranges total n !! i =
  Some (Z.of_nat i * (total / n),
        if Z.of_nat i <? n - 1 then (Z.of_nat i + 1) * (total / n) else total).
Proof.
  intros Hi. rewrite split_ranges_map.
  change (map ?f ?l) with (f <$> l).
  rewrite list_lookup_fmap, lookup_seqZ_lt by done. simpl. done.
Qed.

Lemma split_ranges_lookup_Some (total n : Z) (i : nat) (r : Z * Z) :
  split_ranges total n !! i = Some r ->
  Z.of_nat i < n /\
  r = (Z.of_nat i * (total / n),
       if Z.of_nat i <? n - 1 then (Z.of_nat i + 1) * (total / n) else total).
Proof.
  intros H.
  assert (Hlt : (i < length (split_ranges total n))%nat)
    by (apply lookup_lt_is_Some; eauto).
  rewrite split_ranges_length in Hlt.
  assert (Hi : Z.of_nat i < n) by lia.
  split; [done|]. rewrite split_ranges_lookup in H by done. congruence.
Qed.

Lemma chunk_bounds (total n : Z) :
  0 <= total -> 1 <= n -> 0 <= total / n /\ n * (total / n) <= total.
Proof.
  intros Ht Hn. split.
  - apply Z.div_pos; lia.
  - apply Z.mul_div_le. lia.
Qed.

Lemma split_ranges_disjoint (total n : Z) (i j : nat) (ri rj : Z * Z) (idx : Z) :
  0 <= total -> 1 <= n ->
  split_ranges total n !! i = Some ri ->
  split_ranges total n !! j = Some rj ->
  i <> j -> in_range ri idx -> in_range rj idx -> False.
Proof.
  intros Ht Hn Hi Hj Hne.
  apply split_ranges_lookup_Some in Hi as [Hi ->].
  apply split_ranges_lookup_Some in Hj as [Hj ->].
  destruct (chunk_bounds total n Ht Hn) as [Hc Hle].
  unfold in_range; simpl.
  set (c := total / n) in *.
  destruct (Z.ltb_spec (Z.of_nat i) (n - 1)), (Z.ltb_spec (Z.of_nat j) (n - 1));
    intros [? ?] [? ?]; try nia.
Qed.

Lemma split_ranges_cover (total n idx : Z) :
  0 <= total -> 1 <= n ->
  (0 <= idx < total <->
   exists r, r ∈ split_ranges total n /\ in_range r idx).
Proof.
  intros Ht Hn.
  destruct (chunk_bounds total n Ht Hn) as [Hc Hle].
  split.
  - intros Hidx.
    set (c := total / n) in *.
    (* the worker whose range holds idx *)
    set (w := if (0 <? c) && (idx / c <? n - 1) then idx / c else n - 1).
    assert (Hw : 0 <= w < n).
    { unfold w. destruct (Z.ltb_spec 0 c); simpl; [|lia].
      destruct (Z.ltb_spec (idx / c) (n - 1)); [|lia].
      split; [apply Z.div_pos; lia | lia]. }
    exists (w * c, if w <? n - 1 then (w + 1) * c else total). split.
    + apply list_elem_of_lookup. exists (Z.to_nat w).
      rewrite split_ranges_lookup by lia. rewrite Z2Nat.id by lia. done.
    + unfold in_range; simpl. unfold w.
      destruct (Z.ltb_spec 0 c) as [Hpos|Hz]; simpl.
      * destruct (Z.ltb_spec (idx / c) (n - 1)) as [Hq|Hq].
        -- rewrite (proj2 (Z.ltb_lt _ _) Hq).
           pose proof (Z.div_mod idx c ltac:(lia)).
           pose proof (Z.mod_pos_bound idx c Hpos). nia.
        -- rewrite Z.ltb_irrefl.
           assert (n - 1 <= idx / c) by lia.
           assert ((n - 1) * c <= idx / c * c) by nia.
           pose proof (Z.div_mod idx c ltac:(lia)).
           pose proof (Z.mod_pos_bound idx c Hpos). nia.
      * rewrite Z.ltb_irrefl. assert (c = 0) by lia. nia.
  - intros [r [Hin Hr]].
    apply list_elem_of_lookup in Hin as [i Hi].
    apply split_ranges_lookup_Some in Hi as [Hi ->].
    unfold in_range in Hr; simpl in Hr.
    set (c := total / n) in *.
    destruct (Z.ltb_spec (Z.of_nat i) (n - 1)); nia.
Qed.

Lemma total_combinations_5_6 (fixed_part : string) :
  (String.length fixed_part = 5 \/ String.length fixed_part = 6)%nat ->
  total_combinations fixed_part = 1000000 \/
  total_combinations fixed_part = 100000.
Proof.
  unfold total_combinations. intros [-> | ->]; [left | right]; reflexivity.
Qed.

(** C1. For a fixed part of length 5 or 6 and at least one worker, the
    splitting loop yields, in order, the ranges [i*chunk, (i+1)*chunk) for
    the workers before the last and [(worker_count-1)*chunk, total) for the
    last one, where total = 10^(11 - fixed_len) and chunk = total div
    worker_count.  No candidate index lies in two ranges, the indices in
    some range are exactly those of [0, total), and with more workers than
    candidates the chunk is 0 and every range but the last is empty. *)
Theorem split_ranges_partition (fixed_part : string) (worker_count : Z) :
  1 <= worker_count ->
  (String.length fixed_part = 5 \/ String.length fixed_part = 6)%nat ->
  let total := 10 ^ (11 - Z.of_nat (String.length fixed_part)) in
  let chunk := total / worker_count in
  let ranges := split_ranges (total_combinations fixed_part) worker_count in
  total_combinations fixed_part = total /\
  length ranges = Z.to_nat worker_count /\
  (forall i, 0 <= i < worker_count - 1 ->
     ranges !! Z.to_nat i = Some (i * chunk, (i + 1) * chunk)) /\
  ranges !! Z.to_nat (worker_count - 1) =
    Some ((worker_count - 1) * chunk, total) /\
  (forall i j ri rj idx,
     ranges !! i = Some ri -> ranges !! j = Some rj -> i <> j ->
     ~ (in_range ri idx /\ in_range rj idx)) /\
  (forall idx,
     0 <= idx < total <-> exists r, r ∈ ranges /\ in_range r idx) /\
  (total < worker_count ->
     chunk = 0 /\
     forall i r, 0 <= i < worker_count - 1 ->
       ranges !! Z.to_nat i = Some r -> fst r = snd r).
Proof.
  intros Hn Hlen total chunk ranges.
  assert (Htot : total_combinations fixed_part = total) by reflexivity.
  assert (Hpos : 0 <= total).
  { destruct (total_combinations_5_6 fixed_part Hlen); lia. }
  assert (Hnth : forall i, 0 <= i < worker_count - 1 ->
            ranges !! Z.to_nat i = Some (i * chunk, (i + 1) * chunk)).
  { intros i Hi. unfold ranges. rewrite split_ranges_lookup by lia.
    rewrite Z2Nat.id by lia. rewrite (proj2 (Z.ltb_lt _ _)) by lia.
    by rewrite Htot. }
  split; [done|]. split; [apply split_ranges_length|].
  split; [done|]. split.
  { unfold ranges. rewrite split_ranges_lookup by lia.
    rewrite Z2Nat.id by lia. rewrite Z.ltb_irrefl. by rewrite Htot. }
  split.
  { intros i j ri rj idx Hi Hj Hne [Hri Hrj].
    eapply (split_ranges_disjoint _ worker_count i j); eauto; lia. }
  split.
  { intros idx. rewrite <- Htot at 1. apply split_ranges_cover; lia. }
  intros Hmany.
  assert (Hc : chunk = 0) by (apply Z.div_small; lia).
  split; [done|]. intros i r Hi Hr. rewrite Hnth in Hr by done.
  inversion Hr; subst r; simpl. rewrite Hc. lia.
Qed.

Lemma split_ranges_partition_witness :
  1 <= 3 /\
  (String.length "12345" = 5 \/ String.length "12345" = 6)%nat /\
  split_ranges (total_combinations "12345") 3 !! Z.to_nat (3 - 1) =
    Some ((3 - 1) * (10 ^ (11 - Z.of_nat (String.length "12345")) / 3),
          10 ^ (11 - Z.of_nat (String.length "12345"))).
Proof.
  split; [lia|]. split; [left; reflexivity|].
  exact (proj1 (proj2 (proj2 (proj2
           (split_ranges_partition "12345" 3 ltac:(lia)
              ltac:(left; reflexivity)))))).
Defined.

(** ** Enumeration of the candidates *)

Lemma flat_map_length_block {A B : Type} (g : A -> list B) (m : nat) (l : list A) :
  (forall x, length (g x) = m) ->
  length (flat_map g l) = (length l * m)%nat.
Proof.
  intros Hg. induction l as [|x l IH]; simpl; [done|].
  rewrite length_app, Hg, IH. lia.
Qed.

Lemma flat_map_lookup_block {A B : Type} (g : A -> list B) (m : nat)
    (l : list A) (q r : nat) (x : A) :
  (forall x, length (g x) = m) ->
  l !! q = Some x -> (r < m)%nat ->
  flat_map g l !! (q * m + r)%nat = g x !! r.
Proof.
  intros Hg. revert q. induction l as [|a l IH]; intros q Hq Hr; [done|].
  simpl. destruct q as [|q]; simpl in *.
  - inversion Hq; subst a. apply lookup_app_l. by rewrite Hg.
  - rewrite lookup_app_r by (rewrite Hg; lia).
    rewrite Hg. replace (m + q * m + r - m)%nat with (q * m + r)%nat by lia.
    by apply IH.
Qed.

Lemma product_S {A : Type} (pool : list A) (r : nat) :
  product pool (S r) =
  flat_map (fun x => map (fun y => x ++ [y]) pool) (product pool r).
Proof. reflexivity. Qed.

Lemma product_length {A : Type} (pool : list A) (k : nat) :
  length (product pool k) = (length pool ^ k)%nat.
Proof.
  induction k as [|k IH]; simpl; [done|].
  rewrite (flat_map_length_block _ (length pool)).
  - rewrite IH. lia.
  - intros x. by rewrite length_map.
Qed.

Lemma digits_pool_lookup (d : Z) :
  0 <= d < 10 -> digits_pool !! Z.to_nat d = Some (digit_char d).
Proof.
  intros Hd.
  assert (d = 0 \/ d = 1 \/ d = 2 \/ d = 3 \/ d = 4 \/
          d = 5 \/ d = 6 \/ d = 7 \/ d = 8 \/ d = 9) as Hc by lia.
  repeat (destruct Hc as [-> | Hc]; [reflexivity|]). subst d. reflexivity.
Qed.

(** The element of index [idx] of the lexicographic product of the ten
    digits is the zero-padded expansion of [idx]. *)
Lemma product_lookup (k : nat) (idx : Z) :
  0 <= idx < 10 ^ Z.of_nat k ->
  product digits_pool k !! Z.to_nat idx = Some (zeropad_digits k idx).
Proof.
  revert idx. induction k as [|k IH]; intros idx Hidx.
  - simpl in Hidx. assert (idx = 0) by lia. subst idx. reflexivity.
  - rewrite Nat2Z.inj_succ, Z.pow_succ_r in Hidx by lia.
    assert (Hq : 0 <= idx / 10 < 10 ^ Z.of_nat k).
    { split; [apply Z.div_pos; lia | apply Z.div_lt_upper_bound; lia]. }
    pose proof (Z.mod_pos_bound idx 10 ltac:(lia)) as Hr.
    pose proof (Z.div_mod idx 10 ltac:(lia)) as Hdm.
    replace (Z.to_nat idx)
      with (Z.to_nat (idx / 10) * 10 + Z.to_nat (idx mod 10))%nat by lia.
    rewrite product_S.
    rewrite (flat_map_lookup_block _ 10 _ _ _ (zeropad_digits k (idx / 10))).
    + cbv beta. change (map ?f ?l) with (f <$> l).
      rewrite list_lookup_fmap, digits_pool_lookup by done. reflexivity.
    + intros x. by rewrite length_map.
    + by apply IH.
    + lia.
Qed.

Lemma product_digits_length (k : nat) :
  Z.of_nat (length (product digits_pool k)) = 10 ^ Z.of_nat k.
Proof.
  rewrite product_length. change (length digits_pool) with 10%nat.
  rewrite Nat2Z.inj_pow. reflexivity.
Qed.

Lemma islice_product (k : nat) (start stop : Z) :
  0 <= start -> stop <= 10 ^ Z.of_nat k ->
  islice (product digits_pool k) start stop =
  map (zeropad_digits k) (seqZ start (stop - start)).
Proof.
  intros Hs He. unfold islice. apply list_eq. intros i.
  change (map ?f ?l) with (f <$> l). rewrite list_lookup_fmap.
  destruct (decide (Z.of_nat i < stop - start)) as [Hi|Hi].
  - rewrite lookup_take_lt by lia. rewrite lookup_drop.
    rewrite lookup_seqZ_lt by done. simpl.
    replace (Z.to_nat start + i)%nat with (Z.to_nat (start + Z.of_nat i)) by lia.
    apply product_lookup. lia.
  - rewrite lookup_take_ge by lia. rewrite lookup_seqZ_ge by lia. done.
Qed.

Lemma variable_length (fixed_part : string) :
  (String.length fixed_part = 5 \/ String.length fixed_part = 6)%nat ->
  10 ^ Z.of_nat (11 - String.length fixed_part) = total_combinations fixed_part.
Proof. unfold total_combinations. intros [-> | ->]; reflexivity. Qed.

Lemma compose_zeropad (fixed_part : string) (is_prefix : bool) (idx : Z) :
  compose fixed_part is_prefix
    (zeropad_digits (11 - String.length fixed_part) idx) =
  candidate fixed_part is_prefix idx.
Proof. reflexivity. Qed.

(** The passwords of a range, by index. *)
Lemma passwords_of_range (fixed_part : string) (is_prefix : bool) (start stop : Z) :
  0 <= start -> stop <= 10 ^ Z.of_nat (11 - String.length fixed_part) ->
  map (compose fixed_part is_prefix) (combinations fixed_part start stop) =
  map (candidate fixed_part is_prefix) (seqZ start (stop - start)).
Proof.
  intros Hs He. unfold combinations. rewrite islice_product by done.
  rewrite map_map. apply map_ext. intros idx. apply compose_zeropad.
Qed.

(** *** Strings and the zero-padded expansion *)

Lemma string_length_of_list (l : list ascii) :
  String.length (string_of_list_ascii l) = length l.
Proof. induction l as [|c l IH]; simpl; [reflexivity | by rewrite IH]. Qed.

Lemma string_length_app (s1 s2 : string) :
  String.length (s1 +:+ s2) = (String.length s1 + String.length s2)%nat.
Proof. induction s1 as [|c s1 IH]; simpl; [reflexivity | by rewrite IH]. Qed.

Lemma list_ascii_app (s1 s2 : string) :
  list_ascii_of_string (s1 +:+ s2) =
  list_ascii_of_string s1 ++ list_ascii_of_string s2.
Proof. induction s1 as [|c s1 IH]; simpl; [reflexivity | by rewrite IH]. Qed.

Lemma all_digits_app (s1 s2 : string) :
  all_digits (s1 +:+ s2) = all_digits s1 && all_digits s2.
Proof. unfold all_digits. by rewrite list_ascii_app, forallb_app. Qed.

Lemma zeropad_digits_length (k : nat) (idx : Z) :
  length (zeropad_digits k idx) = k.
Proof.
  revert idx. induction k as [|k IH]; intros idx; simpl; [done|].
  rewrite length_app, IH. simpl. lia.
Qed.

Lemma digit_char_spec (d : Z) :
  0 <= d < 10 -> is_digit (digit_char d) = true /\ digit_value (digit_char d) = d.
Proof.
  intros Hd.
  assert (d = 0 \/ d = 1 \/ d = 2 \/ d = 3 \/ d = 4 \/
          d = 5 \/ d = 6 \/ d = 7 \/ d = 8 \/ d = 9) as Hc by lia.
  repeat (destruct Hc as [-> | Hc]; [split; reflexivity|]).
  subst d. split; reflexivity.
Qed.

Lemma zeropad_digits_all_digits (k : nat) (idx : Z) :
  forallb is_digit (zeropad_digits k idx) = true.
Proof.
  revert idx. induction k as [|k IH]; intros idx; simpl; [done|].
  rewrite forallb_app, IH. simpl.
  destruct (digit_char_spec (idx mod 10)) as [-> _]; [|done].
  apply Z.mod_pos_bound. lia.
Qed.

Lemma decimal_value_snoc (cs : list ascii) (c : ascii) :
  decimal_value (cs ++ [c]) = 10 * decimal_value cs + digit_value c.
Proof. unfold decimal_value. by rewrite fold_left_app. Qed.

Lemma zeropad_digits_value (k : nat) (idx : Z) :
  0 <= idx < 10 ^ Z.of_nat k -> decimal_value (zeropad_digits k idx) = idx.
Proof.
  revert idx. induction k as [|k IH]; intros idx Hidx.
  - simpl in Hidx. unfold decimal_value. simpl. lia.
  - rewrite Nat2Z.inj_succ, Z.pow_succ_r in Hidx by lia.
    simpl. rewrite decimal_value_snoc.
    rewrite IH.
    + destruct (digit_char_spec (idx mod 10)) as [_ ->].
      * apply Z.mod_pos_bound. lia.
      * pose proof (Z.div_mod idx 10 ltac:(lia)). lia.
    + split; [apply Z.div_pos; lia | apply Z.div_lt_upper_bound; lia].
Qed.

(** [zeropad idx k] is the string of [k] decimal digits whose value is
    [idx]. *)
Lemma zeropad_spec (k : nat) (idx : Z) :
  0 <= idx < 10 ^ Z.of_nat k ->
  String.length (zeropad idx k) = k /\
  all_digits (zeropad idx k) = true /\
  decimal_value (list_ascii_of_string (zeropad idx k)) = idx.
Proof.
  intros Hidx. unfold zeropad, all_digits.
  rewrite string_length_of_list, list_ascii_of_string_of_list_ascii.
  split; [apply zeropad_digits_length|].
  split; [apply zeropad_digits_all_digits | by apply zeropad_digits_value].
Qed.

(** *** The loop of a worker *)

Lemma test_loop_no_match (decrypt : string -> probe_result) (pws : list string) :
  Forall (fun pw => matches decrypt pw = false) pws ->
  test_loop decrypt pws = (pws, None).
Proof.
  induction 1 as [|pw pws Hpw _ IH]; simpl; [done|].
  unfold matches in Hpw. destruct (decrypt pw) as [code|].
  - rewrite Hpw, IH. done.
  - rewrite IH. done.
Qed.

Lemma test_loop_first_match (decrypt : string -> probe_result)
    (pre : list string) (pw : string) (post : list string) :
  Forall (fun pw => matches decrypt pw = false) pre ->
  matches decrypt pw = true ->
  test_loop decrypt (pre ++ pw :: post) = (pre ++ [pw], Some pw).
Proof.
  intros Hpre Hpw. induction Hpre as [|p pre Hp _ IH]; simpl.
  - unfold matches in Hpw. destruct (decrypt pw) as [code|]; [|done].
    by rewrite Hpw.
  - unfold matches in Hp. destruct (decrypt p) as [code|].
    + rewrite Hp, IH. done.
    + rewrite IH. done.
Qed.

Lemma first_match_split (decrypt : string -> probe_result) (pws : list string) :
  Forall (fun pw => matches decrypt pw = false) pws \/
  exists pre pw post,
    pws = pre ++ pw :: post /\
    Forall (fun pw => matches decrypt pw = false) pre /\
    matches decrypt pw = true.
Proof.
  induction pws as [|p pws IH]; [by left|].
  destruct (matches decrypt p) eqn:Hp.
  - right. exists [], p, pws. auto.
  - destruct IH as [IH | (pre & pw & post & -> & Hpre & Hpw)].
    + left. by constructor.
    + right. exists (p :: pre), pw, post. split_and!; [done| |done].
      by constructor.
Qed.

Lemma seqZ_split (start n m : Z) :
  0 <= n -> 0 <= m ->
  seqZ start (n + m) = seqZ start n ++ seqZ (start + n) m.
Proof. intros. by apply seqZ_app. Qed.

Lemma map_seqZ_split {A : Type} (f : Z -> A) (start len : Z)
    (pre : list A) (x : A) (post : list A) :
  map f (seqZ start len) = pre ++ x :: post ->
  let n := Z.of_nat (length pre) in
  n < len /\ pre = map f (seqZ start n) /\ x = f (start + n).
Proof.
  intros H n.
  assert (Hlen : length (map f (seqZ start len)) = length (pre ++ x :: post))
    by (by rewrite H).
  rewrite length_map, length_seqZ, length_app in Hlen. simpl in Hlen.
  assert (Hn : n < len) by lia.
  split; [done|].
  replace len with (n + (len - n)) in H by lia.
  rewrite seqZ_split, map_app in H by lia.
  apply app_inj_1 in H as [H1 H2].
  - split; [done|].
    rewrite seqZ_cons in H2 by lia. simpl in H2. congruence.
  - rewrite length_map, length_seqZ. lia.
Qed.

(** C2. A worker over [start, stop) with a fixed part of length 5 or 6
    tries the candidates of the indices start, start+1, ... in increasing
    order without skipping any: the passwords it tries are those of the
    indices start .. start+n-1, where it reaches the end of the range
    (n = stop - start) unless index start+n-1 matched, after which it
    returns.  The candidate of index idx is the fixed part followed
    (prefix) or preceded (suffix) by zeropad idx (11 - len), the string of
    11 - len decimal digits of value idx. *)
Theorem worker_tries_range_in_order (decrypt : string -> probe_result)
    (fixed_part : string) (is_prefix : bool) (start stop : Z) :
  (String.length fixed_part = 5 \/ String.length fixed_part = 6)%nat ->
  0 <= start <= stop ->
  stop <= 10 ^ (11 - Z.of_nat (String.length fixed_part)) ->
  (exists n item,
     test_password_range true decrypt fixed_part is_prefix start stop =
       Returned (map (candidate fixed_part is_prefix) (seqZ start n)) item /\
     0 <= n <= stop - start /\
     (forall idx, start <= idx < start + n - 1 ->
        matches decrypt (candidate fixed_part is_prefix idx) = false) /\
     ((item = None /\ n = stop - start /\
       forall idx, start <= idx < stop ->
         matches decrypt (candidate fixed_part is_prefix idx) = false) \/
      (0 < n /\
       item = Some (candidate fixed_part is_prefix (start + n - 1)) /\
       matches decrypt (candidate fixed_part is_prefix (start + n - 1)) = true))) /\
  (forall idx,
     candidate fixed_part is_prefix idx =
       if is_prefix
       then fixed_part +:+ zeropad idx (11 - String.length fixed_part)
       else zeropad idx (11 - String.length fixed_part) +:+ fixed_part) /\
  (forall idx, 0 <= idx < 10 ^ (11 - Z.of_nat (String.length fixed_part)) ->
     product digits_pool (11 - String.length fixed_part) !! Z.to_nat idx =
       Some (list_ascii_of_string (zeropad idx (11 - String.length fixed_part))) /\
     String.length (zeropad idx (11 - String.length fixed_part)) =
       (11 - String.length fixed_part)%nat /\
     all_digits (zeropad idx (11 - String.length fixed_part)) = true /\
     decimal_value
       (list_ascii_of_string (zeropad idx (11 - String.length fixed_part))) = idx).
Proof.
  intros Hlen Hrange Hstop.
  assert (Hk : 10 ^ Z.of_nat (11 - String.length fixed_part) =
               10 ^ (11 - Z.of_nat (String.length fixed_part))).
  { by rewrite variable_length. }
  split; [|split].
  - unfold test_password_range.
    rewrite passwords_of_range by lia.
    set (cand := candidate fixed_part is_prefix).
    set (pws := map cand (seqZ start (stop - start))).
    destruct (first_match_split decrypt pws)
      as [Hall | (pre & pw & post & Hsplit & Hpre & Hpw)].
    + rewrite test_loop_no_match by done.
      exists (stop - start), None.
      assert (Hno : forall idx, start <= idx < stop -> matches decrypt (cand idx) = false).
      { intros idx Hidx. rewrite Forall_forall in Hall. apply Hall.
        unfold pws. change (map ?f ?l) with (f <$> l).
        apply list_elem_of_fmap. exists idx. split; [done|].
        apply elem_of_seqZ. lia. }
      split_and!; [done|lia|lia| |]; [intros; apply Hno; lia | left; auto].
    + rewrite Hsplit, test_loop_first_match by done.
      apply map_seqZ_split in Hsplit as (Hn & Hpre_eq & Hpw_eq).
      set (n := Z.of_nat (length pre)) in *.
      exists (n + 1), (Some pw).
      split_and!.
      * rewrite seqZ_split, map_app by lia.
        rewrite (seqZ_cons (start + n) 1) by lia. simpl.
        by rewrite Hpre_eq, Hpw_eq.
      * lia.
      * lia.
      * intros idx Hidx. rewrite Forall_forall in Hpre. apply Hpre.
        rewrite Hpre_eq. change (map ?f ?l) with (f <$> l).
        apply list_elem_of_fmap. exists idx. split; [done|].
        apply elem_of_seqZ. lia.
      * right. replace (start + (n + 1) - 1) with (start + n) by lia.
        rewrite <- Hpw_eq. split_and!; [lia|done|done].
  - intros idx. reflexivity.
  - intros idx Hidx. rewrite <- Hk in Hidx. split.
    + rewrite product_lookup by done. unfold zeropad.
      by rewrite list_ascii_of_string_of_list_ascii.
    + by apply zeropad_spec.
Qed.

Lemma worker_tries_range_in_order_witness :
  (String.length "12345" = 5 \/ String.length "12345" = 6)%nat /\
  0 <= 678900 <= 678902 /\
  678902 <= 10 ^ (11 - Z.of_nat (String.length "12345")) /\
  product digits_pool (11 - String.length "12345") !! Z.to_nat 678901 =
    Some (list_ascii_of_string (zeropad 678901 (11 - String.length "12345"))) /\
  decimal_value
    (list_ascii_of_string (zeropad 678901 (11 - String.length "12345"))) =
  678901.
Proof.
  split; [left; reflexivity|]. split; [lia|].
  split; [vm_compute; discriminate|].
  pose proof (proj2 (proj2
    (worker_tries_range_in_order (fun _ => Returns 0) "12345" true
       678900 678902 ltac:(left; reflexivity) ltac:(lia)
       ltac:(vm_compute; discriminate)))) as H.
  destruct (H 678901 ltac:(split; [lia | vm_compute; reflexivity]))
    as (Hnth & _ & _ & Hval).
  split; [exact Hnth | exact Hval].
Defined.

(** ** The date suffix *)

Lemma is_digit_in_pool (c : ascii) : is_digit c = true -> In c digits_pool.
Proof.
  destruct c as [[] [] [] [] [] [] [] []]; intros H;
    try discriminate H; simpl; tauto.
Qed.

Lemma for_all_digits_sound (P : ascii -> bool) (c : ascii) :
  for_all_digits P = true -> is_digit c = true -> P c = true.
Proof.
  unfold for_all_digits. rewrite forallb_forall. intros H Hc.
  apply H. by apply is_digit_in_pool.
Qed.

Lemma six_of_length (s : string) :
  String.length s = 6%nat ->
  exists c1 c2 c3 c4 c5 c6, s = six c1 c2 c3 c4 c5 c6.
Proof.
  intros H.
  destruct s as [|c1 [|c2 [|c3 [|c4 [|c5 [|c6 [|c7 s]]]]]]]; try discriminate H.
  by exists c1, c2, c3, c4, c5, c6.
Qed.

Lemma py_int_raises (cs : list ascii) (e : exn) :
  py_int cs = Raise e -> e = ValueError.
Proof.
  unfold py_int. destruct (lstrip cs); [by intros [=]|].
  destruct (forallb _ _); by intros [=].
Qed.

Lemma datetime_date_raises (y m d : Z) (e : exn) :
  datetime_date y m d = Raise e -> e = ValueError.
Proof. unfold datetime_date. repeat case_match; intros [=]; done. Qed.

Lemma datetime_date_Ok (y m d : Z) (dt : date) :
  datetime_date y m d = Ok dt ->
  dt = mkdate y m d /\ 1 <= m <= 12 /\ 1 <= d <= _days_in_month y m.
Proof.
  unfold datetime_date. repeat case_match; try congruence.
  intros [= <-]. split; [done|].
  repeat match goal with
         | H : negb _ = false |- _ => apply negb_false_iff in H
         | H : _ && _ = true |- _ => apply andb_true_iff in H as [? ?]
         end.
  lia.
Qed.

Lemma strptime_raises (s : string) (e : exn) :
  strptime s = Raise e -> e = ValueError.
Proof.
  unfold strptime, bind.
  repeat case_match; intros Hraise; try (by inversion Hraise);
    try (injection Hraise as <-);
    eauto using py_int_raises, datetime_date_raises.
Qed.

Lemma validate_date_suffix_total (s : string) :
  exists b, validate_date_suffix s = Ok b.
Proof.
  unfold validate_date_suffix. destruct (negb _); [by eexists|].
  destruct (strptime s) as [dt|e] eqn:Hs; [by eexists|].
  apply strptime_raises in Hs as ->. by eexists.
Qed.

Lemma validate_date_suffix_length (s : string) :
  String.length s <> 6%nat -> validate_date_suffix s = Ok false.
Proof.
  intros H. unfold validate_date_suffix.
  destruct (Nat.eqb_spec (String.length s) 6); [done|]. reflexivity.
Qed.

Lemma all_digits_six (c1 c2 c3 c4 c5 c6 : ascii) :
  all_digits (six c1 c2 c3 c4 c5 c6) = true ->
  is_digit c1 = true /\ is_digit c2 = true /\ is_digit c3 = true /\
  is_digit c4 = true /\ is_digit c5 = true /\ is_digit c6 = true.
Proof.
  unfold all_digits. simpl. rewrite !andb_true_iff. tauto.
Qed.

(** *** What a match of the format tells about the input *)

Lemma match_alt_sound (alt : list cls) (s m rest : list ascii) :
  match_alt alt s = Some (m, rest) ->
  s = m ++ rest /\ Forall2 (fun k c => cls_matches k c = true) alt m.
Proof.
  revert s m rest. induction alt as [|k alt IH]; intros s m rest; simpl.
  - intros [= <- <-]. split; [done | constructor].
  - destruct s as [|c s]; [done|].
    destruct (cls_matches k c) eqn:Hk; [|done].
    destruct (match_alt alt s) as [[m' rest']|] eqn:Hm; [|done].
    intros [= <- <-]. destruct (IH _ _ _ Hm) as [-> Hall].
    split; [done | by constructor].
Qed.

Lemma match_groups_cons (g : list (list cls)) (gs : list (list (list cls)))
    (s : list ascii) (ms : list (list ascii)) (rest : list ascii) :
  match_groups (g :: gs) s = Some (ms, rest) ->
  exists alt m r ms',
    In alt g /\ match_alt alt s = Some (m, r) /\
    match_groups gs r = Some (ms', rest) /\ ms = m :: ms'.
Proof.
  simpl. induction g as [|alt alts IH]; [done|].
  destruct (match_alt alt s) as [[m r]|] eqn:Hm.
  - destruct (match_groups gs r) as [[ms' r']|] eqn:Hr.
    + intros [= <- <-]. exists alt, m, r, ms'. simpl. auto.
    + intros H. destruct (IH H) as (a & m' & r' & ms' & Hin & ?).
      exists a, m', r', ms'. simpl. tauto.
  - intros H. destruct (IH H) as (a & m' & r' & ms' & Hin & ?).
    exists a, m', r', ms'. simpl. tauto.
Qed.

(** A match of [%d%m%y] that leaves nothing over ends in two decimal
    digits, the text of the group [y]. *)
Lemma format_regex_year (s : list ascii) (ms : list (list ascii)) :
  match_groups format_regex s = Some (ms, []) ->
  exists d m y1 y2,
    ms = [d; m; [y1; y2]] /\ s = (d ++ m) ++ [y1; y2] /\
    is_digit y1 = true /\ is_digit y2 = true.
Proof.
  intros H. unfold format_regex in H.
  apply match_groups_cons in H as (ad & d & r1 & ms1 & _ & Hd & H & ->).
  apply match_groups_cons in H as (am & m & r2 & ms2 & _ & Hm & H & ->).
  apply match_groups_cons in H as (ay & y & r3 & ms3 & Hy_in & Hy & H & ->).
  simpl in H. injection H as Hms Hr. subst ms3 r3.
  apply match_alt_sound in Hd as [-> _].
  apply match_alt_sound in Hm as [-> _].
  apply match_alt_sound in Hy as [-> Hy].
  destruct Hy_in as [<- | []].
  inversion Hy as [|? y1 ? ys H1 Hy']; subst.
  inversion Hy' as [|? y2 ? ys' H2 Hy'']; subst.
  inversion Hy''; subst. simpl in H1, H2.
  exists d, m, y1, y2. rewrite app_nil_r, <- app_assoc. auto.
Qed.

Lemma is_digit_not_blank (c : ascii) :
  is_digit c = true -> Ascii.eqb c " " = false.
Proof.
  intros H. destruct (Ascii.eqb_spec c " ") as [-> | ?]; [discriminate H | done].
Qed.

Lemma py_int_two_digits (y1 y2 : ascii) :
  is_digit y1 = true -> is_digit y2 = true ->
  py_int [y1; y2] = Ok (two_digits y1 y2).
Proof.
  intros H1 H2. unfold py_int. simpl.
  rewrite (is_digit_not_blank y1 H1). simpl. rewrite H1, H2. simpl.
  unfold decimal_value, two_digits; simpl; f_equal; lia.
Qed.

Lemma two_digits_bounds (y1 y2 : ascii) :
  is_digit y1 = true -> is_digit y2 = true -> 0 <= two_digits y1 y2 <= 99.
Proof.
  unfold is_digit, two_digits, digit_value. intros H1 H2.
  apply andb_true_iff in H1 as [? ?]. apply andb_true_iff in H2 as [? ?]. lia.
Qed.

Lemma strptime_year (s : string) (dt : date) :
  strptime s = Ok dt ->
  exists pre y1 y2,
    list_ascii_of_string s = pre ++ [y1; y2] /\
    is_digit y1 = true /\ is_digit y2 = true /\
    year dt = century (two_digits y1 y2).
Proof.
  unfold strptime.
  destruct (match_groups _ _) as [[ms rest]|] eqn:Hm; [|done].
  destruct rest as [|? ?]; [|by repeat case_match].
  apply format_regex_year in Hm as (d & m & y1 & y2 & -> & Hs & H1 & H2).
  rewrite py_int_two_digits by done. unfold bind.
  destruct (py_int m) as [mm|]; [|done].
  destruct (py_int d) as [dd|]; [|done].
  intros Hd. apply datetime_date_Ok in Hd as [-> _].
  exists (d ++ m), y1, y2. auto.
Qed.

(** *** The day and the month are read apart from the year *)

Lemma match_alt_app (alt : list cls) (s t : list ascii) :
  (length alt <= length s)%nat ->
  match_alt alt (s ++ t) =
  match match_alt alt s with
  | Some (m, r) => Some (m, r ++ t)
  | None => None
  end.
Proof.
  revert s. induction alt as [|k alt IH]; intros s Hlen; simpl; [done|].
  destruct s as [|c s]; simpl in *; [lia|].
  destruct (cls_matches k c); [|done].
  rewrite IH by lia. by destruct (match_alt alt s) as [[m r]|].
Qed.

Lemma match_alt_length (alt : list cls) (s m r : list ascii) :
  match_alt alt s = Some (m, r) ->
  length m = length alt /\ s = m ++ r.
Proof.
  intros H. apply match_alt_sound in H as [-> Hall].
  split; [|done]. symmetry. by eapply Forall2_length.
Qed.

(** The group [y] takes two digits, whatever follows them. *)
Lemma group_y_digits (a b : ascii) (rest : list ascii) :
  is_digit a = true -> is_digit b = true ->
  match_groups [group_y] (a :: b :: rest) = Some ([[a; b]], rest).
Proof. intros Ha Hb. simpl. by rewrite Ha, Hb. Qed.

Lemma digits_then_year (r : list ascii) (y1 y2 : ascii) :
  Forall (fun c => is_digit c = true) r ->
  is_digit y1 = true -> is_digit y2 = true ->
  exists a b rest,
    r ++ [y1; y2] = a :: b :: rest /\
    is_digit a = true /\ is_digit b = true /\
    (rest = [] <-> r = []).
Proof.
  intros Hr H1 H2. destruct Hr as [|a r Ha Hr].
  - exists y1, y2, []. done.
  - destruct Hr as [|b r Hb Hr].
    + exists a, y1, [y2]. by repeat split.
    + exists a, b, (r ++ [y1; y2]). repeat split; try done.
      by destruct r.
Qed.

(** On digits, the groups before [y] are matched as if the year were not
    there, and [y] takes the next two digits: the year never makes the
    matcher go back on the day or the month. *)
Lemma match_groups_then_year (gs : list (list (list cls))) (s : list ascii)
    (y1 y2 : ascii) :
  fits gs (length s) ->
  Forall (fun c => is_digit c = true) s ->
  is_digit y1 = true -> is_digit y2 = true ->
  match_groups (gs ++ [group_y]) (s ++ [y1; y2]) =
  match match_groups gs s with
  | Some (ms, r) =>
      match r ++ [y1; y2] with
      | a :: b :: rest => Some (ms ++ [[a; b]], rest)
      | _ => None
      end
  | None => None
  end.
Proof.
  intros Hfits Hs H1 H2. revert s Hfits Hs.
  induction gs as [|g gs IH]; intros s Hfits Hs.
  - destruct (digits_then_year s y1 y2 Hs H1 H2)
      as (a & b & rest & Heq & Ha & Hb & _).
    change (match_groups [] s) with (Some (@nil (list ascii), s)).
    cbv beta iota. rewrite Heq, app_nil_l. by rewrite group_y_digits.
  - simpl in Hfits. cbn [app match_groups].
    induction Hfits as [|alt alts [Hlen Hrest] _ IHalts]; [done|].
    rewrite match_alt_app by done.
    destruct (match_alt alt s) as [[m r]|] eqn:Hm; [|exact IHalts].
    apply match_alt_length in Hm as [Hml ->].
    rewrite length_app in Hrest.
    replace (length m + length r - length alt)%nat with (length r) in Hrest
      by lia.
    apply Forall_app in Hs as Hmr. destruct Hmr as [_ Hr].
    rewrite (IH r Hrest Hr).
    destruct (match_groups gs r) as [[ms r']|] eqn:Hgs; [|exact IHalts].
    assert (Hr' : Forall (fun c => is_digit c = true) r').
    { clear -Hgs Hr. revert r ms r' Hgs Hr.
      induction gs as [|g' gs' IHg]; intros r ms r' Hgs Hr.
      - simpl in Hgs. by injection Hgs as <- <-.
      - apply match_groups_cons in Hgs
          as (alt' & m' & r1 & ms' & _ & Halt & Hgs & ->).
        apply match_alt_sound in Halt as [-> _].
        apply Forall_app in Hr as [_ Hr]. by eapply IHg. }
    destruct (digits_then_year r' y1 y2 Hr' H1 H2)
      as (a & b & rest & -> & _). done.
Qed.

Lemma format_regex_fits : fits [group_d; group_m] 4.
Proof.
  unfold group_d, group_m. simpl.
  repeat first [constructor | split | done | simpl; lia].
Qed.

(** [strptime] on six digits: the day and the month come from the first
    four, the year from the last two. *)
Lemma strptime_six (c1 c2 c3 c4 c5 c6 : ascii) :
  is_digit c1 = true -> is_digit c2 = true -> is_digit c3 = true ->
  is_digit c4 = true -> is_digit c5 = true -> is_digit c6 = true ->
  strptime (six c1 c2 c3 c4 c5 c6) =
  match day_month c1 c2 c3 c4 with
  | Some (dd, mm) => datetime_date (century (two_digits c5 c6)) mm dd
  | None => Raise ValueError
  end.
Proof.
  intros H1 H2 H3 H4 H5 H6. unfold strptime, day_month.
  change (list_ascii_of_string (six c1 c2 c3 c4 c5 c6))
    with ([c1; c2; c3; c4] ++ [c5; c6]).
  change format_regex with ([group_d; group_m] ++ [group_y]).
  rewrite match_groups_then_year;
    [|exact format_regex_fits|by repeat constructor|done|done].
  destruct (match_groups [group_d; group_m] [c1; c2; c3; c4])
    as [[ms r]|] eqn:Hm; [|done].
  pose proof Hm as Hshape.
  apply match_groups_cons in Hshape as (ad & d & r1 & ms1 & _ & Hd & Hshape & ->).
  apply match_groups_cons in Hshape as (am & m & r2 & ms2 & _ & Hmm & Hshape & ->).
  simpl in Hshape. injection Hshape as Hms Hr. subst ms2 r2.
  assert (Hdig : Forall (fun c => is_digit c = true) r).
  { apply match_alt_sound in Hd as [Hd _]. apply match_alt_sound in Hmm as [-> _].
    assert (Hall : Forall (fun c => is_digit c = true) [c1; c2; c3; c4])
      by (by repeat constructor).
    rewrite Hd in Hall. apply Forall_app in Hall as [_ Hall].
    by apply Forall_app in Hall as [_ Hall]. }
  destruct (digits_then_year r c5 c6 Hdig H5 H6)
    as (a & b & rest & Heq & Ha & Hb & Hnil).
  rewrite Heq. simpl.
  destruct r as [|x r].
  - injection Heq as <- <- <-.
    rewrite py_int_two_digits by done. unfold bind.
    destruct (py_int m) as [mm|e1] eqn:Hpm, (py_int d) as [dd|e2] eqn:Hpd;
      try done.
    + by rewrite (py_int_raises _ _ Hpd).
    + by rewrite (py_int_raises _ _ Hpm).
    + by rewrite (py_int_raises _ _ Hpm).
  - destruct rest as [|z rest]; [|done].
    destruct Hnil as [Hnil _]. by specialize (Hnil eq_refl).
Qed.

Lemma for_all_four_digits_sound (P : ascii -> ascii -> ascii -> ascii -> bool)
    (c1 c2 c3 c4 : ascii) :
  for_all_four_digits P = true ->
  is_digit c1 = true -> is_digit c2 = true -> is_digit c3 = true ->
  is_digit c4 = true -> P c1 c2 c3 c4 = true.
Proof.
  unfold for_all_four_digits. intros H H1 H2 H3 H4.
  apply (for_all_digits_sound _ c1) in H; [|done].
  apply (for_all_digits_sound _ c2) in H; [|done].
  apply (for_all_digits_sound _ c3) in H; [|done].
  by apply (for_all_digits_sound _ c4) in H.
Qed.

(** The day and the month the format reads from four digits are those of
    the calendar: checked on the 10^4 strings of four digits. *)
Lemma day_month_check :
  for_all_four_digits (fun c1 c2 c3 c4 =>
    same_day_month (day_month c1 c2 c3 c4) (day_month_spec c1 c2 c3 c4)) = true.
Proof. vm_compute. reflexivity. Qed.

Lemma day_month_calendar (c1 c2 c3 c4 : ascii) :
  is_digit c1 = true -> is_digit c2 = true -> is_digit c3 = true ->
  is_digit c4 = true ->
  day_month c1 c2 c3 c4 = day_month_spec c1 c2 c3 c4.
Proof.
  intros H1 H2 H3 H4.
  pose proof (for_all_four_digits_sound _ c1 c2 c3 c4 day_month_check
                H1 H2 H3 H4) as Hc.
  cbv beta in Hc. unfold same_day_month in Hc.
  destruct (day_month c1 c2 c3 c4) as [[d1 m1]|],
           (day_month_spec c1 c2 c3 c4) as [[d2 m2]|]; try done.
  apply andb_true_iff in Hc as [Hd Hm].
  apply Z.eqb_eq in Hd, Hm. by subst.
Qed.

Lemma days_in_month_length (y m : Z) :
  1 <= m <= 12 -> _days_in_month y m = month_length y m.
Proof.
  intros Hm. unfold _days_in_month, month_length, _is_leap, leap_year.
  assert (m = 1 \/ m = 2 \/ m = 3 \/ m = 4 \/ m = 5 \/ m = 6 \/
          m = 7 \/ m = 8 \/ m = 9 \/ m = 10 \/ m = 11 \/ m = 12) as Hc by lia.
  repeat (destruct Hc as [-> | Hc]; [simpl; by repeat case_match|]).
  subst m. simpl. by repeat case_match.
Qed.

Lemma month_length_le (y m : Z) : month_length y m <= 31.
Proof. unfold month_length. repeat case_match; lia. Qed.

Lemma century_pivot (yy : Z) : century yy = pivot_year yy.
Proof. unfold century, pivot_year. case_match; lia. Qed.

Lemma pivot_year_bounds (yy : Z) :
  0 <= yy <= 99 -> 1969 <= pivot_year yy <= 2068.
Proof. unfold pivot_year. intros H. destruct (Z.leb_spec yy 68); lia. Qed.

Lemma real_ddmmyy_six (c1 c2 c3 c4 c5 c6 : ascii) :
  real_ddmmyy_date (six c1 c2 c3 c4 c5 c6) =
  (1 <=? two_digits c3 c4) && (two_digits c3 c4 <=? 12) &&
  (1 <=? two_digits c1 c2) &&
  (two_digits c1 c2 <=?
   month_length (pivot_year (two_digits c5 c6)) (two_digits c3 c4)).
Proof. reflexivity. Qed.

Lemma validate_six (c1 c2 c3 c4 c5 c6 : ascii) :
  is_digit c1 = true -> is_digit c2 = true -> is_digit c3 = true ->
  is_digit c4 = true -> is_digit c5 = true -> is_digit c6 = true ->
  validate_date_suffix (six c1 c2 c3 c4 c5 c6) =
  Ok (real_ddmmyy_date (six c1 c2 c3 c4 c5 c6)).
Proof.
  intros H1 H2 H3 H4 H5 H6.
  unfold validate_date_suffix. simpl negb. cbv iota.
  rewrite strptime_six, day_month_calendar, real_ddmmyy_six by done.
  unfold day_month_spec. cbv zeta.
  pose proof (two_digits_bounds c5 c6 H5 H6) as Hyy.
  pose proof (pivot_year_bounds _ Hyy) as Hy.
  rewrite century_pivot.
  set (dd := two_digits c1 c2). set (mm := two_digits c3 c4).
  set (y := pivot_year (two_digits c5 c6)) in *.
  pose proof (month_length_le y mm) as Hml.
  destruct (Z.leb_spec 1 mm), (Z.leb_spec mm 12), (Z.leb_spec 1 dd);
    simpl; rewrite ?andb_false_r; simpl; try done.
  destruct (Z.leb_spec dd 31); simpl.
  - unfold datetime_date. rewrite days_in_month_length by lia.
    destruct (Z.leb_spec 1 y), (Z.leb_spec y 9999); try lia.
    destruct (Z.leb_spec 1 mm), (Z.leb_spec mm 12); try lia.
    destruct (Z.leb_spec 1 dd); try lia. simpl.
    by destruct (Z.leb_spec dd (month_length y mm)).
  - destruct (Z.leb_spec dd (month_length y mm)); [lia | done].
Qed.

(** C3. On every string of six decimal digits [validate_date_suffix]
    returns true exactly when the string is a real DDMMYY date: month in
    1..12, day at least 1 and at most the length of that month in that
    year, the two-digit year read by the fixed rule 00-68 = 20xx, 69-99 =
    19xx.  On a string of another length, and whenever parsing fails, it
    returns false; it never raises.  So 010199 is accepted and 320199,
    301399 and 000199 are rejected. *)
Theorem validate_date_suffix_calendar :
  (forall s, String.length s = 6%nat -> all_digits s = true ->
     validate_date_suffix s = Ok (real_ddmmyy_date s)) /\
  (forall s, String.length s = 6%nat -> all_digits s = true ->
     (validate_date_suffix s = Ok true <-> real_ddmmyy_date s = true)) /\
  (forall s, String.length s <> 6%nat -> validate_date_suffix s = Ok false) /\
  (forall s e, strptime s = Raise e -> validate_date_suffix s = Ok false) /\
  (forall s, exists b, validate_date_suffix s = Ok b) /\
  validate_date_suffix "010199" = Ok true /\
  validate_date_suffix "320199" = Ok false /\
  validate_date_suffix "301399" = Ok false /\
  validate_date_suffix "000199" = Ok false.
Proof.
  assert (Hmain : forall s, String.length s = 6%nat -> all_digits s = true ->
            validate_date_suffix s = Ok (real_ddmmyy_date s)).
  { intros s Hlen Hdig.
    destruct (six_of_length s Hlen) as (c1 & c2 & c3 & c4 & c5 & c6 & ->).
    apply all_digits_six in Hdig as (H1 & H2 & H3 & H4 & H5 & H6).
    by apply validate_six. }
  split; [exact Hmain|]. split.
  { intros s Hlen Hdig. rewrite (Hmain s Hlen Hdig).
    split; [by intros [= ->] | by intros ->]. }
  split; [exact validate_date_suffix_length|]. split.
  { intros s e He. unfold validate_date_suffix.
    destruct (negb _); [done|]. rewrite He.
    by rewrite (strptime_raises s e He). }
  split; [exact validate_date_suffix_total|].
  repeat split; reflexivity.
Qed.

Lemma leap_day_check :
  for_all_digits (fun y1 => for_all_digits (fun y2 =>
    match validate_date_suffix (six "2" "9" "0" "2" y1 y2) with
    | Ok b => Bool.eqb b (leap_year (pivot_year (two_digits y1 y2)))
    | Raise _ => false
    end)) = true.
Proof. vm_compute. reflexivity. Qed.

(** C10. [validate_date_suffix] returns a boolean on every string and never
    raises.  A two-digit year is resolved by the pivot of [strptime]: 00-68
    is 2000-2068 and 69-99 is 1969-1999.  So whether 29 February is
    accepted depends on the century chosen: 290200 is accepted (2000 is a
    leap year) and 290299 is rejected (1999 is not). *)
Theorem validate_date_suffix_total_pivot :
  (forall s, exists b, validate_date_suffix s = Ok b) /\
  (forall s dt, strptime s = Ok dt ->
     exists pre y1 y2,
       list_ascii_of_string s = pre ++ [y1; y2] /\
       is_digit y1 = true /\ is_digit y2 = true /\
       0 <= two_digits y1 y2 <= 99 /\
       (two_digits y1 y2 <= 68 -> year dt = 2000 + two_digits y1 y2) /\
       (69 <= two_digits y1 y2 -> year dt = 1900 + two_digits y1 y2)) /\
  (forall y1 y2, is_digit y1 = true -> is_digit y2 = true ->
     validate_date_suffix (six "2" "9" "0" "2" y1 y2) =
     Ok (leap_year (pivot_year (two_digits y1 y2)))) /\
  validate_date_suffix "290200" = Ok true /\
  validate_date_suffix "290299" = Ok false.
Proof.
  split; [exact validate_date_suffix_total|]. split.
  { intros s dt Hs.
    destruct (strptime_year s dt Hs) as (pre & y1 & y2 & Hpre & H1 & H2 & Hy).
    exists pre, y1, y2.
    pose proof (two_digits_bounds y1 y2 H1 H2) as Hb.
    unfold century in Hy.
    split; [done|]. split; [done|]. split; [done|]. split; [lia|].
    destruct (Z.leb_spec (two_digits y1 y2) 68); split; intros; lia. }
  split.
  { intros y1 y2 H1 H2.
    pose proof (for_all_digits_sound _ y1 leap_day_check H1) as Hc.
    cbv beta in Hc.
    pose proof (for_all_digits_sound _ y2 Hc H2) as Hc2.
    cbv beta in Hc2.
    destruct (validate_date_suffix _) as [b|]; [|discriminate].
    apply Bool.eqb_prop in Hc2. by rewrite Hc2. }
  split; reflexivity.
Qed.

(** ** A probe that raises *)

Lemma matches_quiet (decrypt : string -> probe_result) (pw : string) :
  matches (quiet decrypt) pw = matches decrypt pw.
Proof. unfold matches, quiet. by destruct (decrypt pw). Qed.

Lemma test_loop_quiet (decrypt : string -> probe_result) (pws : list string) :
  test_loop decrypt pws = test_loop (quiet decrypt) pws.
Proof.
  induction pws as [|pw pws IH]; simpl; [done|].
  unfold quiet at 1. destruct (decrypt pw) as [code|]; simpl.
  - by rewrite IH.
  - by rewrite IH.
Qed.

(** C6. When the probe raises for a candidate, the worker counts it as
    tried and goes on with the next candidate of its range: the exception
    neither ends the loop nor leaves it.  The outcome of the whole loop is
    the one of a probe answering "no match" wherever this one raises, a
    range on which every probe raises is tried to its end, and in a run
    the worker stands at the head of its loop after such a probe, with
    nothing put on the queue. *)
Theorem probe_error_continues :
  (forall decrypt password rest,
     decrypt password = Raises ->
     test_loop decrypt (password :: rest) =
     (password :: fst (test_loop decrypt rest), snd (test_loop decrypt rest))) /\
  (forall decrypt pws, test_loop decrypt pws = test_loop (quiet decrypt) pws) /\
  (forall decrypt pws,
     (forall pw, In pw pws -> decrypt pw = Raises) ->
     test_loop decrypt pws = (pws, None)) /\
  (forall doc fixed_part is_prefix i s password it,
     procs s !! i = Some (WProbe password it) ->
     pdf_decrypt doc password = Raises ->
     step_worker doc fixed_part is_prefix i s =
       Some (set_proc i (WNext it) (emit (EvProbe i password) s))).
Proof.
  split; [|split; [|split]].
  - intros decrypt password rest H. simpl. rewrite H.
    by destruct (test_loop decrypt rest).
  - exact test_loop_quiet.
  - intros decrypt pws H. apply test_loop_no_match.
    apply Forall_forall. intros pw Hin. unfold matches.
    rewrite H; [done|]. by apply list_elem_of_In.
  - intros doc fixed_part is_prefix i s password it Hi Hraise.
    unfold step_worker. by rewrite Hi, Hraise.
Qed.

(** ** The main block *)

Lemma truthy_Some (o : option string) :
  truthy o = true -> exists s, o = Some s /\ s <> "".
Proof.
  destruct o as [s|]; [|done]. simpl.
  destruct (String.eqb_spec s ""); [done|]. eauto.
Qed.

(** C8, as stated, fails: an option given as the empty string is supplied
    but counts as absent.  With [--prefix ""] and [--suffix 010199] both
    options are supplied and the prefix has length 0, yet the run starts,
    with the suffix as the fixed part. *)
Lemma empty_prefix_is_accepted :
  supplied (args_prefix (mkargs "doc.pdf" (Some "") (Some "010199") 4)) = true /\
  supplied (args_suffix (mkargs "doc.pdf" (Some "") (Some "010199") 4)) = true /\
  len (args_prefix (mkargs "doc.pdf" (Some "") (Some "010199") 4)) <> 5%nat /\
  check_args (mkargs "doc.pdf" (Some "") (Some "010199") 4) =
    Ok (Accepted "010199" false) /\
  exists s, main (mkpdf (fun _ => true) (fun _ => Returns 0))
              (mkargs "doc.pdf" (Some "") (Some "010199") 4) =
            Ok (Running "010199" false s).
Proof.
  split; [reflexivity|]. split; [reflexivity|]. split; [by simpl|].
  split; [reflexivity|]. eexists. reflexivity.
Qed.

Lemma validate_true_length (s : string) :
  validate_date_suffix s = Ok true -> String.length s = 6%nat.
Proof.
  intros H. destruct (Nat.eq_dec (String.length s) 6%nat) as [|Hne]; [done|].
  rewrite validate_date_suffix_length in H by done. discriminate.
Qed.

Section CheckArgs.

Variable a : args.

Lemma check_args_both :
  truthy (args_prefix a) = true -> truthy (args_suffix a) = true ->
  check_args a =
  Ok (UsageError "Specify either --prefix or --suffix, not both." 1).
Proof. intros Hp Hs. unfold check_args. by rewrite Hp, Hs. Qed.

Lemma check_args_neither :
  truthy (args_prefix a) = false -> truthy (args_suffix a) = false ->
  check_args a =
  Ok (UsageError "You must specify either --prefix or --suffix." 1).
Proof. intros Hp Hs. unfold check_args. by rewrite Hp, Hs. Qed.

Lemma check_args_prefix_length :
  truthy (args_prefix a) = true -> truthy (args_suffix a) = false ->
  len (args_prefix a) <> 5%nat ->
  check_args a = Ok (UsageError "Prefix must be exactly 5 digits." 1).
Proof.
  intros Hp Hs Hlen. unfold check_args. rewrite Hp, Hs. simpl.
  by destruct (Nat.eqb_spec (len (args_prefix a)) 5).
Qed.

Lemma check_args_prefix :
  truthy (args_prefix a) = true -> truthy (args_suffix a) = false ->
  len (args_prefix a) = 5%nat ->
  check_args a = Ok (Accepted (default "" (args_prefix a)) true).
Proof.
  intros Hp Hs Hlen. unfold check_args. rewrite Hp, Hs, Hlen. reflexivity.
Qed.

Lemma check_args_suffix_rejected :
  truthy (args_prefix a) = false -> truthy (args_suffix a) = true ->
  validate_date_suffix (default "" (args_suffix a)) <> Ok true ->
  check_args a =
  Ok (UsageError "Suffix must be a valid 6-digit date in the format DDMMYY." 1).
Proof.
  intros Hp Hs Hv. unfold check_args. rewrite Hp, Hs. simpl.
  destruct (negb _); [done|].
  destruct (validate_date_suffix_total (default "" (args_suffix a))) as [b Hb].
  rewrite Hb in *. by destruct b.
Qed.

Lemma check_args_suffix :
  truthy (args_prefix a) = false -> truthy (args_suffix a) = true ->
  validate_date_suffix (default "" (args_suffix a)) = Ok true ->
  check_args a = Ok (Accepted (default "" (args_suffix a)) false).
Proof.
  intros Hp Hs Hv. unfold check_args. rewrite Hp, Hs. simpl.
  apply truthy_Some in Hs as (sfx & Hsfx & _). rewrite Hsfx in *. simpl in *.
  rewrite (validate_true_length sfx Hv). simpl. by rewrite Hv.
Qed.

End CheckArgs.

Lemma main_exits (a : args) (message : string) :
  check_args a = Ok (UsageError message 1) ->
  exists message,
    check_args a = Ok (UsageError message 1) /\ 1 <> 0 /\
    forall doc, main doc a = Ok (Exited message 1).
Proof.
  intros H. exists message. split; [done|]. split; [lia|].
  intros doc. unfold main. by rewrite H.
Qed.

(** C8, amended.  Count an option as given when its text is not empty.  If
    both options are given, or neither, or the prefix is given with a
    length other than 5, or the suffix is given and [validate_date_suffix]
    does not accept it, the main block reports a usage error and exits
    with status 1, and no run is started.  Otherwise exactly one of them is
    the fixed part of the run: the prefix, of length 5, or the suffix, of
    length 6 and accepted by [validate_date_suffix]. *)
Theorem check_args_usage (a : args) :
  let given_prefix := truthy (args_prefix a) in
  let given_suffix := truthy (args_suffix a) in
  let misuse :=
    (given_prefix = true /\ given_suffix = true) \/
    (given_prefix = false /\ given_suffix = false) \/
    (given_prefix = true /\ len (args_prefix a) <> 5%nat) \/
    (given_suffix = true /\
     validate_date_suffix (default "" (args_suffix a)) <> Ok true) in
  (misuse ->
   exists message,
     check_args a = Ok (UsageError message 1) /\ 1 <> 0 /\
     forall doc, main doc a = Ok (Exited message 1)) /\
  (~ misuse ->
   exists fixed_part,
     (check_args a = Ok (Accepted fixed_part true) /\
      args_prefix a = Some fixed_part /\ String.length fixed_part = 5%nat /\
      given_suffix = false) \/
     (check_args a = Ok (Accepted fixed_part false) /\
      args_suffix a = Some fixed_part /\ String.length fixed_part = 6%nat /\
      validate_date_suffix fixed_part = Ok true /\ given_prefix = false)).
Proof.
  cbv zeta.
  destruct (truthy (args_prefix a)) eqn:Hp, (truthy (args_suffix a)) eqn:Hs.
  - (* both given *)
    split; [|intros Hno; exfalso; apply Hno; auto].
    intros _. eapply main_exits. by apply check_args_both.
  - (* the prefix alone *)
    destruct (Nat.eq_dec (len (args_prefix a)) 5%nat) as [H5|H5].
    + split.
      * intros [[_ ?] | [[? _] | [[_ ?] | [? _]]]]; done.
      * intros _. pose proof (check_args_prefix a Hp Hs H5) as Hc.
        apply truthy_Some in Hp as (p & Hp & _). rewrite Hp in *.
        exists p. left. auto.
    + split; [|intros Hno; exfalso; apply Hno; auto].
      intros _. eapply main_exits. by apply check_args_prefix_length.
  - (* the suffix alone *)
    destruct (validate_date_suffix_total (default "" (args_suffix a)))
      as [[] Hv].
    + split.
      * intros [[? _] | [[_ ?] | [[? _] | [_ ?]]]]; done.
      * intros _. pose proof (check_args_suffix a Hp Hs Hv) as Hc.
        apply truthy_Some in Hs as (sfx & Hsfx & _). rewrite Hsfx in *.
        simpl in *. exists sfx. right.
        split; [done|]. split; [done|].
        split; [by apply validate_true_length | done].
    + assert (Hne : validate_date_suffix (default "" (args_suffix a)) <> Ok true)
        by (by rewrite Hv).
      split; [|intros Hno; exfalso; apply Hno; auto].
      intros _. eapply main_exits. by apply check_args_suffix_rejected.
  - (* neither *)
    split; [|intros Hno; exfalso; apply Hno; auto].
    intros _. eapply main_exits. by apply check_args_neither.
Qed.

(** ** The candidates are digits when the fixed part is *)

Lemma candidate_length (fixed_part : string) (is_prefix : bool) (idx : Z) :
  (String.length fixed_part <= 11)%nat ->
  String.length (candidate fixed_part is_prefix idx) = 11%nat.
Proof.
  intros H. unfold candidate, zeropad. destruct is_prefix;
    rewrite string_length_app, string_length_of_list, zeropad_digits_length; lia.
Qed.

Lemma candidate_all_digits (fixed_part : string) (is_prefix : bool) (idx : Z) :
  all_digits (candidate fixed_part is_prefix idx) = all_digits fixed_part.
Proof.
  unfold candidate. destruct is_prefix; rewrite all_digits_app;
    unfold zeropad, all_digits at 1 2;
    rewrite list_ascii_of_string_of_list_ascii, zeropad_digits_all_digits;
    [apply andb_true_r | apply andb_true_l].
Qed.

(** C9 at the prefix [abcde]: the main block accepts it, its length being
    5, although its own message asks for 5 digits, and the first password
    the worker tries is [abcde000000], eleven characters of which five are
    no digits.  The suffix check lets a blank through as well: [strptime]
    reads [ 10199], with a blank for the first digit of the day, as 1
    January 1999. *)
Theorem prefix_of_letters_is_probed :
  check_args (mkargs "doc.pdf" (Some "abcde") None 4) =
    Ok (Accepted "abcde" true) /\
  test_password_range true (fun _ => Returns 0) "abcde" true 0 1 =
    Returned ["abcde000000"] None /\
  String.length "abcde000000" = 11%nat /\
  all_digits "abcde000000" = false /\
  check_args (mkargs "doc.pdf" None (Some " 10199") 4) =
    Ok (Accepted " 10199" false) /\
  all_digits " 10199" = false.
Proof.
  split; [reflexivity|]. split.
  { unfold test_password_range.
    rewrite passwords_of_range by (vm_compute; discriminate).
    reflexivity. }
  repeat split; reflexivity.
Qed.

(** ** Runs: histories and counting *)

Lemma probes_of_app (i : nat) (h l : list event) :
  probes_of i (h ++ l) = probes_of i h ++ probes_of i l.
Proof. unfold probes_of. apply flat_map_app. Qed.

Lemma probe_count_app (h l : list event) :
  probe_count (h ++ l) = probe_count h + probe_count l.
Proof.
  induction h as [|e h IH]; simpl; [done|].
  destruct e; rewrite IH; lia.
Qed.

Lemma c_int_small (z : Z) : 0 <= z < 2 ^ 31 -> c_int z = z.
Proof.
  intros Hz. unfold c_int.
  rewrite Z.mod_small; [lia|].
  change (2 ^ 31) with 2147483648 in *. change (2 ^ 32) with 4294967296. lia.
Qed.

Lemma in_flight_bounds (w : wstate) : 0 <= in_flight w <= 1.
Proof. destruct w; simpl; lia. Qed.

Lemma attempts_from_nonneg (h : list event) (i : nat) (ws : list wstate) :
  0 <= attempts_from h i ws.
Proof.
  revert i. induction ws as [|w ws IH]; intros i; simpl; [lia|].
  pose proof (IH (S i)). pose proof (in_flight_bounds w). lia.
Qed.

Lemma attempts_from_ext (h h' : list event) (i : nat) (ws : list wstate) :
  (forall j, probes_of j h' = probes_of j h) ->
  attempts_from h' i ws = attempts_from h i ws.
Proof.
  intros Hext. revert i. induction ws as [|w ws IH]; intros i; simpl; [done|].
  by rewrite Hext, IH.
Qed.

(** Replacing the state of one worker, whose probes alone may have grown,
    changes the count by the change of its share. *)
Lemma attempts_from_update (h h' : list event) (i0 k : nat)
    (ws : list wstate) (w w' : wstate) :
  ws !! k = Some w ->
  (forall j, j <> (i0 + k)%nat -> probes_of j h' = probes_of j h) ->
  attempts_from h' i0 (<[k:=w']> ws) =
  attempts_from h i0 ws
  + (Z.of_nat (length (probes_of (i0 + k) h')) + in_flight w')
  - (Z.of_nat (length (probes_of (i0 + k) h)) + in_flight w).
Proof.
  revert i0 k. induction ws as [|x ws IH]; intros i0 k Hk Hext; [done|].
  destruct k as [|k]; simpl in *.
  - injection Hk as ->. rewrite Nat.add_0_r.
    assert (Hrest : forall i ws, (i0 < i)%nat ->
              attempts_from h' i ws = attempts_from h i ws).
    { clear -Hext. intros i ws. revert i.
      induction ws as [|y ws IH]; intros i Hi; simpl; [done|].
      rewrite Hext by lia. rewrite IH by lia. done. }
    rewrite Hrest by lia. lia.
  - rewrite (IH (S i0) k Hk).
    + rewrite Hext by lia. replace (S i0 + k)%nat with (i0 + S k)%nat by lia. lia.
    + intros j Hj. apply Hext. lia.
Qed.

Lemma attempts_from_le (h : list event) (i0 : nat) (ws : list wstate)
    (rs : list (Z * Z)) :
  length ws = length rs ->
  (forall k w r, ws !! k = Some w -> rs !! k = Some r ->
     Z.of_nat (length (probes_of (i0 + k) h)) + in_flight w <= snd r - fst r) ->
  attempts_from h i0 ws <= width_sum rs.
Proof.
  revert i0 rs. induction ws as [|w ws IH]; intros i0 rs Hlen Hle;
    destruct rs as [|r rs]; simpl in *; try lia.
  pose proof (Hle 0%nat w r eq_refl eq_refl) as H0.
  rewrite Nat.add_0_r in H0.
  assert (attempts_from h (S i0) ws <= width_sum rs).
  { apply IH; [lia|]. intros k w' r' Hw Hr.
    replace (S i0 + k)%nat with (i0 + S k)%nat by lia.
    by apply (Hle (S k)). }
  lia.
Qed.

(** The count of the workers is the number of probes in the history plus
    the probes counted and not made yet. *)
Lemma attempts_from_nil (i : nat) (ws : list wstate) :
  attempts_from [] i ws = in_flight_count ws.
Proof.
  revert i. induction ws as [|w ws IH]; intros i; simpl; [done|].
  rewrite IH. lia.
Qed.

Lemma attempts_from_cons (e : event) (h : list event) (i0 : nat)
    (ws : list wstate) :
  attempts_from (e :: h) i0 ws =
  attempts_from h i0 ws +
  match e with
  | EvProbe j _ =>
      if (i0 <=? j)%nat && (j <? i0 + length ws)%nat then 1 else 0
  | _ => 0
  end.
Proof.
  revert i0. induction ws as [|w ws IH]; intros i0.
  - simpl. destruct e as [j ?| | | |]; try lia.
    destruct (Nat.leb_spec i0 j), (Nat.ltb_spec j (i0 + 0)); simpl; lia.
  - cbn [attempts_from]. rewrite IH.
    destruct e as [j pw| | | |]; simpl probes_of; try lia.
    cbn [length].
    destruct (Nat.eqb_spec j i0) as [->|Hne]; simpl length.
    + destruct (Nat.leb_spec (S i0) i0); [lia|].
      destruct (Nat.leb_spec i0 i0); [|lia].
      destruct (Nat.ltb_spec i0 (i0 + S (length ws))); [|lia].
      simpl. lia.
    + destruct (Nat.leb_spec (S i0) j), (Nat.leb_spec i0 j),
        (Nat.ltb_spec j (S i0 + length ws)),
        (Nat.ltb_spec j (i0 + S (length ws))); simpl; lia.
Qed.

Lemma attempts_from_count (h : list event) (ws : list wstate) :
  Forall (probe_in_bounds (length ws)) h ->
  attempts_from h 0 ws = probe_count h + in_flight_count ws.
Proof.
  induction 1 as [|e h He _ IH].
  - rewrite attempts_from_nil. simpl. lia.
  - rewrite attempts_from_cons, IH. destruct e as [j pw| | | |]; simpl; try lia.
    simpl in He. destruct (Nat.ltb_spec j (length ws)); simpl; lia.
Qed.

Lemma in_flight_count_stopped (ws : list wstate) :
  Forall (fun w => terminated w = true) ws -> in_flight_count ws = 0.
Proof.
  induction 1 as [|w ws Hw _ IH]; simpl; [done|].
  rewrite IH. by destruct w.
Qed.

(** ** Runs: the invariant *)

Lemma test_loop_tried_le (decrypt : string -> probe_result) (pws : list string) :
  (length (fst (test_loop decrypt pws)) <= length pws)%nat.
Proof.
  induction pws as [|pw pws IH]; simpl; [done|].
  destruct (decrypt pw) as [code|].
  - destruct (code =? 1); simpl; [lia|].
    destruct (test_loop decrypt pws); simpl in *; lia.
  - destruct (test_loop decrypt pws); simpl in *; lia.
Qed.

(** Tactics for the side conditions of a step of a worker. *)
Ltac hist_tac := simpl; rewrite ?app_nil_r, <- ?app_assoc; reflexivity.
Ltac evs_tac :=
  let j := fresh "j" in let Hj := fresh "Hj" in
  intros j Hj; simpl;
  repeat match goal with
         | |- context [Nat.eqb ?a ?b] => destruct (Nat.eqb_spec a b)
         end; simpl; first [congruence | done].
Ltac bounds_tac := repeat constructor; simpl; first [done | lia].
Ltac lock_tac := let a := fresh "a" in intros a _; simpl; reflexivity.
Ltac total_tac := let H := fresh in simpl; intros H; by destruct H.
Ltac sum_tac := simpl; rewrite ?Nat.eqb_refl; simpl; lia.

Section RunProofs.

Variable doc : pdf.
Variable fixed_part : string.
Variable is_prefix : bool.
Variable ranges : list (Z * Z).
Hypothesis ranges_wf : forall i r, ranges !! i = Some r -> 0 <= fst r <= snd r.
Hypothesis ranges_small : width_sum ranges < 2 ^ 31.

Local Abbreviation winv := (worker_inv doc fixed_part is_prefix).
Local Abbreviation inv := (run_inv doc fixed_part is_prefix ranges).
Local Abbreviation pws := (passwords fixed_part is_prefix).

Lemma passwords_length_le (r : Z * Z) :
  0 <= fst r <= snd r -> Z.of_nat (length (pws r)) <= snd r - fst r.
Proof.
  intros Hr. unfold passwords, combinations, islice.
  rewrite length_map, length_take. lia.
Qed.

Lemma worker_inv_frame (i : nat) (r : Z * Z) (h h' : list event)
    (lk lk' : option actor) (total total' : Z) (w : wstate) :
  winv i r h lk total w ->
  probes_of i h' = probes_of i h ->
  (lk' = Some (Worker i) <-> lk = Some (Worker i)) ->
  (lk = Some (Worker i) -> total' = total) ->
  winv i r h' lk' total' w.
Proof.
  intros Hw Hp Hlk Ht. unfold worker_inv in *. rewrite Hp.
  destruct w; intuition (subst; auto).
Qed.

Lemma worker_inv_bound (i : nat) (r : Z * Z) (h : list event)
    (lk : option actor) (total : Z) (w : wstate) :
  winv i r h lk total w -> 0 <= fst r <= snd r ->
  Z.of_nat (length (probes_of i h)) + in_flight w <= snd r - fst r.
Proof.
  intros Hw Hr. pose proof (passwords_length_le r Hr) as Hlen.
  unfold worker_inv in Hw.
  destruct w; simpl in *;
    repeat match goal with H : _ /\ _ |- _ => destruct H end;
    try match goal with
        | H : _ ++ _ = pws r |- _ =>
            apply (f_equal length) in H; rewrite length_app in H; simpl in H
        end;
    try match goal with
        | H : probes_of i h = [] |- _ => rewrite H; simpl
        end;
    try lia.
  pose proof (test_loop_tried_le (pdf_decrypt doc) (pws r)).
  match goal with H : probes_of i h = _ |- _ => rewrite H end. lia.
Qed.

Lemma worker_inv_room (i : nat) (r : Z * Z) (h : list event)
    (lk : option actor) (total v : Z) (pw : string) (it : list (list ascii)) :
  winv i r h lk total (WStore v pw it) -> 0 <= fst r <= snd r ->
  Z.of_nat (length (probes_of i h)) + 1 <= snd r - fst r.
Proof.
  intros (Hw & _) Hr. pose proof (passwords_length_le r Hr) as Hlen.
  apply (f_equal length) in Hw. rewrite length_app in Hw. simpl in Hw. lia.
Qed.

Lemma inv_range (s : sys) (i : nat) (w : wstate) :
  inv s -> procs s !! i = Some w ->
  exists r, ranges !! i = Some r /\
            winv i r (history s) (lock s) (total_attempts s) w.
Proof.
  intros (Hlen & Hw & _) Hi.
  destruct (ranges !! i) as [r|] eqn:Hr.
  - exists r. split; [done|]. by apply Hw.
  - apply lookup_ge_None in Hr. apply lookup_lt_Some in Hi. lia.
Qed.

(** A step of worker [i] that changes nothing of the others. *)
Lemma run_inv_worker (s s' : sys) (i : nat) (w w' : wstate) (evs : list event) :
  inv s -> procs s !! i = Some w ->
  procs s' = <[i:=w']> (procs s) ->
  mon s' = mon s ->
  history s' = history s ++ evs ->
  (forall j, j <> i -> probes_of j evs = []) ->
  Forall (probe_in_bounds (length (procs s))) evs ->
  (forall a, a <> Worker i -> (lock s' = Some a <-> lock s = Some a)) ->
  (total_attempts s' <> total_attempts s -> lock s = Some (Worker i)) ->
  total_attempts s' =
    total_attempts s + (Z.of_nat (length (probes_of i evs)) + in_flight w')
    - in_flight w ->
  (forall r, ranges !! i = Some r ->
     winv i r (history s) (lock s) (total_attempts s) w ->
     winv i r (history s') (lock s') (total_attempts s') w') ->
  inv s'.
Proof.
  intros Hinv Hi Hprocs Hmon Hhist Hevs Hbounds Hlock Htot Hsum Hself.
  pose proof Hinv as (Hlen & Hw & Hmp & Hco & Hcount & Hb).
  pose proof (lookup_lt_Some _ _ _ Hi) as Hlt.
  unfold run_inv. rewrite Hprocs, Hhist, length_insert.
  split; [done|]. split; [|split; [|split; [|split]]].
  - intros j wj r Hj Hr. rewrite <- Hhist.
    destruct (decide (j = i)) as [->|Hne].
    + rewrite list_lookup_insert_eq in Hj by done. injection Hj as <-.
      apply Hself; [done|]. by apply Hw.
    + rewrite list_lookup_insert_ne in Hj by done.
      eapply worker_inv_frame; [by apply Hw| | |].
      * by rewrite Hhist, probes_of_app, Hevs, app_nil_r.
      * apply Hlock. congruence.
      * intros Hj_lock.
        destruct (decide (total_attempts s' = total_attempts s)) as [|Hd];
          [done|]. apply Htot in Hd. congruence.
  - rewrite Hmon. intros Hm. apply Hlock; [done | by apply Hmp].
  - intros Hc. apply Hco. by apply Hlock.
  - rewrite (attempts_from_update (history s) _ 0 i _ w w' Hi).
    + simpl. rewrite probes_of_app, length_app. lia.
    + intros j Hj. simpl in Hj. by rewrite probes_of_app, Hevs, app_nil_r.
  - apply Forall_app. split; done.
Qed.

(** A step of the monitor or of the coordinator. *)
Lemma run_inv_other (s s' : sys) (evs : list event) :
  inv s ->
  procs s' = procs s ->
  total_attempts s' = total_attempts s ->
  history s' = history s ++ evs ->
  (forall j, probes_of j evs = []) ->
  Forall (probe_in_bounds (length (procs s))) evs ->
  (forall j, lock s' = Some (Worker j) <-> lock s = Some (Worker j)) ->
  (mon s' = MPrint -> lock s' = Some Monitor) ->
  lock s' <> Some Coordinator ->
  inv s'.
Proof.
  intros (Hlen & Hw & Hmp & Hco & Hcount & Hb)
         Hprocs Htot Hhist Hevs Hbounds Hlock Hmon Hc.
  unfold run_inv. rewrite Hprocs, Hhist, Htot.
  split; [done|]. split; [|split; [|split; [|split]]].
  - intros j wj r Hj Hr. rewrite <- Hhist.
    eapply worker_inv_frame; [by apply Hw| | |].
    + by rewrite Hhist, probes_of_app, Hevs, app_nil_r.
    + apply Hlock.
    + done.
  - exact Hmon.
  - exact Hc.
  - rewrite Hcount. symmetry. apply attempts_from_ext.
    intros j. by rewrite probes_of_app, Hevs, app_nil_r.
  - apply Forall_app. split; done.
Qed.

(** Storing the incremented count does not overflow the C [int]. *)
Lemma store_no_wrap (s : sys) (i : nat) (v : Z) (pw : string)
    (it : list (list ascii)) :
  inv s -> procs s !! i = Some (WStore v pw it) ->
  v = total_attempts s /\ c_int (v + 1) = total_attempts s + 1.
Proof.
  intros Hinv Hi.
  destruct (inv_range s i _ Hinv Hi) as (r & Hr & Hwi).
  pose proof Hinv as (Hlen & Hw & _ & _ & Hcount & _).
  assert (Hv : v = total_attempts s) by apply Hwi.
  split; [done|]. subst v.
  assert (Hnext : attempts_from (history s) 0 (<[i:=WRelease pw it]> (procs s))
                  = total_attempts s + 1).
  { rewrite (attempts_from_update (history s) (history s) 0 i _ _ _ Hi) by done.
    simpl. lia. }
  assert (total_attempts s + 1 <= width_sum ranges).
  { rewrite <- Hnext. apply attempts_from_le.
    - by rewrite length_insert.
    - intros k w r' Hk Hr'. simpl.
      destruct (decide (k = i)) as [->|Hne].
      + rewrite list_lookup_insert_eq in Hk by (by eapply lookup_lt_Some).
        injection Hk as <-. simpl. rewrite Hr in Hr'. injection Hr' as <-.
        eapply worker_inv_room; eauto.
      + rewrite list_lookup_insert_ne in Hk by done.
        eapply worker_inv_bound; eauto. }
  apply c_int_small.
  pose proof (attempts_from_nonneg (history s) 0 (procs s)). lia.
Qed.

Ltac worker_step s i evs Hinv Hi :=
  eapply (run_inv_worker s _ i _ _ evs);
  [exact Hinv | exact Hi | reflexivity | reflexivity | | | | | | |].

Lemma matches_Returns (pw : string) (code : Z) :
  pdf_decrypt doc pw = Returns code ->
  matches (pdf_decrypt doc) pw = (code =? 1).
Proof. intros H. unfold matches. by rewrite H. Qed.

Lemma matches_Raises (pw : string) :
  pdf_decrypt doc pw = Raises -> matches (pdf_decrypt doc) pw = false.
Proof. intros H. unfold matches. by rewrite H. Qed.

Lemma no_match_snoc (tried : list string) (pw : string) :
  no_match doc tried -> matches (pdf_decrypt doc) pw = false ->
  no_match doc (tried ++ [pw]).
Proof.
  intros Ht Hpw. apply Forall_app. split; [done|]. by constructor.
Qed.

Lemma step_worker_inv (s s' : sys) (i : nat) :
  inv s -> step_worker doc fixed_part is_prefix i s = Some s' -> inv s'.
Proof.
  intros Hinv Hstep. unfold step_worker in Hstep.
  destruct (procs s !! i) as [w|] eqn:Hi; [|done].
  pose proof (lookup_lt_Some _ _ _ Hi) as Hlt.
  destruct (inv_range s i w Hinv Hi) as (r0 & Hr0 & Hwi).
  destruct w as [start stop|it|pw it|pw it|v pw it|pw it|pw it| |].
  - (* open *)
    destruct (pdf_opens doc i) eqn:Hopen; injection Hstep as <-.
    + worker_step s i (@nil event) Hinv Hi;
        [hist_tac | evs_tac | bounds_tac | lock_tac | total_tac | sum_tac |].
      intros r Hr (Heq & Hp & Hlk). simpl. rewrite Hp. subst r. simpl.
      split; [done|]. split; [constructor | done].
    + worker_step s i [EvDied i] Hinv Hi;
        [hist_tac | evs_tac | bounds_tac | lock_tac | total_tac | sum_tac |].
      intros r Hr (Heq & Hp & Hlk). simpl. rewrite probes_of_app, Hp. done.
  - (* the head of the loop *)
    destruct it as [|combination it]; injection Hstep as <-.
    + worker_step s i [EvPut i None] Hinv Hi;
        [hist_tac | evs_tac | bounds_tac | lock_tac | total_tac | sum_tac |].
      intros r Hr (Hp & Hno & Hlk). simpl. rewrite probes_of_app. simpl.
      rewrite !app_nil_r in *. split; [|done].
      rewrite <- Hp. by rewrite test_loop_no_match.
    + worker_step s i (@nil event) Hinv Hi;
        [hist_tac | evs_tac | bounds_tac | lock_tac | total_tac | sum_tac |].
      intros r Hr (Hp & Hno & Hlk). simpl. done.
  - (* acquire *)
    destruct (lock s) as [holder|] eqn:Hlock; [done|]. injection Hstep as <-.
    worker_step s i (@nil event) Hinv Hi;
      [hist_tac | evs_tac | bounds_tac | | total_tac | sum_tac |].
    + intros a Ha. simpl. rewrite Hlock. split; congruence.
    + intros r Hr (Hp & Hno & Hlk). simpl. done.
  - (* load *)
    injection Hstep as <-.
    worker_step s i (@nil event) Hinv Hi;
      [hist_tac | evs_tac | bounds_tac | lock_tac | total_tac | sum_tac |].
    intros r Hr (Hp & Hno & Hlk). simpl. done.
  - (* store *)
    injection Hstep as <-.
    destruct (store_no_wrap s i v pw it Hinv Hi) as [Hv Hc].
    worker_step s i (@nil event) Hinv Hi;
      [hist_tac | evs_tac | bounds_tac | lock_tac | | |].
    + intros _. apply Hwi.
    + simpl. lia.
    + intros r Hr (Hp & Hno & Hlk & _). simpl. done.
  - (* release *)
    injection Hstep as <-.
    assert (Hlock : lock s = Some (Worker i)) by apply Hwi.
    worker_step s i (@nil event) Hinv Hi;
      [hist_tac | evs_tac | bounds_tac | | total_tac | sum_tac |].
    + intros a Ha. simpl. rewrite Hlock. split; congruence.
    + intros r Hr (Hp & Hno & Hlk). simpl. done.
  - (* probe *)
    destruct (pdf_decrypt doc pw) as [code|] eqn:Hd.
    + destruct (code =? 1) eqn:Hcode; injection Hstep as <-.
      * worker_step s i [EvProbe i pw; EvPut i (Some pw)] Hinv Hi;
          [hist_tac | evs_tac | bounds_tac | lock_tac | total_tac | sum_tac |].
        intros r Hr (Hp & Hno & Hlk). simpl. rewrite !probes_of_app. simpl.
        rewrite Nat.eqb_refl. simpl. rewrite app_nil_r. split; [|done].
        rewrite <- Hp. rewrite test_loop_first_match; [done|done|].
        by rewrite (matches_Returns _ _ Hd).
      * worker_step s i [EvProbe i pw] Hinv Hi;
          [hist_tac | evs_tac | bounds_tac | lock_tac | total_tac | sum_tac |].
        intros r Hr (Hp & Hno & Hlk). simpl. rewrite probes_of_app. simpl.
        rewrite Nat.eqb_refl. simpl. rewrite <- app_assoc. simpl.
        split; [done|]. split; [|done]. apply no_match_snoc; [done|].
        by rewrite (matches_Returns _ _ Hd).
    + injection Hstep as <-.
      worker_step s i [EvProbe i pw] Hinv Hi;
        [hist_tac | evs_tac | bounds_tac | lock_tac | total_tac | sum_tac |].
      intros r Hr (Hp & Hno & Hlk). simpl. rewrite probes_of_app. simpl.
      rewrite Nat.eqb_refl. simpl. rewrite <- app_assoc. simpl.
      split; [done|]. split; [|done]. apply no_match_snoc; [done|].
      by apply matches_Raises.
  - done.
  - done.
Qed.

Lemma step_monitor_inv (s s' : sys) :
  inv s -> step_monitor s = Some s' -> inv s'.
Proof.
  intros Hinv Hstep. pose proof Hinv as (_ & _ & Hmp & Hco & _).
  unfold step_monitor in Hstep.
  destruct (mon s) eqn:Hm.
  - injection Hstep as <-.
    eapply (run_inv_other s _ []); eauto; simpl; try done.
    + by rewrite app_nil_r.
    + by destruct (stop_flag s).
  - injection Hstep as <-.
    eapply (run_inv_other s _ []); eauto; simpl; try done.
    by rewrite app_nil_r.
  - destruct (lock s) eqn:Hlock; [done|]. injection Hstep as <-.
    eapply (run_inv_other s _ []); eauto; simpl; try done.
    + by rewrite app_nil_r.
    + intros j. rewrite Hlock. split; congruence.
  - injection Hstep as <-. specialize (Hmp eq_refl).
    eapply (run_inv_other s _ [EvProgress (total_attempts s)]);
      eauto; simpl; try done.
    + by repeat constructor.
    + intros j. rewrite Hmp. split; congruence.
  - done.
Qed.

Lemma step_coordinator_inv (s s' : sys) :
  inv s -> step_coordinator s = Some s' -> inv s'.
Proof.
  intros Hinv Hstep. pose proof Hinv as (_ & _ & Hmp & Hco & _).
  unfold step_coordinator in Hstep.
  destruct (coord s) as [k f|k f|f|f|f].
  - destruct (procs s !! k) as [w|];
      [destruct (terminated w); [|done]|]; injection Hstep as <-;
      (eapply (run_inv_other s _ []); eauto; simpl; try done;
       by rewrite app_nil_r).
  - destruct (queue s) as [|result q];
      [|destruct (truthy result)]; injection Hstep as <-;
      (eapply (run_inv_other s _ []); eauto; simpl; try done;
       by rewrite app_nil_r).
  - injection Hstep as <-.
    eapply (run_inv_other s _ []); eauto; simpl; try done.
    by rewrite app_nil_r.
  - destruct (mon s) eqn:Hm; try done. injection Hstep as <-.
    eapply (run_inv_other s _ [EvReport f]); eauto; simpl; try done.
    + by repeat constructor.
    + by rewrite Hm.
  - done.
Qed.

Lemma step_inv (a : actor) (s s' : sys) :
  inv s -> step doc fixed_part is_prefix a s = Some s' -> inv s'.
Proof.
  destruct a; simpl;
    eauto using step_coordinator_inv, step_monitor_inv, step_worker_inv.
Qed.

Lemma exec_inv (schedule : list actor) (s s' : sys) :
  inv s -> exec doc fixed_part is_prefix schedule s = Some s' -> inv s'.
Proof.
  revert s. induction schedule as [|a schedule IH]; intros s Hinv; simpl.
  - by intros [= <-].
  - destruct (step doc fixed_part is_prefix a s) as [s1|] eqn:Hstep; [|done].
    intros Hexec. eapply IH; [|done]. by eapply step_inv.
Qed.

End RunProofs.

(** ** Runs of parallel_brute_force *)

Lemma width_sum_app (l1 l2 : list (Z * Z)) :
  width_sum (l1 ++ l2) = width_sum l1 + width_sum l2.
Proof. induction l1 as [|r l1 IH]; simpl; lia. Qed.

Lemma width_sum_const (g : Z -> Z * Z) (c : Z) (l : list Z) :
  Forall (fun i => snd (g i) - fst (g i) = c) l ->
  width_sum (map g l) = c * Z.of_nat (length l).
Proof.
  induction 1 as [|i l Hi _ IH]; simpl; [lia|]. rewrite IH, Hi. lia.
Qed.

(** The ranges of the splitting loop hold [total] candidates in all. *)
Lemma width_sum_split (total n : Z) :
  1 <= n -> width_sum (split_ranges total n) = total.
Proof.
  intros Hn. rewrite split_ranges_map.
  assert (Hseq : seqZ 0 n = seqZ 0 (n - 1) ++ [n - 1]).
  { transitivity (seqZ 0 ((n - 1) + 1)); [f_equal; lia|].
    rewrite seqZ_split by lia. f_equal. }
  rewrite Hseq, map_app, width_sum_app.
  rewrite (width_sum_const _ (total / n)).
  - rewrite length_seqZ, Z2Nat.id by lia.
    cbn [map width_sum fst snd]. rewrite Z.ltb_irrefl. nia.
  - apply Forall_forall. intros i Hi. apply elem_of_seqZ in Hi.
    rewrite (proj2 (Z.ltb_lt _ _)) by lia. simpl. lia.
Qed.

Lemma split_ranges_nil (total n : Z) : n < 1 -> split_ranges total n = [].
Proof.
  intros Hn. rewrite split_ranges_map.
  assert (Hl : length (seqZ 0 n) = 0%nat) by (rewrite length_seqZ; lia).
  by destruct (seqZ 0 n).
Qed.

Lemma split_ranges_wf (total n : Z) (i : nat) (r : Z * Z) :
  0 <= total ->
  split_ranges total n !! i = Some r -> 0 <= fst r <= snd r /\ snd r <= total.
Proof.
  intros Ht Hr. apply split_ranges_lookup_Some in Hr as [Hi ->].
  destruct (chunk_bounds total n Ht ltac:(lia)) as [Hc Hle].
  simpl. destruct (Z.ltb_spec (Z.of_nat i) (n - 1)); nia.
Qed.

Lemma width_sum_split_le (total n : Z) :
  0 <= total -> width_sum (split_ranges total n) <= total.
Proof.
  intros Ht. destruct (Z_lt_le_dec n 1).
  - by rewrite split_ranges_nil.
  - by rewrite width_sum_split.
Qed.

Lemma in_flight_count_open (rs : list (Z * Z)) :
  in_flight_count (map (fun r => WOpen (fst r) (snd r)) rs) = 0.
Proof. induction rs as [|r rs IH]; simpl; [done|]. by rewrite IH. Qed.

Lemma parallel_brute_force_inv (doc : pdf) (fixed_part : string)
    (is_prefix : bool) (num_processes : Z) (s0 : sys) :
  parallel_brute_force fixed_part num_processes = Ok s0 ->
  run_inv doc fixed_part is_prefix
    (split_ranges (total_combinations fixed_part) num_processes) s0.
Proof.
  unfold parallel_brute_force. destruct (num_processes =? 0); [done|].
  intros [= <-]. unfold run_inv. simpl.
  split; [by rewrite length_map|]. split; [|split; [done|split; [done|split]]].
  - intros i w r Hw Hr. change (map ?f ?l) with (f <$> l) in Hw.
    rewrite list_lookup_fmap, Hr in Hw. injection Hw as <-.
    simpl. by destruct r.
  - by rewrite attempts_from_nil, in_flight_count_open.
  - constructor.
Qed.

Lemma total_combinations_bounds (fixed_part : string) :
  (String.length fixed_part = 5 \/ String.length fixed_part = 6)%nat ->
  0 <= total_combinations fixed_part < 2 ^ 31.
Proof.
  intros H. destruct (total_combinations_5_6 fixed_part H) as [-> | ->];
    change (2 ^ 31) with 2147483648; lia.
Qed.

(** Every state a run reaches satisfies the invariant. *)
Lemma reachable_inv (doc : pdf) (fixed_part : string) (is_prefix : bool)
    (num_processes : Z) (schedule : list actor) (s0 s : sys) :
  (String.length fixed_part = 5 \/ String.length fixed_part = 6)%nat ->
  parallel_brute_force fixed_part num_processes = Ok s0 ->
  exec doc fixed_part is_prefix schedule s0 = Some s ->
  run_inv doc fixed_part is_prefix
    (split_ranges (total_combinations fixed_part) num_processes) s.
Proof.
  intros Hlen Hinit Hexec.
  pose proof (total_combinations_bounds fixed_part Hlen) as [Hpos Hsmall].
  eapply exec_inv; [| |by eapply parallel_brute_force_inv|exact Hexec].
  - intros i r Hr. by apply (split_ranges_wf _ _ _ _ Hpos) in Hr as [? _].
  - pose proof (width_sum_split_le (total_combinations fixed_part)
                  num_processes Hpos). lia.
Qed.

Lemma attempts_from_eq (h : list event) (i0 : nat) (ws : list wstate)
    (rs : list (Z * Z)) :
  length ws = length rs ->
  (forall k w r, ws !! k = Some w -> rs !! k = Some r ->
     Z.of_nat (length (probes_of (i0 + k) h)) + in_flight w = snd r - fst r) ->
  attempts_from h i0 ws = width_sum rs.
Proof.
  revert i0 rs. induction ws as [|w ws IH]; intros i0 rs Hlen Heq;
    destruct rs as [|r rs]; simpl in *; try lia.
  pose proof (Heq 0%nat w r eq_refl eq_refl) as H0.
  rewrite Nat.add_0_r in H0.
  rewrite (IH (S i0) rs); [lia|lia|].
  intros k w' r' Hw Hr.
  replace (S i0 + k)%nat with (i0 + S k)%nat by lia.
  by apply (Heq (S k)).
Qed.

Lemma passwords_length (fixed_part : string) (is_prefix : bool) (r : Z * Z) :
  0 <= fst r <= snd r ->
  snd r <= 10 ^ Z.of_nat (11 - String.length fixed_part) ->
  Z.of_nat (length (passwords fixed_part is_prefix r)) = snd r - fst r.
Proof.
  intros Hr Hs. unfold passwords. rewrite passwords_of_range by lia.
  rewrite length_map, length_seqZ. lia.
Qed.

(** C7. The shared counter is incremented once for every probe and no
    increment is lost, whatever the interleaving: at every point of a run
    it equals the number of probes made plus the number of workers that
    have counted a probe and are about to make it.  Once all workers have
    stopped it is the number of probes made, and after a run in which
    every worker opened the document and no candidate matched it is
    10^(11 - fixed_len), for every number of workers from 1 on. *)
Theorem total_attempts_exact (doc : pdf) (fixed_part : string)
    (is_prefix : bool) (num_processes : Z) (schedule : list actor)
    (s0 s : sys) :
  (String.length fixed_part = 5 \/ String.length fixed_part = 6)%nat ->
  parallel_brute_force fixed_part num_processes = Ok s0 ->
  exec doc fixed_part is_prefix schedule s0 = Some s ->
  total_attempts s = probe_count (history s) + in_flight_count (procs s) /\
  (Forall (fun w => terminated w = true) (procs s) ->
   total_attempts s = probe_count (history s)) /\
  (Forall (fun w => terminated w = true) (procs s) ->
   1 <= num_processes ->
   (forall i, pdf_opens doc i = true) ->
   (forall pw, matches (pdf_decrypt doc) pw = false) ->
   total_attempts s = 10 ^ (11 - Z.of_nat (String.length fixed_part))).
Proof.
  intros Hlen Hinit Hexec.
  pose proof (reachable_inv doc fixed_part is_prefix num_processes
                schedule s0 s Hlen Hinit Hexec)
    as (Hl & Hw & _ & _ & Hcount & Hb).
  pose proof (total_combinations_bounds fixed_part Hlen) as [Hpos _].
  assert (Hgen : total_attempts s =
                 probe_count (history s) + in_flight_count (procs s)).
  { rewrite Hcount. by apply attempts_from_count. }
  split; [done|]. split.
  { intros Hstop. rewrite Hgen, in_flight_count_stopped by done. lia. }
  intros Hstop Hn Hopen Hno.
  change (10 ^ (11 - Z.of_nat (String.length fixed_part)))
    with (total_combinations fixed_part).
  rewrite <- (width_sum_split (total_combinations fixed_part) num_processes Hn).
  rewrite Hcount. apply attempts_from_eq; [done|].
  intros k w r Hk Hr. simpl.
  pose proof (Hw k w r Hk Hr) as Hwk.
  apply (split_ranges_wf _ _ _ _ Hpos) in Hr as [Hr1 Hr2].
  rewrite Forall_forall in Hstop.
  assert (Hterm : terminated w = true).
  { apply Hstop. apply list_elem_of_lookup. eauto. }
  destruct w; try discriminate Hterm; simpl in Hwk.
  - destruct Hwk as [Htried _]. rewrite Htried.
    rewrite test_loop_no_match by (apply Forall_forall; intros; apply Hno).
    simpl. rewrite passwords_length; [lia|done|].
    by rewrite variable_length.
  - destruct Hwk as (_ & Hfalse & _). rewrite Hopen in Hfalse. done.
Qed.

Lemma total_attempts_exact_witness :
  (String.length "010199" = 5 \/ String.length "010199" = 6)%nat /\
  exists s0 s,
    parallel_brute_force "010199" 1 = Ok s0 /\
    exec doc_first "010199" false (Worker 0 :: one_probe 0) s0 = Some s /\
    history s = [EvProbe 0 "00000010199"; EvPut 0 (Some "00000010199")] /\
    total_attempts s = probe_count (history s) + in_flight_count (procs s).
Proof.
  split; [right; reflexivity|].
  destruct (parallel_brute_force "010199" 1) as [s0|e] eqn:Hinit;
    [|by vm_compute in Hinit].
  destruct (exec doc_first "010199" false (Worker 0 :: one_probe 0) s0)
    as [s|] eqn:Hexec.
  - exists s0, s. split; [reflexivity|]. split; [exact Hexec|]. split.
    + vm_compute in Hinit. injection Hinit as <-.
      vm_compute in Hexec. by injection Hexec as <-.
    + exact (proj1 (total_attempts_exact doc_first "010199" false 1
                      (Worker 0 :: one_probe 0) s0 s
                      ltac:(right; reflexivity) Hinit Hexec)).
  - vm_compute in Hinit. injection Hinit as <-. by vm_compute in Hexec.
Defined.

(** ** After a password is found *)

Lemma step_worker_shape (doc : pdf) (fixed_part : string) (is_prefix : bool)
    (i : nat) (s s' : sys) :
  step_worker doc fixed_part is_prefix i s = Some s' ->
  exists w w',
    procs s !! i = Some w /\ terminated w = false /\
    procs s' = <[i:=w']> (procs s) /\ coord s' = coord s /\
    mon s' = mon s /\ stop_flag s' = stop_flag s.
Proof.
  unfold step_worker. intros H.
  destruct (procs s !! i) as [w|] eqn:Hi; [|done].
  exists w.
  destruct w as [start stop|[|c it]|pw it|pw it|v pw it|pw it|pw it| |];
    try done;
    repeat match type of H with
           | context [if ?b then _ else _] => destruct b eqn:?
           | context [match ?x with _ => _ end] => destruct x eqn:?
           end;
    try done; injection H as <-; eexists; simpl; split_and!; done.
Qed.

Lemma step_monitor_shape (s s' : sys) :
  step_monitor s = Some s' ->
  procs s' = procs s /\ coord s' = coord s /\ queue s' = queue s /\
  stop_flag s' = stop_flag s.
Proof.
  unfold step_monitor. intros H.
  destruct (mon s); try done;
    repeat match type of H with
           | context [match ?x with _ => _ end] => destruct x eqn:?
           end;
    try done; injection H as <-; simpl; done.
Qed.

Lemma step_coordinator_procs (s s' : sys) :
  step_coordinator s = Some s' ->
  procs s' = procs s /\ lock s' = lock s /\ mon s' = mon s.
Proof.
  unfold step_coordinator. intros H.
  destruct (coord s); try done;
    repeat match type of H with
           | context [if ?b then _ else _] => destruct b eqn:?
           | context [match ?x with _ => _ end] => destruct x eqn:?
           end;
    try done; injection H as <-; simpl; done.
Qed.

Lemma step_joined (doc : pdf) (fixed_part : string) (is_prefix : bool)
    (a : actor) (s s' : sys) :
  joined s -> step doc fixed_part is_prefix a s = Some s' -> joined s'.
Proof.
  intros Hj Hstep. destruct a as [| |i]; simpl in Hstep.
  - (* the coordinator *)
    pose proof (step_coordinator_procs s s' Hstep) as (Hp & _).
    unfold joined in *. rewrite Hp.
    unfold step_coordinator in Hstep.
    destruct (coord s) as [k f|k f|f|f|f] eqn:Hc.
    + destruct (procs s !! k) as [w|] eqn:Hk.
      * destruct (terminated w) eqn:Hw; [|done]. injection Hstep as <-. simpl.
        intros j wj Hlt Hjw.
        destruct (decide (j = k)) as [->|]; [congruence|].
        apply (Hj j); [lia|done].
      * injection Hstep as <-. simpl. apply lookup_ge_None in Hk.
        intros j wj Hlt Hjw. apply (Hj j); [lia|done].
    + destruct (queue s) as [|result q]; [|destruct (truthy result)];
        injection Hstep as <-; simpl; done.
    + injection Hstep as <-. simpl. done.
    + destruct (mon s); try done. injection Hstep as <-. simpl. done.
    + done.
  - (* the monitor *)
    apply step_monitor_shape in Hstep as (Hp & Hc & _).
    unfold joined in *. by rewrite Hp, Hc.
  - (* a worker *)
    apply step_worker_shape in Hstep
      as (w & w' & Hi & Hw & Hp & Hc & _).
    unfold joined in *. rewrite Hp, Hc, length_insert.
    assert (Hkeep : forall k,
              (forall j wj, (j < k)%nat -> procs s !! j = Some wj ->
                            terminated wj = true) ->
              forall j wj, (j < k)%nat -> <[i:=w']> (procs s) !! j = Some wj ->
                           terminated wj = true).
    { intros k Hk j wj Hlt Hjw.
      destruct (decide (j = i)) as [->|Hne].
      - rewrite (Hk i w Hlt Hi) in Hw. done.
      - rewrite list_lookup_insert_ne in Hjw by done. by apply (Hk j). }
    destruct (coord s); by apply Hkeep.
Qed.

Lemma exec_joined (doc : pdf) (fixed_part : string) (is_prefix : bool)
    (schedule : list actor) (s s' : sys) :
  joined s -> exec doc fixed_part is_prefix schedule s = Some s' -> joined s'.
Proof.
  revert s. induction schedule as [|a schedule IH]; intros s Hj; simpl.
  - by intros [= <-].
  - destruct (step doc fixed_part is_prefix a s) as [s1|] eqn:Hstep; [|done].
    intros Hexec. eapply IH; [|done]. by eapply step_joined.
Qed.

Lemma parallel_brute_force_joined (fixed_part : string) (n : Z) (s0 : sys) :
  parallel_brute_force fixed_part n = Ok s0 -> joined s0.
Proof.
  unfold parallel_brute_force. destruct (n =? 0); [done|].
  intros [= <-]. unfold joined. simpl. intros j w Hj. lia.
Qed.

(** C4, as stated, fails: nothing signals the workers.  With two workers on
    the suffix 010199 and the password 00000010199, worker 0 finds the
    password at its first probe and puts it on the queue, and worker 1
    still starts a probe after that. *)
Lemma found_does_not_stop_others :
  history_of doc_first "010199" false 2
    (Worker 0 :: one_probe 0 ++ Worker 1 :: one_probe 1) =
  Some [EvProbe 0 "00000010199"; EvPut 0 (Some "00000010199");
        EvProbe 1 "50000010199"] /\
  probe_after_found []
    [EvProbe 0 "00000010199"; EvPut 0 (Some "00000010199");
     EvProbe 1 "50000010199"] = true.
Proof. split; vm_compute; reflexivity. Qed.

(** C4, amended.  The workers are not signaled when a password is found:
    a step of a worker reads neither the stop flag nor the queue, and a
    worker that has not returned can always go on when the lock is free.
    In every run a worker that has returned has probed the passwords of
    its own range in order up to its own first match, or all of them when
    none matches, whatever the other workers found; and the coordinator
    stops the monitor and reports only after every worker has
    terminated. *)
Theorem workers_run_to_their_own_end (doc : pdf) (fixed_part : string)
    (is_prefix : bool) (num_processes : Z) (schedule : list actor)
    (s0 s : sys) :
  (String.length fixed_part = 5 \/ String.length fixed_part = 6)%nat ->
  parallel_brute_force fixed_part num_processes = Ok s0 ->
  exec doc fixed_part is_prefix schedule s0 = Some s ->
  (forall i r,
     procs s !! i = Some WReturned ->
     split_ranges (total_combinations fixed_part) num_processes !! i = Some r ->
     probes_of i (history s) =
     fst (test_loop (pdf_decrypt doc) (passwords fixed_part is_prefix r))) /\
  (forall i b q,
     (fun s' => (procs s', lock s', total_attempts s', history s')) <$>
       step_worker doc fixed_part is_prefix i (set_queue q (set_stop b s)) =
     (fun s' => (procs s', lock s', total_attempts s', history s')) <$>
       step_worker doc fixed_part is_prefix i s) /\
  (forall i w,
     procs s !! i = Some w -> terminated w = false -> lock s = None ->
     is_Some (step_worker doc fixed_part is_prefix i s)) /\
  (forall found,
     coord s = CStop found \/ coord s = CJoinMonitor found \/
     coord s = CDone found ->
     Forall (fun w => terminated w = true) (procs s)).
Proof.
  intros Hlen Hinit Hexec.
  pose proof (reachable_inv doc fixed_part is_prefix num_processes
                schedule s0 s Hlen Hinit Hexec) as (_ & Hw & _).
  split; [|split; [|split]].
  - intros i r Hi Hr. by destruct (Hw i WReturned r Hi Hr).
  - intros i b q. unfold step_worker. simpl.
    destruct (procs s !! i) as [w|]; [|done].
    destruct w as [start stop|[|c it]|pw it|pw it|v pw it|pw it|pw it| |];
      try done.
    + by destruct (pdf_opens doc i).
    + by destruct (lock s).
    + destruct (pdf_decrypt doc pw) as [code|]; [|done].
      by destruct (code =? 1).
  - intros i w Hi Hterm Hlock. unfold step_worker. rewrite Hi, Hlock.
    destruct w as [start stop|[|c it]|pw it|pw it|v pw it|pw it|pw it| |];
      try done.
    + by destruct (pdf_opens doc i).
    + destruct (pdf_decrypt doc pw) as [code|]; [|done].
      by destruct (code =? 1).
  - intros found Hc.
    pose proof (exec_joined doc fixed_part is_prefix schedule s0 s
                  (parallel_brute_force_joined _ _ _ Hinit) Hexec) as Hj.
    unfold joined in Hj. apply Forall_forall. intros w Hin.
    apply list_elem_of_lookup in Hin as [j Hjw].
    pose proof (lookup_lt_Some _ _ _ Hjw) as Hlt.
    destruct Hc as [Hc | [Hc | Hc]]; rewrite Hc in Hj; by apply (Hj j).
Qed.

Lemma workers_run_to_their_own_end_witness :
  (String.length "010199" = 5 \/ String.length "010199" = 6)%nat /\
  exists s0 s,
    parallel_brute_force "010199" 2 = Ok s0 /\
    exec doc_first "010199" false (Worker 0 :: one_probe 0) s0 = Some s /\
    procs s = [WReturned; WOpen 50000 100000] /\
    forall r,
      split_ranges (total_combinations "010199") 2 !! 0%nat = Some r ->
      probes_of 0 (history s) =
      fst (test_loop (pdf_decrypt doc_first) (passwords "010199" false r)).
Proof.
  split; [right; reflexivity|].
  destruct (parallel_brute_force "010199" 2) as [s0|e] eqn:Hinit;
    [|by vm_compute in Hinit].
  destruct (exec doc_first "010199" false (Worker 0 :: one_probe 0) s0)
    as [s|] eqn:Hexec.
  - exists s0, s. split; [reflexivity|]. split; [exact Hexec|].
    assert (Hprocs : procs s = [WReturned; WOpen 50000 100000]).
    { vm_compute in Hinit. injection Hinit as <-.
      vm_compute in Hexec. by injection Hexec as <-. }
    split; [exact Hprocs|]. intros r Hr.
    apply (proj1 (workers_run_to_their_own_end doc_first "010199" false 2
                    (Worker 0 :: one_probe 0) s0 s
                    ltac:(right; reflexivity) Hinit Hexec) 0%nat r);
      [by rewrite Hprocs | exact Hr].
  - vm_compute in Hinit. injection Hinit as <-. by vm_compute in Hexec.
Defined.

(** ** A document that cannot be opened *)

Ltac fail_tac :=
  simpl; repeat split; simpl; intros; try done; try lia;
  try (intuition congruence).

Section Unreadable.

Variable doc : pdf.
Variable fixed_part : string.
Variable is_prefix : bool.
Hypothesis never_opens : forall i, pdf_opens doc i = false.

Local Abbreviation run_step := (step doc fixed_part is_prefix).
Local Abbreviation run_exec := (exec doc fixed_part is_prefix).

Lemma unopened_insert (ws : list wstate) (i : nat) (w : wstate) :
  Forall unopened ws -> unopened w -> Forall unopened (<[i:=w]> ws).
Proof.
  intros Hws Hw. apply Forall_forall. intros x Hx.
  apply list_elem_of_lookup in Hx as [j Hj].
  destruct (decide (i = j)) as [->|Hne].
  - destruct (decide (j < length ws)%nat).
    + rewrite list_lookup_insert_eq in Hj by done. congruence.
    + rewrite list_insert_ge in Hj by lia.
      rewrite Forall_forall in Hws. apply Hws.
      apply list_elem_of_lookup. eauto.
  - rewrite list_lookup_insert_ne in Hj by done.
    rewrite Forall_forall in Hws. apply Hws.
    apply list_elem_of_lookup. eauto.
Qed.

Lemma step_worker_unopened (i : nat) (s s' : sys) :
  Forall unopened (procs s) ->
  step_worker doc fixed_part is_prefix i s = Some s' ->
  exists start stop,
    procs s !! i = Some (WOpen start stop) /\
    s' = emit (EvDied i) (set_proc i WDied s).
Proof.
  intros Hun Hstep. unfold step_worker in Hstep.
  destruct (procs s !! i) as [w|] eqn:Hi; [|done].
  assert (Hw : unopened w).
  { rewrite Forall_forall in Hun. apply Hun.
    apply list_elem_of_lookup. eauto. }
  destruct w; try done.
  rewrite never_opens in Hstep. injection Hstep as <-. eauto.
Qed.

Lemma step_fail_inv (a : actor) (s s' : sys) :
  fail_inv s -> run_step a s = Some s' -> fail_inv s'.
Proof.
  intros (Hun & Hq & Hf & Hlk & Hmp & Hstop & Hret & Hdrain) Hstep.
  destruct a as [| |i]; simpl in Hstep.
  - (* the coordinator *)
    unfold step_coordinator in Hstep. unfold fail_inv.
    destruct (coord s) as [k f|k f|f|f|f] eqn:Hc; simpl in *.
    + destruct (procs s !! k) as [w|] eqn:Hk.
      * destruct (terminated w); [|done]. injection Hstep as <-.
        apply lookup_lt_Some in Hk. fail_tac.
      * injection Hstep as <-. fail_tac.
    + rewrite Hq in Hstep. injection Hstep as <-. fail_tac.
    + injection Hstep as <-. fail_tac.
    + destruct (mon s) eqn:Hm; try done. injection Hstep as <-. fail_tac.
    + done.
  - (* the monitor *)
    unfold step_monitor in Hstep. unfold fail_inv.
    destruct (mon s) eqn:Hm.
    + injection Hstep as <-. destruct (stop_flag s) eqn:Hflag; fail_tac.
    + injection Hstep as <-. fail_tac.
    + destruct (lock s) eqn:Hl; [done|]. injection Hstep as <-. fail_tac.
    + injection Hstep as <-. fail_tac.
    + done.
  - (* a worker *)
    destruct (step_worker_unopened i s s' Hun Hstep) as (a & b & Hi & ->).
    unfold fail_inv. simpl. rewrite length_insert.
    split_and!; try done. by apply unopened_insert.
Qed.

Lemma exec_fail_inv (schedule : list actor) (s s' : sys) :
  fail_inv s -> run_exec schedule s = Some s' -> fail_inv s'.
Proof.
  revert s. induction schedule as [|a schedule IH]; intros s Hinv; simpl.
  - by intros [= <-].
  - destruct (run_step a s) as [s1|] eqn:Hstep; [|done].
    intros Hexec. eapply IH; [|done]. by eapply step_fail_inv.
Qed.

(** The process [next_actor] picks can move, and its step brings the run
    closer to the report. *)
Lemma fail_progress (s : sys) :
  fail_inv s -> (forall f, coord s <> CDone f) ->
  exists s', run_step (next_actor s) s = Some s' /\ (rank s' < rank s)%nat.
Proof.
  intros (Hun & Hq & Hf & Hlk & Hmp & Hstop & Hret & Hdrain) Hnot.
  unfold next_actor, rank.
  destruct (coord s) as [k f|k f|f|f|f] eqn:Hc; simpl in *.
  - destruct (procs s !! k) as [w|] eqn:Hk.
    + assert (Hw : unopened w).
      { rewrite Forall_forall in Hun. apply Hun.
        apply list_elem_of_lookup. eauto. }
      pose proof (lookup_lt_Some _ _ _ Hk) as Hlt.
      destruct w; try done; simpl.
      * unfold step_worker. rewrite Hk, never_opens.
        eexists. split; [done|]. simpl. rewrite Hc, length_insert.
        rewrite list_lookup_insert_eq by done. lia.
      * unfold step_coordinator. rewrite Hc, Hk. simpl.
        eexists. split; [done|]. simpl. lia.
    + simpl. unfold step_coordinator. rewrite Hc, Hk.
      eexists. split; [done|]. simpl. lia.
  - unfold step_coordinator. rewrite Hc, Hq.
    eexists. split; [done|]. simpl.
    destruct (procs s !! S k) as [[]|]; lia.
  - unfold step_coordinator. rewrite Hc.
    eexists. split; [done|]. simpl. destruct (mon s); simpl; lia.
  - assert (Hflag : stop_flag s = true) by (by apply Hstop).
    destruct (mon s) eqn:Hm; simpl.
    + unfold step_monitor. rewrite Hm, Hflag.
      eexists. split; [done|]. simpl. rewrite Hc. simpl. lia.
    + unfold step_monitor. rewrite Hm.
      eexists. split; [done|]. simpl. rewrite Hc. simpl. lia.
    + unfold step_monitor. rewrite Hm.
      destruct Hlk as [Hl|Hl]; [|apply Hmp in Hl; congruence].
      rewrite Hl. eexists. split; [done|]. simpl. rewrite Hc. simpl. lia.
    + unfold step_monitor. rewrite Hm.
      eexists. split; [done|]. simpl. rewrite Hc. simpl. lia.
    + unfold step_coordinator. rewrite Hc, Hm.
      eexists. split; [done|]. simpl. lia.
  - by destruct (Hnot f).
Qed.

Lemma exec_app (l1 l2 : list actor) (s : sys) :
  run_exec (l1 ++ l2) s =
  match run_exec l1 s with
  | Some s1 => run_exec l2 s1
  | None => None
  end.
Proof.
  revert s. induction l1 as [|a l1 IH]; intros s; simpl; [done|].
  destruct (run_step a s); [apply IH | done].
Qed.

(** From every state of such a run the report can be reached. *)
Lemma fail_completes (s : sys) :
  fail_inv s ->
  exists schedule s',
    run_exec schedule s = Some s' /\ coord s' = CDone None.
Proof.
  remember (rank s) as n eqn:Hn. revert s Hn.
  induction n as [n IH] using lt_wf_ind. intros s Hn Hinv.
  destruct (coord s) as [k f|k f|f|f|f] eqn:Hc.
  5: { exists [], s. split; [done|].
       destruct Hinv as (_ & _ & Hf & _). rewrite Hc in Hf. simpl in Hf.
       by rewrite Hc, Hf. }
  all: destruct (fail_progress s Hinv) as (s1 & Hstep & Hlt);
    [intros f'; rewrite Hc; done|];
    destruct (IH (rank s1) ltac:(lia) s1 eq_refl
                (step_fail_inv _ _ _ Hinv Hstep)) as (sched & s' & Hexec & Hdone);
    exists (next_actor s :: sched), s'; split; [|done];
    simpl; by rewrite Hstep.
Qed.

End Unreadable.

Lemma parallel_brute_force_fail_inv (fixed_part : string) (n : Z) (s0 : sys) :
  parallel_brute_force fixed_part n = Ok s0 -> fail_inv s0.
Proof.
  unfold parallel_brute_force. destruct (n =? 0); [done|].
  intros [= <-]. unfold fail_inv. simpl. split_and!; try done.
  - apply Forall_forall. intros w Hw.
    apply list_elem_of_In, in_map_iff in Hw as (r & <- & _). done.
  - by left.
Qed.

(** C5, as stated, fails: the run has no report for a document that cannot
    be opened.  With such a document and one worker, the worker dies
    without putting anything on the queue, the coordinator joins it, stops
    the monitor and prints "Password not found. Exhausted all
    combinations.". *)
Lemma unreadable_document_reports_exhausted :
  history_of doc_unreadable "12345" true 1
    [Worker 0; Coordinator; Coordinator; Coordinator; Coordinator;
     Monitor; Coordinator] =
  Some [EvDied 0; EvReport None] /\
  final_report None = NotFoundExhausted.
Proof. split; vm_compute; reflexivity. Qed.

(** C5, amended.  If no worker can open the document, every worker dies
    without putting anything on the queue, and the coordinator does not
    hang: its join returns for a worker that has died, from every state of
    the run the final report can be reached, and that report is the one of
    an exhausted search, "Password not found. Exhausted all
    combinations."; the run has no other report for this case. *)
Theorem unreadable_document_run (doc : pdf) (fixed_part : string)
    (is_prefix : bool) (num_processes : Z) (schedule : list actor)
    (s0 s : sys) :
  (forall i, pdf_opens doc i = false) ->
  parallel_brute_force fixed_part num_processes = Ok s0 ->
  exec doc fixed_part is_prefix schedule s0 = Some s ->
  (forall i w, procs s !! i = Some w ->
     w = WDied \/ exists start stop, w = WOpen start stop) /\
  queue s = [] /\
  (forall k found,
     coord s = CJoin k found -> procs s !! k = Some WDied ->
     step_coordinator s = Some (set_coord (CDrain k found) s)) /\
  (forall found,
     coord s = CDone found ->
     found = None /\ final_report found = NotFoundExhausted) /\
  (exists schedule' s',
     exec doc fixed_part is_prefix schedule' s = Some s' /\
     coord s' = CDone None /\
     final_report None = NotFoundExhausted).
Proof.
  intros Hfail Hinit Hexec.
  pose proof (exec_fail_inv doc fixed_part is_prefix Hfail schedule s0 s
                (parallel_brute_force_fail_inv _ _ _ Hinit) Hexec) as Hinv.
  pose proof Hinv as (Hun & Hq & Hf & _).
  split; [|split; [done|split; [|split]]].
  - intros i w Hi.
    assert (Hw : unopened w).
    { rewrite Forall_forall in Hun. apply Hun.
      apply list_elem_of_lookup. eauto. }
    destruct w; try done; eauto.
  - intros k found Hc Hk. unfold step_coordinator. by rewrite Hc, Hk.
  - intros found Hc. rewrite Hc in Hf. simpl in Hf. by subst found.
  - destruct (fail_completes doc fixed_part is_prefix Hfail s Hinv)
      as (sched & s' & Hrun & Hdone).
    exists sched, s'. done.
Qed.

Lemma unreadable_document_run_witness :
  (forall i, pdf_opens doc_unreadable i = false) /\
  exists s0 s,
    parallel_brute_force "12345" 1 = Ok s0 /\
    exec doc_unreadable "12345" true
      [Worker 0; Coordinator; Coordinator; Coordinator; Coordinator;
       Monitor; Coordinator] s0 = Some s /\
    coord s = CDone None /\
    queue s = [] /\
    final_report None = NotFoundExhausted.
Proof.
  split; [reflexivity|].
  destruct (parallel_brute_force "12345" 1) as [s0|e] eqn:Hinit;
    [|by vm_compute in Hinit].
  destruct (exec doc_unreadable "12345" true
              [Worker 0; Coordinator; Coordinator; Coordinator; Coordinator;
               Monitor; Coordinator] s0) as [s|] eqn:Hexec.
  - exists s0, s. split; [reflexivity|]. split; [exact Hexec|].
    pose proof (unreadable_document_run doc_unreadable "12345" true 1 _ s0 s
                  ltac:(reflexivity) Hinit Hexec)
      as (_ & Hq & _ & Hdone & _).
    assert (Hc : coord s = CDone None).
    { vm_compute in Hinit. injection Hinit as <-.
      vm_compute in Hexec. by injection Hexec as <-. }
    split; [exact Hc|]. split; [exact Hq|].
    exact (proj2 (Hdone None Hc)).
  - vm_compute in Hinit. injection Hinit as <-. by vm_compute in Hexec.
Defined.

(** ** The search space *)

Lemma digit_char_value (c : ascii) :
  is_digit c = true -> digit_char (digit_value c) = c.
Proof.
  destruct c as [[] [] [] [] [] [] [] []]; intros H;
    try discriminate H; reflexivity.
Qed.

Lemma digit_value_bounds (c : ascii) :
  is_digit c = true -> 0 <= digit_value c < 10.
Proof.
  unfold is_digit, digit_value. intros H.
  apply andb_true_iff in H as [? ?]. lia.
Qed.

Lemma decimal_value_bounds (ds : list ascii) :
  forallb is_digit ds = true ->
  0 <= decimal_value ds < 10 ^ Z.of_nat (length ds).
Proof.
  induction ds as [|c ds IH] using rev_ind; intros H.
  - by vm_compute.
  - rewrite forallb_app in H. apply andb_true_iff in H as [Hds Hc].
    simpl in Hc. rewrite andb_true_r in Hc.
    rewrite decimal_value_snoc, length_app. simpl.
    replace (Z.of_nat (length ds + 1)) with (Z.succ (Z.of_nat (length ds)))
      by lia.
    rewrite Z.pow_succ_r by lia.
    pose proof (digit_value_bounds c Hc). specialize (IH Hds). lia.
Qed.

Lemma zeropad_digits_decimal (ds : list ascii) :
  forallb is_digit ds = true ->
  zeropad_digits (length ds) (decimal_value ds) = ds.
Proof.
  induction ds as [|c ds IH] using rev_ind; intros H; [done|].
  rewrite forallb_app in H. apply andb_true_iff in H as [Hds Hc].
  simpl in Hc. rewrite andb_true_r in Hc.
  rewrite decimal_value_snoc, length_app. simpl.
  rewrite Nat.add_1_r. simpl.
  pose proof (digit_value_bounds c Hc) as Hb.
  replace ((10 * decimal_value ds + digit_value c) / 10)
    with (decimal_value ds) by (apply Z.div_unique with (digit_value c); lia).
  replace ((10 * decimal_value ds + digit_value c) mod 10)
    with (digit_value c) by (apply Z.mod_unique with (decimal_value ds); lia).
  by rewrite IH, digit_char_value.
Qed.

Lemma variable_count (fixed_part : string) :
  (String.length fixed_part <= 11)%nat ->
  10 ^ Z.of_nat (11 - String.length fixed_part) = total_combinations fixed_part.
Proof.
  intros H. unfold total_combinations. f_equal. lia.
Qed.

Lemma total_combinations_pos (fixed_part : string) :
  0 < total_combinations fixed_part \/ total_combinations fixed_part = 0.
Proof.
  unfold total_combinations.
  destruct (Z.le_gt_cases 0 (11 - Z.of_nat (String.length fixed_part))).
  - left. by apply Z.pow_pos_nonneg.
  - right. by apply Z.pow_neg_r.
Qed.

Lemma append_inj_prefix (s a b : string) : s +:+ a = s +:+ b -> a = b.
Proof. induction s as [|c s IH]; simpl; [done|]. intros [= H]. auto. Qed.

Lemma list_ascii_inj (a b : string) :
  list_ascii_of_string a = list_ascii_of_string b -> a = b.
Proof.
  intros H. rewrite <- (string_of_list_ascii_of_string a),
    <- (string_of_list_ascii_of_string b). by rewrite H.
Qed.

Lemma append_inj_suffix (s a b : string) : a +:+ s = b +:+ s -> a = b.
Proof.
  intros H. apply list_ascii_inj.
  apply (f_equal list_ascii_of_string) in H.
  rewrite !list_ascii_app in H. by apply app_inv_tail in H.
Qed.

Lemma zeropad_inj (k : nat) (i j : Z) :
  0 <= i < 10 ^ Z.of_nat k -> 0 <= j < 10 ^ Z.of_nat k ->
  zeropad i k = zeropad j k -> i = j.
Proof.
  intros Hi Hj H.
  destruct (zeropad_spec k i Hi) as (_ & _ & <-).
  destruct (zeropad_spec k j Hj) as (_ & _ & <-).
  by rewrite H.
Qed.

Lemma candidate_inj (fixed_part : string) (is_prefix : bool) (i j : Z) :
  0 <= i < 10 ^ Z.of_nat (11 - String.length fixed_part) ->
  0 <= j < 10 ^ Z.of_nat (11 - String.length fixed_part) ->
  candidate fixed_part is_prefix i = candidate fixed_part is_prefix j -> i = j.
Proof.
  intros Hi Hj. unfold candidate. cbv zeta. destruct is_prefix; intros H.
  - apply append_inj_prefix in H. by eapply zeropad_inj.
  - apply append_inj_suffix in H. by eapply zeropad_inj.
Qed.

Lemma passwords_seqZ (fixed_part : string) (is_prefix : bool) (r : Z * Z) :
  0 <= fst r -> snd r <= 10 ^ Z.of_nat (11 - String.length fixed_part) ->
  passwords fixed_part is_prefix r =
  map (candidate fixed_part is_prefix) (seqZ (fst r) (snd r - fst r)).
Proof. intros. unfold passwords. by apply passwords_of_range. Qed.

Lemma passwords_all (fixed_part : string) (is_prefix : bool) :
  (String.length fixed_part <= 11)%nat ->
  passwords fixed_part is_prefix (0, total_combinations fixed_part) =
  map (candidate fixed_part is_prefix) (seqZ 0 (total_combinations fixed_part)).
Proof.
  intros H. rewrite passwords_seqZ; simpl; [|done|by rewrite variable_count].
  by rewrite Z.sub_0_r.
Qed.

Lemma passwords_all_NoDup (fixed_part : string) (is_prefix : bool) :
  (String.length fixed_part <= 11)%nat ->
  NoDup (passwords fixed_part is_prefix (0, total_combinations fixed_part)).
Proof.
  intros H. rewrite passwords_all by done.
  change (map ?f ?l) with (f <$> l).
  apply NoDup_fmap_2_strong; [|apply NoDup_seqZ].
  intros i j Hi Hj. apply elem_of_seqZ in Hi, Hj.
  rewrite <- variable_count in Hi, Hj by done.
  apply candidate_inj; lia.
Qed.

Lemma compose_candidate (fixed_part : string) (is_prefix : bool)
    (combination : list ascii) :
  length combination = (11 - String.length fixed_part)%nat ->
  forallb is_digit combination = true ->
  compose fixed_part is_prefix combination =
  candidate fixed_part is_prefix (decimal_value combination).
Proof.
  intros Hlen Hdig. rewrite <- compose_zeropad, <- Hlen.
  by rewrite zeropad_digits_decimal.
Qed.

(** Every password of the search space is composed from one index. *)
Lemma passwords_all_elem (fixed_part : string) (is_prefix : bool) (pw : string) :
  (String.length fixed_part <= 11)%nat ->
  pw ∈ passwords fixed_part is_prefix (0, total_combinations fixed_part) <->
  exists combination,
    length combination = (11 - String.length fixed_part)%nat /\
    forallb is_digit combination = true /\
    pw = compose fixed_part is_prefix combination.
Proof.
  intros H. rewrite passwords_all by done.
  change (map ?f ?l) with (f <$> l). rewrite list_elem_of_fmap. split.
  - intros (idx & -> & Hidx). apply elem_of_seqZ in Hidx.
    exists (zeropad_digits (11 - String.length fixed_part) idx).
    split; [apply zeropad_digits_length|].
    split; [apply zeropad_digits_all_digits|].
    by rewrite compose_zeropad.
  - intros (comb & Hlen & Hdig & ->).
    exists (decimal_value comb). split; [by apply compose_candidate|].
    apply elem_of_seqZ. rewrite <- variable_count, <- Hlen by done.
    pose proof (decimal_value_bounds comb Hdig). lia.
Qed.

(** X1. The search space.  For a fixed part of at most 11 characters the
    passwords the iterator of line 41 yields over the whole range, composed
    as line 43 does, are pairwise distinct, there are 10^(11 - fixed_len)
    of them, and they are exactly the strings made of the fixed part
    followed (prefix) or preceded (suffix) by 11 - fixed_len decimal
    digits; each is 11 characters long. *)
Theorem search_space_enumerated (fixed_part : string) (is_prefix : bool) :
  (String.length fixed_part <= 11)%nat ->
  NoDup (passwords fixed_part is_prefix (0, total_combinations fixed_part)) /\
  Z.of_nat (length (passwords fixed_part is_prefix
                      (0, total_combinations fixed_part))) =
    total_combinations fixed_part /\
  (forall pw,
     pw ∈ passwords fixed_part is_prefix (0, total_combinations fixed_part) <->
     exists rest,
       String.length rest = (11 - String.length fixed_part)%nat /\
       all_digits rest = true /\
       pw = if is_prefix then fixed_part +:+ rest else rest +:+ fixed_part) /\
  (forall pw,
     pw ∈ passwords fixed_part is_prefix (0, total_combinations fixed_part) ->
     String.length pw = 11%nat).
Proof.
  intros H. split; [by apply passwords_all_NoDup|]. split; [|split].
  - rewrite passwords_all, length_map, length_seqZ by done.
    destruct (total_combinations_pos fixed_part); lia.
  - intros pw. rewrite passwords_all_elem by done. split.
    + intros (comb & Hlen & Hdig & ->). exists (string_of_list_ascii comb).
      rewrite string_length_of_list. unfold all_digits.
      by rewrite list_ascii_of_string_of_list_ascii.
    + intros (rest & Hlen & Hdig & ->). exists (list_ascii_of_string rest).
      unfold compose, join. rewrite string_of_list_ascii_of_string.
      split; [|done].
      by rewrite <- Hlen, <- string_length_of_list,
        string_of_list_ascii_of_string.
  - intros pw Hpw. rewrite passwords_all in Hpw by done.
    change (map ?f ?l) with (f <$> l) in Hpw.
    apply list_elem_of_fmap in Hpw as (idx & -> & _).
    by apply candidate_length.
Qed.

Lemma search_space_enumerated_witness :
  (String.length "12345" <= 11)%nat /\
  "12345678901" ∈ passwords "12345" true (0, total_combinations "12345").
Proof.
  split; [simpl; lia|].
  apply (proj1 (proj2 (proj2
    (search_space_enumerated "12345" true ltac:(simpl; lia))))).
  exists "678901". split; [reflexivity|]. split; reflexivity.
Defined.

(** ** The workers' ranges, put end to end *)

Lemma concat_chunks {A : Type} (f : Z -> A) (c : Z) (m : nat) :
  0 <= c ->
  concat (map (fun i => map f (seqZ (i * c) c)) (seqZ 0 (Z.of_nat m))) =
  map f (seqZ 0 (Z.of_nat m * c)).
Proof.
  intros Hc. induction m as [|m IH]; [done|].
  replace (Z.of_nat (S m)) with (Z.of_nat m + 1) by lia.
  rewrite seqZ_split, map_app, concat_app, IH by lia.
  rewrite (seqZ_cons _ 1) by lia. simpl. rewrite app_nil_r.
  replace ((Z.of_nat m + 1) * c) with (Z.of_nat m * c + c) by lia.
  rewrite (seqZ_split 0 (Z.of_nat m * c) c), map_app by nia.
  done.
Qed.

Lemma passwords_concat (fixed_part : string) (is_prefix : bool) (n : Z) :
  (String.length fixed_part <= 11)%nat -> 1 <= n ->
  concat (map (passwords fixed_part is_prefix)
            (split_ranges (total_combinations fixed_part) n)) =
  passwords fixed_part is_prefix (0, total_combinations fixed_part).
Proof.
  intros Hlen Hn.
  set (total := total_combinations fixed_part).
  assert (Htotal : 0 <= total)
    by (destruct (total_combinations_pos fixed_part); unfold total; lia).
  destruct (chunk_bounds total n Htotal Hn) as [Hc Hnc].
  set (c := total / n) in *.
  set (cand := candidate fixed_part is_prefix).
  assert (Hmap : map (passwords fixed_part is_prefix) (split_ranges total n) =
                 map (fun r => map cand (seqZ (fst r) (snd r - fst r)))
                     (split_ranges total n)).
  { apply map_ext_in. intros r Hr.
    apply list_elem_of_In, list_elem_of_lookup in Hr as [i Hi].
    apply (split_ranges_wf _ _ _ _ Htotal) in Hi as [Hi1 Hi2].
    apply passwords_seqZ; [lia|]. rewrite variable_count by done.
    fold total. lia. }
  rewrite Hmap, split_ranges_map, map_map. fold c.
  assert (Hseq : seqZ 0 n = seqZ 0 (Z.of_nat (Z.to_nat (n - 1))) ++ [n - 1]).
  { replace n with ((n - 1) + 1) at 1 by lia.
    rewrite seqZ_split by lia. rewrite Z2Nat.id by lia.
    by rewrite (seqZ_cons _ 1) by lia. }
  rewrite Hseq, map_app, concat_app. simpl. rewrite app_nil_r.
  rewrite Z.ltb_irrefl.
  rewrite (map_ext_in _ (fun i => map cand (seqZ (i * c) c))).
  2:{ intros i Hi. apply list_elem_of_In, elem_of_seqZ in Hi.
      simpl. destruct (Z.ltb_spec i (n - 1)); [|lia]. simpl.
      f_equal. f_equal. lia. }
  rewrite concat_chunks by done. rewrite Z2Nat.id by lia.
  rewrite <- map_app, <- seqZ_split by nia.
  unfold total. rewrite passwords_all by done. fold total.
  f_equal. f_equal. lia.
Qed.

(** Two workers have no password in common. *)
Lemma passwords_disjoint (fixed_part : string) (is_prefix : bool) (n : Z)
    (i j : nat) (ri rj : Z * Z) (pw : string) :
  (String.length fixed_part <= 11)%nat -> 1 <= n ->
  split_ranges (total_combinations fixed_part) n !! i = Some ri ->
  split_ranges (total_combinations fixed_part) n !! j = Some rj ->
  pw ∈ passwords fixed_part is_prefix ri ->
  pw ∈ passwords fixed_part is_prefix rj -> i = j.
Proof.
  intros Hlen Hn Hi Hj Hpi Hpj.
  assert (Htotal : 0 <= total_combinations fixed_part)
    by (destruct (total_combinations_pos fixed_part); lia).
  pose proof (split_ranges_wf _ _ _ _ Htotal Hi) as [Hi1 Hi2].
  pose proof (split_ranges_wf _ _ _ _ Htotal Hj) as [Hj1 Hj2].
  rewrite <- variable_count in Hi2, Hj2 by done.
  rewrite passwords_seqZ in Hpi, Hpj by lia.
  change (map ?f ?l) with (f <$> l) in Hpi, Hpj.
  apply list_elem_of_fmap in Hpi as (a & -> & Ha).
  apply list_elem_of_fmap in Hpj as (b & Hab & Hb).
  apply elem_of_seqZ in Ha, Hb.
  apply candidate_inj in Hab; [|lia|lia]. subst b.
  destruct (decide (i = j)) as [|Hne]; [done|]. exfalso.
  apply (split_ranges_disjoint _ _ i j ri rj a Htotal Hn Hi Hj Hne);
    unfold in_range; lia.
Qed.

(** A worker meets no password twice. *)
Lemma passwords_range_NoDup (fixed_part : string) (is_prefix : bool) (n : Z)
    (i : nat) (r : Z * Z) :
  (String.length fixed_part <= 11)%nat ->
  split_ranges (total_combinations fixed_part) n !! i = Some r ->
  NoDup (passwords fixed_part is_prefix r).
Proof.
  intros Hlen Hi.
  assert (Htotal : 0 <= total_combinations fixed_part)
    by (destruct (total_combinations_pos fixed_part); lia).
  pose proof (split_ranges_wf _ _ _ _ Htotal Hi) as [Hi1 Hi2].
  rewrite <- variable_count in Hi2 by done.
  rewrite passwords_seqZ by lia.
  change (map ?f ?l) with (f <$> l).
  apply NoDup_fmap_2_strong; [|apply NoDup_seqZ].
  intros a b Ha Hb. apply elem_of_seqZ in Ha, Hb.
  apply candidate_inj; lia.
Qed.

(** X2. The workers share the search space.  For at least one process and
    a fixed part of at most 11 characters, the password lists of the
    workers, put end to end in the order of the workers, are the list of
    the whole search space: nothing is left out, nothing comes twice, and
    no password belongs to two workers. *)
Theorem workers_share_the_search_space (fixed_part : string)
    (is_prefix : bool) (num_processes : Z) :
  (String.length fixed_part <= 11)%nat -> 1 <= num_processes ->
  let ranges := split_ranges (total_combinations fixed_part) num_processes in
  concat (map (passwords fixed_part is_prefix) ranges) =
    passwords fixed_part is_prefix (0, total_combinations fixed_part) /\
  NoDup (concat (map (passwords fixed_part is_prefix) ranges)) /\
  (forall i j ri rj pw,
     ranges !! i = Some ri -> ranges !! j = Some rj ->
     pw ∈ passwords fixed_part is_prefix ri ->
     pw ∈ passwords fixed_part is_prefix rj -> i = j).
Proof.
  intros Hlen Hn ranges.
  pose proof (passwords_concat fixed_part is_prefix num_processes Hlen Hn)
    as Hcat.
  split; [exact Hcat|]. split.
  { unfold ranges. rewrite Hcat. by apply passwords_all_NoDup. }
  intros i j ri rj pw. by apply passwords_disjoint.
Qed.

Lemma workers_share_the_search_space_witness :
  (String.length "010199" <= 11)%nat /\ 1 <= 4 /\
  concat (map (passwords "010199" false)
            (split_ranges (total_combinations "010199") 4)) =
  passwords "010199" false (0, total_combinations "010199").
Proof.
  split; [simpl; lia|]. split; [lia|].
  exact (proj1 (workers_share_the_search_space "010199" false 4
                  ltac:(simpl; lia) ltac:(lia))).
Defined.

(** ** The date suffix on six characters of any kind *)





















(** ** What a step does *)

Lemma reports_app (h l : list event) : reports (h ++ l) = reports h ++ reports l.
Proof. unfold reports. by rewrite flat_map_app. Qed.

Lemma progress_values_app (h l : list event) :
  progress_values (h ++ l) = progress_values h ++ progress_values l.
Proof. unfold progress_values. by rewrite flat_map_app. Qed.

Lemma all_probes_app (h l : list event) :
  all_probes (h ++ l) = all_probes h ++ all_probes l.
Proof. unfold all_probes. by rewrite flat_map_app. Qed.

(** The steps of a worker, by what they add to the history and the queue. *)
Lemma step_worker_cases (doc : pdf) (fixed_part : string) (is_prefix : bool)
    (i : nat) (s s' : sys) :
  step_worker doc fixed_part is_prefix i s = Some s' ->
  exists w w' evs q,
    procs s !! i = Some w /\ terminated w = false /\
    procs s' = <[i:=w']> (procs s) /\ coord s' = coord s /\
    mon s' = mon s /\ stop_flag s' = stop_flag s /\
    history s' = history s ++ evs /\ queue s' = queue s ++ q /\
    ((evs = [] /\ q = [] /\ w' <> WReturned) \/
     (evs = [EvDied i] /\ q = [] /\ w' = WDied) \/
     (evs = [EvPut i None] /\ q = [None] /\ w = WNext [] /\ w' = WReturned) \/
     (exists pw it,
        w = WProbe pw it /\ w' = WNext it /\ evs = [EvProbe i pw] /\ q = [] /\
        matches (pdf_decrypt doc) pw = false) \/
     (exists pw it,
        w = WProbe pw it /\ w' = WReturned /\
        evs = [EvProbe i pw; EvPut i (Some pw)] /\ q = [Some pw] /\
        matches (pdf_decrypt doc) pw = true)).
Proof.
  unfold step_worker. destruct (procs s !! i) as [w|] eqn:Hi; [|done].
  destruct w as [start stop|[|c it]|pw it|pw it|v pw it|pw it|pw it| |];
    try done.
  - destruct (pdf_opens doc i); intros [= <-].
    + eexists _, _, [], []. simpl. rewrite !app_nil_r.
      repeat split; try done. left. by repeat split.
    + eexists _, _, [EvDied i], []. simpl. rewrite !app_nil_r.
      repeat split; try done. right. left. by repeat split.
  - intros [= <-]. eexists _, _, [EvPut i None], [None]. simpl.
    repeat split; try done. right. right. left. by repeat split.
  - intros [= <-]. eexists _, _, [], []. simpl. rewrite !app_nil_r.
    repeat split; try done. left. by repeat split.
  - destruct (lock s); [done|]. intros [= <-].
    eexists _, _, [], []. simpl. rewrite !app_nil_r.
    repeat split; try done. left. by repeat split.
  - intros [= <-]. eexists _, _, [], []. simpl. rewrite !app_nil_r.
    repeat split; try done. left. by repeat split.
  - intros [= <-]. eexists _, _, [], []. simpl. rewrite !app_nil_r.
    repeat split; try done. left. by repeat split.
  - intros [= <-]. eexists _, _, [], []. simpl. rewrite !app_nil_r.
    repeat split; try done. left. by repeat split.
  - unfold matches.
    destruct (pdf_decrypt doc pw) as [code|] eqn:Hd.
    + destruct (code =? 1) eqn:Hc; intros [= <-].
      * eexists _, _, [EvProbe i pw; EvPut i (Some pw)], [Some pw]. simpl.
        rewrite <- !app_assoc. simpl.
        repeat split; try done. do 4 right. exists pw, it.
        by rewrite Hd, Hc.
      * eexists _, _, [EvProbe i pw], []. simpl. rewrite !app_nil_r.
        repeat split; try done. do 3 right. left. exists pw, it.
        by rewrite Hd, Hc.
    + intros [= <-].
      eexists _, _, [EvProbe i pw], []. simpl. rewrite !app_nil_r.
      repeat split; try done. do 3 right. left. exists pw, it.
      by rewrite Hd.
Qed.

(** A worker that has terminated takes no step. *)
Lemma step_worker_terminated (doc : pdf) (fixed_part : string)
    (is_prefix : bool) (i : nat) (s : sys) :
  (forall w, procs s !! i = Some w -> terminated w = true) ->
  step_worker doc fixed_part is_prefix i s = None.
Proof.
  intros H. destruct (step_worker doc fixed_part is_prefix i s) as [s'|] eqn:Hs;
    [|done].
  apply step_worker_shape in Hs as (w & w' & Hi & Hterm & _).
  rewrite (H w Hi) in Hterm. done.
Qed.

Lemma joined_past_stop (s : sys) (i : nat) (w : wstate) :
  joined s -> past_stop (coord s) = true ->
  procs s !! i = Some w -> terminated w = true.
Proof.
  unfold joined. intros Hj Hc Hi.
  pose proof (lookup_lt_Some _ _ _ Hi) as Hlt.
  destruct (coord s); try discriminate Hc; by apply (Hj i).
Qed.

(** ** The lock, the stop flag and the report *)

Lemma report_last_frame (c : cstate) (n : nat) (m m' : mstate)
    (h evs : list event) :
  (forall f, c <> CDone f) -> report_last c n m h -> reports evs = [] ->
  report_last c n m' (h ++ evs).
Proof.
  intros Hgo Hr Hevs. destruct c; simpl in *;
    rewrite ?reports_app, ?Hevs, ?app_nil_r; try done.
  by destruct (Hgo found_password).
Qed.

Lemma step_sync_inv (doc : pdf) (fixed_part : string) (is_prefix : bool)
    (a : actor) (s s' : sys) :
  joined s -> sync_inv s ->
  step doc fixed_part is_prefix a s = Some s' -> sync_inv s'.
Proof.
  intros Hj (Hm & Hw & Hstop & Hret & Hc) Hstep.
  destruct a as [| |i]; simpl in Hstep.
  - (* the coordinator *)
    unfold step_coordinator in Hstep.
    destruct (coord s) as [k f|k f|f|f|f] eqn:Hcs; simpl in *.
    + destruct (procs s !! k) as [w|] eqn:Hk.
      * destruct (terminated w); [|done]. injection Hstep as <-.
        unfold sync_inv. simpl.
        repeat split; try done. by eapply lookup_lt_Some.
      * injection Hstep as <-. unfold sync_inv. simpl. by repeat split.
    + destruct Hc as [Hk Hr]. destruct (queue s) as [|result q].
      * injection Hstep as <-. unfold sync_inv. simpl. by repeat split.
      * destruct (truthy result); injection Hstep as <-;
          unfold sync_inv; simpl; by repeat split.
    + injection Hstep as <-. unfold sync_inv. simpl.
      by repeat split.
    + destruct (mon s) eqn:Hmon; try done. injection Hstep as <-.
      unfold sync_inv. simpl.
      rewrite Hmon. split_and!; try done. by exists (history s).
    + done.
  - (* the monitor *)
    unfold step_monitor in Hstep.
    assert (Hgo : forall f, coord s <> CDone f).
    { intros f Hf. rewrite Hf in Hc. destruct Hc as [Hmr _].
      by rewrite Hmr in Hstep. }
    pose proof (fun m' evs => report_last_frame _ _ _ m' _ evs Hgo Hc) as Hrep.
    destruct (mon s) eqn:Hmon; try done.
    + injection Hstep as <-. unfold sync_inv. simpl.
      split_and!; try done.
      * intros Hl. by specialize (Hm Hl).
      * by destruct (stop_flag s).
      * rewrite <- (app_nil_r (history s)). by apply Hrep.
    + injection Hstep as <-. unfold sync_inv. simpl.
      split_and!; try done.
      * intros Hl. by specialize (Hm Hl).
      * rewrite <- (app_nil_r (history s)). by apply Hrep.
    + destruct (lock s) eqn:Hl; [done|]. injection Hstep as <-.
      unfold sync_inv. simpl. split_and!; try done.
      rewrite <- (app_nil_r (history s)). by apply Hrep.
    + injection Hstep as <-. unfold sync_inv. simpl.
      split_and!; try done. by apply Hrep.
  - (* a worker *)
    assert (Hgo : past_stop (coord s) = false).
    { destruct (past_stop (coord s)) eqn:Hp; [|done].
      rewrite step_worker_terminated in Hstep; [done|].
      intros w Hi. by eapply joined_past_stop. }
    pose proof Hstep as Hcases.
    apply step_worker_cases in Hcases
      as (w & w' & evs & q & Hi & _ & Hp & Hco & Hmo & Hst & Hh & _ & Hk).
    assert (Hevs : reports evs = []).
    { destruct Hk as [(-> & _) | [(-> & _) | [(-> & _) |
        [(? & ? & _ & _ & -> & _) | (? & ? & _ & _ & -> & _)]]]]; done. }
    assert (Hlock : lock s' = lock s \/ lock s' = None \/
                    lock s' = Some (Worker i)).
    { unfold step_worker in Hstep. rewrite Hi in Hstep.
      destruct w as [start stop|[|c it]|pw it|pw it|v pw it|pw it|pw it| |];
        try done.
      - destruct (pdf_opens doc i); injection Hstep as <-; auto.
      - injection Hstep as <-; auto.
      - injection Hstep as <-; auto.
      - destruct (lock s); [done|]. injection Hstep as <-; auto.
      - injection Hstep as <-; auto.
      - injection Hstep as <-; auto.
      - injection Hstep as <-; auto.
      - destruct (pdf_decrypt doc pw) as [code|];
          [destruct (code =? 1)|]; injection Hstep as <-; auto. }
    unfold sync_inv. rewrite Hp, Hco, Hmo, Hst, Hh, length_insert.
    split; [|split; [|split; [done|split; [done|]]]].
    + intros Hl. destruct Hlock as [Heq | [Heq | Heq]];
        rewrite Heq in Hl; try done. auto.
    + intros j Hl. destruct Hlock as [Heq | [Heq | Heq]];
        rewrite Heq in Hl; try done; [auto|].
      injection Hl as <-. by eapply lookup_lt_Some.
    + apply (report_last_frame _ _ (mon s)); [|done|done].
      intros f Hf. by rewrite Hf in Hgo.
Qed.

Lemma parallel_brute_force_sync_inv (fixed_part : string) (n : Z) (s0 : sys) :
  parallel_brute_force fixed_part n = Ok s0 -> sync_inv s0.
Proof.
  unfold parallel_brute_force. destruct (n =? 0); [done|].
  intros [= <-]. unfold sync_inv. simpl. by repeat split.
Qed.

Lemma exec_sync_inv (doc : pdf) (fixed_part : string) (is_prefix : bool)
    (schedule : list actor) (s s' : sys) :
  joined s -> sync_inv s ->
  exec doc fixed_part is_prefix schedule s = Some s' -> sync_inv s'.
Proof.
  revert s. induction schedule as [|a schedule IH]; intros s Hj Hinv; simpl.
  - by intros [= <-].
  - destruct (step doc fixed_part is_prefix a s) as [s1|] eqn:Hstep; [|done].
    intros Hexec. eapply IH; [| |done].
    + by eapply step_joined.
    + by eapply step_sync_inv.
Qed.

(** ** The queue and the final report *)

Lemma compose_length (fixed_part : string) (is_prefix : bool)
    (combination : list ascii) :
  String.length (compose fixed_part is_prefix combination) =
  (String.length fixed_part + length combination)%nat.
Proof.
  unfold compose, join. destruct is_prefix;
    rewrite string_length_app, string_length_of_list; lia.
Qed.

Lemma passwords_nonempty (fixed_part : string) (is_prefix : bool)
    (r : Z * Z) (pw : string) :
  fixed_part <> "" -> pw ∈ passwords fixed_part is_prefix r -> pw <> "".
Proof.
  intros Hf Hpw. unfold passwords in Hpw.
  change (map ?f ?l) with (f <$> l) in Hpw.
  apply list_elem_of_fmap in Hpw as (comb & -> & _).
  intros Heq. apply (f_equal String.length) in Heq.
  rewrite compose_length in Heq. simpl in Heq.
  destruct fixed_part; [done|]. simpl in Heq. lia.
Qed.

Lemma truthy_nonempty (pw : string) : pw <> "" -> truthy (Some pw) = true.
Proof.
  intros H. simpl. destruct (String.eqb_spec pw ""); done.
Qed.

Lemma all_probes_elem (h : list event) (pw : string) :
  pw ∈ all_probes h <-> exists i, EvProbe i pw ∈ h.
Proof.
  unfold all_probes. rewrite list_elem_of_In, in_flat_map. split.
  - intros (e & He & Hpw). destruct e; simpl in Hpw; try done.
    destruct Hpw as [-> | []]. exists i. by apply list_elem_of_In.
  - intros (i & Hi). exists (EvProbe i pw). split.
    + by apply list_elem_of_In.
    + simpl. by left.
Qed.

Lemma probes_of_elem (i : nat) (h : list event) (pw : string) :
  pw ∈ probes_of i h <-> EvProbe i pw ∈ h.
Proof.
  unfold probes_of. rewrite list_elem_of_In, in_flat_map. split.
  - intros (e & He & Hpw). destruct e as [j pw'| | | |]; simpl in Hpw; try done.
    destruct (Nat.eqb_spec j i) as [-> | ?]; [|done].
    destruct Hpw as [-> | []]. by apply list_elem_of_In.
  - intros Hi. exists (EvProbe i pw). split.
    + by apply list_elem_of_In.
    + simpl. rewrite Nat.eqb_refl. by left.
Qed.

Section RunReportProofs.

Variable doc : pdf.
Variable fixed_part : string.
Variable is_prefix : bool.
Variable ranges : list (Z * Z).
Hypothesis fixed_nonempty : fixed_part <> "".

Local Abbreviation inv := (run_inv doc fixed_part is_prefix ranges).
Local Abbreviation qinv := (queue_inv doc).

Lemma sound_item_mono (h evs : list event) (item : option string) :
  sound_item doc h item -> sound_item doc (h ++ evs) item.
Proof.
  destruct item as [pw|]; [|done]. intros (? & ? & Hp).
  split; [done|]. split; [done|].
  rewrite all_probes_app. apply elem_of_app. by left.
Qed.

Lemma found_put_app (h evs : list event) :
  found_put (h ++ evs) <-> found_put h \/ found_put evs.
Proof.
  unfold found_put. split.
  - intros (i & pw & H). apply elem_of_app in H as [H | H]; eauto.
  - intros [(i & pw & H) | (i & pw & H)]; exists i, pw;
      apply elem_of_app; auto.
Qed.

(** The invariant of the queue, step by step. *)
Lemma queue_inv_step_coordinator (s s' : sys) :
  qinv s -> step_coordinator s = Some s' -> qinv s'.
Proof.
  intros (Hq & Hf & Hput & Hret & Hfin). unfold step_coordinator.
  destruct (coord s) as [k f|k f|f|f|f] eqn:Hcs; simpl in *.
  - destruct (procs s !! k) as [w|] eqn:Hk.
    + destruct (terminated w); [|done]. intros [= <-].
      unfold queue_inv. simpl. by rewrite ?Hcs.
    + intros [= <-]. unfold queue_inv. simpl. rewrite ?Hcs.
      split_and!; try done. apply Hfin. by apply lookup_ge_None.
  - destruct (queue s) as [|result q] eqn:Hqs.
    + intros [= <-]. unfold queue_inv. simpl. rewrite ?Hcs, ?Hqs.
      split_and!; try done. intros _. by right.
    + apply Forall_cons in Hq as [Hres Hq].
      destruct (truthy result) eqn:Ht; intros [= <-];
        unfold queue_inv; simpl; rewrite ?Hcs.
      * split_and!; try done.
        -- intros _. left. by destruct result.
        -- intros _. left. by destruct result.
      * split_and!; try done. intros Hp.
        destruct (Hput Hp) as [? | (pw & Hpw)]; [by left|]. right.
        apply elem_of_cons in Hpw as [<- | Hpw]; [|by exists pw].
        destruct Hres as (Hne & _). by rewrite truthy_nonempty in Ht.
  - intros [= <-]. unfold queue_inv. simpl. by rewrite ?Hcs.
  - destruct (mon s); try done. intros [= <-].
    unfold queue_inv. simpl. rewrite ?Hcs. split_and!; try done.
    + eapply Forall_impl; [exact Hq|]. intros item. apply sound_item_mono.
    + by apply sound_item_mono.
    + intros Hp. apply found_put_app in Hp as [Hp | Hp]; [auto|].
      destruct Hp as (i & pw & Hp). apply list_elem_of_singleton in Hp. done.
    + intros i Hi. destruct (Hret i Hi) as [(pw & Hpw) | Hno].
      * left. exists pw. apply elem_of_app. by left.
      * right. by rewrite probes_of_app, app_nil_r.
  - done.
Qed.

Lemma queue_inv_step_monitor (s s' : sys) :
  qinv s -> step_monitor s = Some s' -> qinv s'.
Proof.
  intros (Hq & Hf & Hput & Hret & Hfin). unfold step_monitor.
  destruct (mon s); try done.
  - intros [= <-]. by unfold queue_inv.
  - intros [= <-]. by unfold queue_inv.
  - destruct (lock s); [done|]. intros [= <-]. by unfold queue_inv.
  - intros [= <-]. unfold queue_inv. simpl. split_and!; try done.
    + eapply Forall_impl; [exact Hq|]. intros item. apply sound_item_mono.
    + by apply sound_item_mono.
    + intros Hp. apply found_put_app in Hp as [Hp | Hp]; [auto|].
      destruct Hp as (i & pw & Hp). apply list_elem_of_singleton in Hp. done.
    + intros i Hi. destruct (Hret i Hi) as [(pw & Hpw) | Hno].
      * left. exists pw. apply elem_of_app. by left.
      * right. by rewrite probes_of_app, app_nil_r.
Qed.

Lemma queue_inv_step_worker (i : nat) (s s' : sys) :
  inv s -> joined s -> qinv s ->
  step_worker doc fixed_part is_prefix i s = Some s' -> qinv s'.
Proof.
  intros Hinv Hj (Hq & Hf & Hput & Hret & Hfin) Hstep.
  apply step_worker_cases in Hstep
    as (w & w' & evs & q & Hi & Hterm & Hp & Hco & Hmo & Hst & Hh & Hqs & Hk).
  destruct (inv_range _ _ _ _ _ _ _ Hinv Hi) as (r & Hr & Hwi).
  pose proof (lookup_lt_Some _ _ _ Hi) as Hlt.
  (* the new items are sound *)
  assert (Hq' : Forall (sound_item doc (history s ++ evs)) q).
  { destruct Hk as [(_ & -> & _) | [(_ & -> & _) | [(_ & -> & _) |
      [(? & ? & _ & _ & _ & -> & _) | (pw & it & -> & _ & -> & -> & Hm)]]]];
      repeat constructor; try done.
    - destruct Hwi as (Hpws & _).
      apply (passwords_nonempty fixed_part is_prefix r); [done|].
      rewrite <- Hpws. apply elem_of_app. right. by left.
    - rewrite all_probes_app. apply elem_of_app. right. by left. }
  (* a password is put only together with its item *)
  assert (Hnew : found_put evs -> exists pw, Some pw ∈ q).
  { intros (j & pw & Hin).
    destruct Hk as [(-> & _) | [(-> & _) | [(-> & _) |
      [(? & ? & _ & _ & -> & _) | (pw' & it & _ & _ & -> & -> & _)]]]];
      try (by apply elem_of_nil in Hin);
      try (apply list_elem_of_singleton in Hin; done).
    apply elem_of_cons in Hin as [Hin | Hin]; [done|].
    apply list_elem_of_singleton in Hin. injection Hin as _ ->.
    exists pw'. by left. }
  unfold queue_inv. rewrite Hp, Hco, Hh, Hqs, length_insert.
  split_and!.
  - apply Forall_app. split; [|done].
    eapply Forall_impl; [exact Hq|]. intros item. apply sound_item_mono.
  - by apply sound_item_mono.
  - intros Hfp. apply found_put_app in Hfp as [Hfp | Hfp].
    + destruct (Hput Hfp) as [? | (pw & Hpw)]; [by left|].
      right. exists pw. apply elem_of_app. by left.
    + right. destruct (Hnew Hfp) as (pw & Hpw).
      exists pw. apply elem_of_app. by right.
  - intros j Hjr. destruct (decide (j = i)) as [-> | Hne].
    + rewrite list_lookup_insert_eq in Hjr by done. injection Hjr as ->.
      destruct Hk as [(_ & _ & ?) | [(_ & _ & ?) | [(-> & _ & -> & _) |
        [(? & ? & _ & ? & _) | (pw & it & _ & _ & -> & _)]]]]; try done.
      * right. rewrite probes_of_app, app_nil_r. by destruct Hwi as (_ & ? & _).
      * left. exists pw. apply elem_of_app. right. right. by left.
    + rewrite list_lookup_insert_ne in Hjr by done.
      destruct (Hret j Hjr) as [(pw & Hpw) | Hno].
      * left. exists pw. apply elem_of_app. by left.
      * right. rewrite probes_of_app.
        assert (Hnone : probes_of j evs = []).
        { destruct Hk as [(-> & _) | [(-> & _) | [(-> & _) |
            [(? & ? & _ & _ & -> & _) | (? & ? & _ & _ & -> & _)]]]];
            simpl; try done;
            by destruct (Nat.eqb_spec i j) as [-> | ?]. }
        by rewrite Hnone, app_nil_r.
  - assert (Hall : (forall j w0, procs s !! j = Some w0 ->
                      terminated w0 = true) -> False).
    { intros Hall. by rewrite (Hall i w Hi) in Hterm. }
    unfold joined in Hj.
    destruct (coord s) as [k f|k f|f|f|f]; try done.
    + intros Hk'. exfalso. apply Hall. intros j w0 Hj0.
      apply (Hj j); [|done]. apply lookup_lt_Some in Hj0. lia.
    + exfalso. apply Hall. intros j w0 Hj0.
      apply (Hj j); [|done]. by apply lookup_lt_Some in Hj0.
    + exfalso. apply Hall. intros j w0 Hj0.
      apply (Hj j); [|done]. by apply lookup_lt_Some in Hj0.
    + exfalso. apply Hall. intros j w0 Hj0.
      apply (Hj j); [|done]. by apply lookup_lt_Some in Hj0.
Qed.

Lemma step_queue_inv (a : actor) (s s' : sys) :
  inv s -> joined s -> qinv s ->
  step doc fixed_part is_prefix a s = Some s' -> qinv s'.
Proof.
  destruct a; simpl;
    eauto using queue_inv_step_coordinator, queue_inv_step_monitor,
      queue_inv_step_worker.
Qed.

End RunReportProofs.

Lemma parallel_brute_force_queue_inv (doc : pdf) (fixed_part : string)
    (n : Z) (s0 : sys) :
  parallel_brute_force fixed_part n = Ok s0 -> queue_inv doc s0.
Proof.
  unfold parallel_brute_force. destruct (n =? 0); [done|].
  intros [= <-]. unfold queue_inv. simpl. split_and!; try done.
  - intros (i & pw & H). by apply elem_of_nil in H.
  - intros i Hi. change (map ?f ?l) with (f <$> l) in Hi.
    rewrite list_lookup_fmap in Hi.
    by destruct (split_ranges _ _ !! i).
  - intros _. by right.
Qed.

(** ** Every state of a run *)

Lemma fixed_part_nonempty (fixed_part : string) :
  (String.length fixed_part = 5 \/ String.length fixed_part = 6)%nat ->
  fixed_part <> "".
Proof. intros [H | H] ->; discriminate H. Qed.

Lemma reachable_all (doc : pdf) (fixed_part : string) (is_prefix : bool)
    (num_processes : Z) (schedule : list actor) (s0 s : sys) :
  (String.length fixed_part = 5 \/ String.length fixed_part = 6)%nat ->
  parallel_brute_force fixed_part num_processes = Ok s0 ->
  exec doc fixed_part is_prefix schedule s0 = Some s ->
  run_inv doc fixed_part is_prefix
    (split_ranges (total_combinations fixed_part) num_processes) s /\
  joined s /\ sync_inv s /\ queue_inv doc s.
Proof.
  intros Hlen Hinit Hexec.
  pose proof (total_combinations_bounds fixed_part Hlen) as [Hpos Hsmall].
  set (ranges := split_ranges (total_combinations fixed_part) num_processes).
  assert (Hwf : forall i r, ranges !! i = Some r -> 0 <= fst r <= snd r).
  { intros i r Hr. by apply (split_ranges_wf _ _ _ _ Hpos) in Hr as [? _]. }
  assert (Hsm : width_sum ranges < 2 ^ 31).
  { pose proof (width_sum_split_le (total_combinations fixed_part)
                  num_processes Hpos). unfold ranges. lia. }
  pose proof (parallel_brute_force_inv doc fixed_part is_prefix
                num_processes s0 Hinit) as H1.
  pose proof (parallel_brute_force_joined _ _ _ Hinit) as H2.
  pose proof (parallel_brute_force_sync_inv _ _ _ Hinit) as H3.
  pose proof (parallel_brute_force_queue_inv doc _ _ _ Hinit) as H4.
  fold ranges in H1. clear Hinit.
  revert s0 H1 H2 H3 H4 Hexec.
  induction schedule as [|a schedule IH]; intros s0 H1 H2 H3 H4; simpl.
  - by intros [= <-].
  - destruct (step doc fixed_part is_prefix a s0) as [s1|] eqn:Hstep; [|done].
    apply IH.
    + by eapply step_inv.
    + by eapply step_joined.
    + by eapply step_sync_inv.
    + eapply step_queue_inv; eauto using fixed_part_nonempty.
Qed.

(** ** The lock *)

Lemma worker_inv_lock (doc : pdf) (fixed_part : string) (is_prefix : bool)
    (i : nat) (r : Z * Z) (h : list event) (lk : option actor) (total : Z)
    (w : wstate) :
  worker_inv doc fixed_part is_prefix i r h lk total w ->
  (critical w = true <-> lk = Some (Worker i)).
Proof.
  unfold worker_inv. destruct w; simpl; intuition congruence.
Qed.

(** What a step does to the counter. *)
Lemma step_total (doc : pdf) (fixed_part : string) (is_prefix : bool)
    (a : actor) (s s' : sys) :
  step doc fixed_part is_prefix a s = Some s' ->
  total_attempts s' = total_attempts s \/
  exists i v pw it,
    a = Worker i /\ procs s !! i = Some (WStore v pw it) /\
    total_attempts s' = c_int (v + 1).
Proof.
  destruct a as [| |i]; simpl.
  - unfold step_coordinator. intros H. left.
    repeat case_match; try done; by injection H as <-.
  - unfold step_monitor. intros H. left.
    repeat case_match; try done; by injection H as <-.
  - unfold step_worker. destruct (procs s !! i) as [w|] eqn:Hi; [|done].
    destruct w as [start stop|[|c it]|pw it|pw it|v pw it|pw it|pw it| |];
      intros H; try done;
      try (left; repeat case_match; try done; by injection H as <-).
    right. injection H as <-. by exists i, v, pw, it.
Qed.

(** X4. The lock: at every point of a run a worker stands between its
    acquire and its release exactly when it holds the lock, the monitor
    stands at its print exactly when it holds the lock, so no two processes
    are in a locked block at once; and the counter changes only in a step
    of the holder of the lock, by one. *)
Theorem lock_mutual_exclusion (doc : pdf) (fixed_part : string)
    (is_prefix : bool) (num_processes : Z) (schedule : list actor)
    (s0 s : sys) :
  (String.length fixed_part = 5 \/ String.length fixed_part = 6)%nat ->
  parallel_brute_force fixed_part num_processes = Ok s0 ->
  exec doc fixed_part is_prefix schedule s0 = Some s ->
  (forall i w, procs s !! i = Some w ->
     (critical w = true <-> lock s = Some (Worker i))) /\
  (forall i, lock s = Some (Worker i) ->
     exists w, procs s !! i = Some w /\ critical w = true) /\
  (mon s = MPrint <-> lock s = Some Monitor) /\
  lock s <> Some Coordinator /\
  (forall i j wi wj,
     procs s !! i = Some wi -> procs s !! j = Some wj ->
     critical wi = true -> critical wj = true -> i = j) /\
  (mon s = MPrint ->
   forall i w, procs s !! i = Some w -> critical w = false) /\
  (forall a s',
     step doc fixed_part is_prefix a s = Some s' ->
     total_attempts s' <> total_attempts s ->
     lock s = Some a /\ total_attempts s' = total_attempts s + 1).
Proof.
  intros Hlen Hinit Hexec.
  destruct (reachable_all doc fixed_part is_prefix num_processes schedule
              s0 s Hlen Hinit Hexec) as (Hinv & _ & Hsync & _).
  pose proof Hinv as (_ & _ & Hmon & Hco & _).
  destruct Hsync as (Hlm & Hlw & _).
  assert (Hcrit : forall i w, procs s !! i = Some w ->
            (critical w = true <-> lock s = Some (Worker i))).
  { intros i w Hi.
    destruct (inv_range _ _ _ _ _ _ _ Hinv Hi) as (r & _ & Hwi).
    by eapply worker_inv_lock. }
  split; [exact Hcrit|]. split; [|split; [|split; [done|split; [|split]]]].
  - intros i Hl. destruct (lookup_lt_is_Some_2 (procs s) i (Hlw i Hl))
      as [w Hw].
    exists w. split; [done|]. by apply (Hcrit i w Hw).
  - split; auto.
  - intros i j wi wj Hi Hj Hci Hcj.
    apply (Hcrit i wi Hi) in Hci. apply (Hcrit j wj Hj) in Hcj.
    rewrite Hci in Hcj. by injection Hcj.
  - intros Hm i w Hi. destruct (critical w) eqn:Hc; [|done].
    apply (Hcrit i w Hi) in Hc. rewrite (Hmon Hm) in Hc. done.
  - intros a s' Hstep Hne.
    destruct (step_total _ _ _ _ _ _ Hstep)
      as [Heq | (i & v & pw & it & -> & Hi & Hs')]; [done|].
    pose proof (total_combinations_bounds fixed_part Hlen) as [Hpos Hsmall].
    destruct (store_no_wrap doc fixed_part is_prefix
                (split_ranges (total_combinations fixed_part) num_processes))
      with (s := s) (i := i) (v := v) (pw := pw) (it := it) as [Hv Hc];
      try done.
    + intros k r Hr. by apply (split_ranges_wf _ _ _ _ Hpos) in Hr as [? _].
    + pose proof (width_sum_split_le (total_combinations fixed_part)
                    num_processes Hpos). lia.
    + split; [|by rewrite Hs', Hc]. by apply (Hcrit i _ Hi).
Qed.

Lemma lock_mutual_exclusion_witness :
  (String.length "010199" = 5 \/ String.length "010199" = 6)%nat /\
  exists s0 s,
    parallel_brute_force "010199" 2 = Ok s0 /\
    exec doc_first "010199" false [Monitor; Monitor; Monitor] s0 = Some s /\
    mon s = MPrint /\ lock s = Some Monitor /\
    forall i w, procs s !! i = Some w -> critical w = false.
Proof.
  split; [right; reflexivity|].
  destruct (parallel_brute_force "010199" 2) as [s0|e] eqn:Hinit;
    [|by vm_compute in Hinit].
  destruct (exec doc_first "010199" false [Monitor; Monitor; Monitor] s0)
    as [s|] eqn:Hexec.
  - exists s0, s. split; [reflexivity|]. split; [exact Hexec|].
    pose proof (lock_mutual_exclusion doc_first "010199" false 2 _ s0 s
                  ltac:(right; reflexivity) Hinit Hexec)
      as (_ & _ & Hmon & _ & _ & Hfree & _).
    assert (Hm : mon s = MPrint).
    { vm_compute in Hinit. injection Hinit as <-.
      vm_compute in Hexec. by injection Hexec as <-. }
    split; [exact Hm|]. split; [by apply Hmon|]. by apply Hfree.
  - vm_compute in Hinit. injection Hinit as <-. by vm_compute in Hexec.
Defined.

(** ** The final report *)

Lemma test_loop_tried_subset (decrypt : string -> probe_result)
    (pws : list string) (pw : string) :
  pw ∈ fst (test_loop decrypt pws) -> pw ∈ pws.
Proof.
  induction pws as [|p pws IH]; simpl; [done|].
  destruct (decrypt p) as [code|].
  - destruct (code =? 1); simpl.
    + intros H. apply list_elem_of_singleton in H as ->. by left.
    + destruct (test_loop decrypt pws) as [tried item]. simpl in *.
      intros H. apply elem_of_cons in H as [-> | H]; [by left|].
      right. by apply IH.
  - destruct (test_loop decrypt pws) as [tried item]. simpl in *.
    intros H. apply elem_of_cons in H as [-> | H]; [by left|].
    right. by apply IH.
Qed.

Lemma test_loop_tried_no_match (decrypt : string -> probe_result)
    (pws : list string) :
  Forall (fun pw => matches decrypt pw = false) (fst (test_loop decrypt pws)) ->
  Forall (fun pw => matches decrypt pw = false) pws.
Proof.
  intros H.
  destruct (first_match_split decrypt pws)
    as [Hall | (pre & pw & post & -> & Hpre & Hpw)]; [done|].
  rewrite test_loop_first_match in H by done. simpl in H.
  apply Forall_app in H as [_ H]. apply Forall_cons in H as [H _].
  by rewrite Hpw in H.
Qed.

Lemma tried_in_range (doc : pdf) (fixed_part : string) (is_prefix : bool)
    (i : nat) (r : Z * Z) (h : list event) (lk : option actor) (total : Z)
    (w : wstate) (pw : string) :
  worker_inv doc fixed_part is_prefix i r h lk total w ->
  pw ∈ probes_of i h -> pw ∈ passwords fixed_part is_prefix r.
Proof.
  unfold worker_inv. intros Hw Hpw.
  destruct w; simpl in Hw;
    repeat match goal with H : _ /\ _ |- _ => destruct H end;
    try match goal with
        | H : probes_of i h = [] |- _ =>
            rewrite H in Hpw; by apply elem_of_nil in Hpw
        | H : _ ++ _ = passwords _ _ r |- _ =>
            rewrite <- H; apply elem_of_app; by left
        end.
  match goal with H : probes_of i h = _ |- _ => rewrite H in Hpw end.
  by eapply test_loop_tried_subset.
Qed.

(** A password that was probed is the candidate of an index of the search
    space. *)
Lemma probed_candidate (doc : pdf) (fixed_part : string) (is_prefix : bool)
    (num_processes : Z) (s : sys) (pw : string) :
  (String.length fixed_part = 5 \/ String.length fixed_part = 6)%nat ->
  run_inv doc fixed_part is_prefix
    (split_ranges (total_combinations fixed_part) num_processes) s ->
  pw ∈ all_probes (history s) ->
  exists i r idx,
    split_ranges (total_combinations fixed_part) num_processes !! i = Some r /\
    pw ∈ probes_of i (history s) /\
    in_range r idx /\ 0 <= idx < total_combinations fixed_part /\
    pw = candidate fixed_part is_prefix idx.
Proof.
  intros Hlen Hinv Hpw.
  pose proof (total_combinations_bounds fixed_part Hlen) as [Hpos _].
  apply all_probes_elem in Hpw as (i & Hin).
  pose proof Hinv as (_ & _ & _ & _ & _ & Hb).
  rewrite Forall_forall in Hb. pose proof (Hb _ Hin) as Hi. simpl in Hi.
  destruct (lookup_lt_is_Some_2 _ _ Hi) as [w Hw].
  destruct (inv_range _ _ _ _ _ _ _ Hinv Hw) as (r & Hr & Hwi).
  apply probes_of_elem in Hin.
  pose proof (tried_in_range _ _ _ _ _ _ _ _ _ _ Hwi Hin) as Hp.
  pose proof (split_ranges_wf _ _ _ _ Hpos Hr) as [Hr1 Hr2].
  rewrite passwords_seqZ in Hp
    by (rewrite ?variable_length by done; lia).
  change (map ?f ?l) with (f <$> l) in Hp.
  apply list_elem_of_fmap in Hp as (idx & -> & Hidx).
  apply elem_of_seqZ in Hidx.
  exists i, r, idx. unfold in_range. split_and!; try done; lia.
Qed.

(** X5. The final report is right.  When a run is over, a password the
    coordinator reports was probed, the document answered 1 for it, and it
    is a candidate of the search space; and when it reports none, no
    candidate in the range of a worker that opened the document matches.
    So with at least one worker, all of them opening the document, the
    report is "not found" exactly when no candidate of the search space
    matches. *)
Theorem final_report_correct (doc : pdf) (fixed_part : string)
    (is_prefix : bool) (num_processes : Z) (schedule : list actor)
    (s0 s : sys) (found_password : option string) :
  (String.length fixed_part = 5 \/ String.length fixed_part = 6)%nat ->
  parallel_brute_force fixed_part num_processes = Ok s0 ->
  exec doc fixed_part is_prefix schedule s0 = Some s ->
  coord s = CDone found_password ->
  (forall pw, found_password = Some pw ->
     final_report found_password = PasswordFound pw /\
     matches (pdf_decrypt doc) pw = true /\
     pw ∈ all_probes (history s) /\
     exists idx, 0 <= idx < total_combinations fixed_part /\
                 pw = candidate fixed_part is_prefix idx) /\
  (found_password = None ->
     final_report found_password = NotFoundExhausted /\
     forall i r idx,
       split_ranges (total_combinations fixed_part) num_processes !! i = Some r ->
       pdf_opens doc i = true -> in_range r idx ->
       matches (pdf_decrypt doc) (candidate fixed_part is_prefix idx) = false) /\
  (1 <= num_processes -> (forall i, pdf_opens doc i = true) ->
   (found_password = None <->
    forall idx, 0 <= idx < total_combinations fixed_part ->
      matches (pdf_decrypt doc) (candidate fixed_part is_prefix idx) = false)).
Proof.
  intros Hlen Hinit Hexec Hdone.
  destruct (reachable_all doc fixed_part is_prefix num_processes schedule
              s0 s Hlen Hinit Hexec) as (Hinv & Hj & Hsync & Hq).
  pose proof (total_combinations_bounds fixed_part Hlen) as [Hpos _].
  destruct Hq as (_ & Hf & Hput & Hret & Hfin).
  rewrite Hdone in Hf, Hput, Hfin. simpl in Hf, Hput.
  assert (Hsound : forall pw, found_password = Some pw ->
            final_report found_password = PasswordFound pw /\
            matches (pdf_decrypt doc) pw = true /\
            pw ∈ all_probes (history s) /\
            exists idx, 0 <= idx < total_combinations fixed_part /\
                        pw = candidate fixed_part is_prefix idx).
  { intros pw ->. destruct Hf as (Hne & Hm & Hp).
    split; [|split; [done|split; [done|]]].
    - unfold final_report. by rewrite truthy_nonempty.
    - destruct (probed_candidate _ _ _ _ _ _ Hlen Hinv Hp)
        as (i & r & idx & _ & _ & _ & Hidx & ->).
      by exists idx. }
  assert (Hnone : found_password = None ->
            forall i r idx,
              split_ranges (total_combinations fixed_part) num_processes !! i
                = Some r ->
              pdf_opens doc i = true -> in_range r idx ->
              matches (pdf_decrypt doc) (candidate fixed_part is_prefix idx)
                = false).
  { intros -> i r idx Hr Hopen Hidx.
    assert (Hnoput : ~ found_put (history s)).
    { intros Hp. destruct (Hput Hp) as [? | (pw & Hpw)]; [done|].
      destruct Hfin as [? | Hall]; [done|].
      rewrite Forall_forall in Hall. by specialize (Hall _ Hpw). }
    pose proof Hinv as (Hlen' & Hw & _).
    assert (Hi : (i < length (procs s))%nat).
    { rewrite Hlen'. by eapply lookup_lt_Some. }
    destruct (lookup_lt_is_Some_2 _ _ Hi) as [w Hwi].
    assert (Hterm : terminated w = true).
    { eapply joined_past_stop; [done| |done]. by rewrite Hdone. }
    pose proof (Hw i w r Hwi Hr) as Hwinv.
    destruct w; try discriminate Hterm; simpl in Hwinv.
    - destruct Hwinv as [Htried _].
      destruct (Hret i Hwi) as [(pw & Hpw) | Hno].
      { destruct Hnoput. by exists i, pw. }
      unfold no_match in Hno. rewrite Htried in Hno.
      apply test_loop_tried_no_match in Hno.
      rewrite Forall_forall in Hno. apply Hno.
      pose proof (split_ranges_wf _ _ _ _ Hpos Hr) as [Hr1 Hr2].
      rewrite passwords_seqZ by (rewrite ?variable_length by done; lia).
      change (map ?f ?l) with (f <$> l). apply list_elem_of_fmap.
      exists idx. split; [done|]. apply elem_of_seqZ.
      unfold in_range in Hidx. lia.
    - destruct Hwinv as (_ & Hfalse & _). by rewrite Hopen in Hfalse. }
  split; [exact Hsound|]. split; [|].
  { intros Hn. split; [by rewrite Hn | by apply Hnone]. }
  intros Hn Hopen. split.
  - intros Hf' idx Hidx.
    apply (split_ranges_cover _ num_processes idx Hpos Hn) in Hidx
      as (r & Hr & Hin).
    apply list_elem_of_lookup in Hr as [i Hr].
    by apply (Hnone Hf' i r idx).
  - intros Hall. destruct found_password as [pw|]; [|done].
    destruct (Hsound pw eq_refl) as (_ & Hm & _ & idx & Hidx & ->).
    by rewrite (Hall idx Hidx) in Hm.
Qed.

Lemma final_report_correct_witness :
  (String.length "010199" = 5 \/ String.length "010199" = 6)%nat /\
  exists s0 s,
    parallel_brute_force "010199" 1 = Ok s0 /\
    exec doc_first "010199" false found_at_once s0 = Some s /\
    coord s = CDone (Some "00000010199") /\
    final_report (Some "00000010199") = PasswordFound "00000010199" /\
    matches (pdf_decrypt doc_first) "00000010199" = true.
Proof.
  split; [right; reflexivity|].
  destruct (parallel_brute_force "010199" 1) as [s0|e] eqn:Hinit;
    [|by vm_compute in Hinit].
  destruct (exec doc_first "010199" false found_at_once s0) as [s|] eqn:Hexec.
  - exists s0, s. split; [reflexivity|]. split; [exact Hexec|].
    assert (Hc : coord s = CDone (Some "00000010199")).
    { vm_compute in Hinit. injection Hinit as <-.
      vm_compute in Hexec. by injection Hexec as <-. }
    split; [exact Hc|].
    destruct (proj1 (final_report_correct doc_first "010199" false 1
                       found_at_once s0 s _
                       ltac:(right; reflexivity) Hinit Hexec Hc)
                _ eq_refl) as (Hrep & Hm & _).
    split; [exact Hrep | exact Hm].
  - vm_compute in Hinit. injection Hinit as <-. by vm_compute in Hexec.
Defined.

(** ** When the coordinator is done *)

(** X6. The final report ends the run.  Once the coordinator has reported,
    every worker has terminated, the monitor has returned, the stop flag is
    set, the lock is free, the report is the last event of the history and
    the only report in it, and no process can take a step.  Before that
    the history holds no report, and the monitor does not return before
    every worker has terminated. *)
Theorem final_report_ends_the_run (doc : pdf) (fixed_part : string)
    (is_prefix : bool) (num_processes : Z) (schedule : list actor)
    (s0 s : sys) :
  (String.length fixed_part = 5 \/ String.length fixed_part = 6)%nat ->
  parallel_brute_force fixed_part num_processes = Ok s0 ->
  exec doc fixed_part is_prefix schedule s0 = Some s ->
  (forall f, coord s = CDone f ->
     Forall (fun w => terminated w = true) (procs s) /\
     mon s = MReturned /\ stop_flag s = true /\ lock s = None /\
     (exists h, history s = h ++ [EvReport f] /\ reports h = []) /\
     forall a, step doc fixed_part is_prefix a s = None) /\
  ((forall f, coord s <> CDone f) -> reports (history s) = []) /\
  (mon s = MReturned ->
   stop_flag s = true /\ Forall (fun w => terminated w = true) (procs s)).
Proof.
  intros Hlen Hinit Hexec.
  destruct (reachable_all doc fixed_part is_prefix num_processes schedule
              s0 s Hlen Hinit Hexec) as (Hinv & Hj & Hsync & _).
  destruct Hsync as (Hlm & Hlw & Hstop & Hret & Hrep).
  assert (Hterm : past_stop (coord s) = true ->
                  Forall (fun w => terminated w = true) (procs s)).
  { intros Hp. apply Forall_forall. intros w Hw.
    apply list_elem_of_lookup in Hw as [i Hi].
    by eapply joined_past_stop. }
  split; [|split].
  - intros f Hf. rewrite Hf in Hrep, Hstop, Hterm. simpl in Hrep, Hstop.
    destruct Hrep as [Hm Hh]. specialize (Hterm eq_refl).
    assert (Hlock : lock s = None).
    { destruct (lock s) as [[| |i]|] eqn:Hl; [| |exfalso|done].
      - by destruct Hinv as (_ & _ & _ & Hco & _).
      - specialize (Hlm eq_refl). by rewrite Hm in Hlm.
      - destruct (lookup_lt_is_Some_2 _ _ (Hlw i eq_refl)) as [w Hw].
        destruct (inv_range _ _ _ _ _ _ _ Hinv Hw) as (r & _ & Hwi).
        rewrite Forall_forall in Hterm.
        assert (Ht : terminated w = true).
        { apply Hterm. apply list_elem_of_lookup. eauto. }
        apply worker_inv_lock in Hwi. rewrite Hl in Hwi.
        destruct Hwi as [_ Hc]. specialize (Hc eq_refl).
        by destruct w. }
    split_and!; try done.
    intros [| |i]; simpl.
    + unfold step_coordinator. by rewrite Hf.
    + unfold step_monitor. by rewrite Hm.
    + apply step_worker_terminated. intros w Hw.
      rewrite Forall_forall in Hterm. apply Hterm.
      apply list_elem_of_lookup. eauto.
  - intros Hgo. destruct (coord s) eqn:Hc; simpl in Hrep; try done.
    + by destruct Hrep.
    + by destruct (Hgo found_password).
  - intros Hm. specialize (Hret Hm). split; [done|].
    apply Hterm. by rewrite <- Hstop.
Qed.

Lemma final_report_ends_the_run_witness :
  (String.length "12345" = 5 \/ String.length "12345" = 6)%nat /\
  exists s0 s,
    parallel_brute_force "12345" 1 = Ok s0 /\
    exec doc_unreadable "12345" true
      [Worker 0; Coordinator; Coordinator; Coordinator; Coordinator;
       Monitor; Coordinator] s0 = Some s /\
    coord s = CDone None /\ lock s = None /\
    forall a, step doc_unreadable "12345" true a s = None.
Proof.
  split; [left; reflexivity|].
  destruct (parallel_brute_force "12345" 1) as [s0|e] eqn:Hinit;
    [|by vm_compute in Hinit].
  destruct (exec doc_unreadable "12345" true
              [Worker 0; Coordinator; Coordinator; Coordinator; Coordinator;
               Monitor; Coordinator] s0) as [s|] eqn:Hexec.
  - exists s0, s. split; [reflexivity|]. split; [exact Hexec|].
    assert (Hc : coord s = CDone None).
    { vm_compute in Hinit. injection Hinit as <-.
      vm_compute in Hexec. by injection Hexec as <-. }
    split; [exact Hc|].
    destruct (proj1 (final_report_ends_the_run doc_unreadable "12345" true 1
                       _ s0 s ltac:(left; reflexivity) Hinit Hexec) None Hc)
      as (_ & _ & _ & Hl & _ & Hstuck).
    split; [exact Hl | exact Hstuck].
  - vm_compute in Hinit. injection Hinit as <-. by vm_compute in Hexec.
Defined.

(** ** A negative number of processes *)

(** X7. With a negative number of processes [range] is empty: no worker is
    started, and whatever the document, no password is ever probed, the
    counter stays 0 and the run reports "Password not found. Exhausted all
    combinations."; the coordinator and the monitor alone bring the run to
    that report. *)
Theorem negative_process_count (doc : pdf) (fixed_part : string)
    (is_prefix : bool) (num_processes : Z) :
  (String.length fixed_part = 5 \/ String.length fixed_part = 6)%nat ->
  num_processes < 0 ->
  exists s0,
    parallel_brute_force fixed_part num_processes = Ok s0 /\
    procs s0 = [] /\
    (exists s1,
       exec doc fixed_part is_prefix no_worker_run s0 = Some s1 /\
       coord s1 = CDone None /\ history s1 = [EvReport None]) /\
    forall schedule s,
      exec doc fixed_part is_prefix schedule s0 = Some s ->
      procs s = [] /\ all_probes (history s) = [] /\ total_attempts s = 0 /\
      forall f, coord s = CDone f ->
        f = None /\ final_report f = NotFoundExhausted.
Proof.
  intros Hlen Hn.
  assert (Hinit : parallel_brute_force fixed_part num_processes =
                  Ok (mksys [] MTest (CJoin 0 None) 0 false None [] [])).
  { unfold parallel_brute_force.
    destruct (Z.eqb_spec num_processes 0); [lia|].
    by rewrite split_ranges_nil by lia. }
  eexists. split; [exact Hinit|]. split; [done|]. split.
  { eexists. split; [reflexivity|]. done. }
  intros schedule s Hexec.
  destruct (reachable_all doc fixed_part is_prefix num_processes schedule
              _ s Hlen Hinit Hexec) as (Hinv & _ & _ & Hq).
  rewrite split_ranges_nil in Hinv by lia.
  pose proof Hinv as (Hl & _ & _ & _ & Hcount & Hb).
  assert (Hp : procs s = []) by (by apply nil_length_inv).
  rewrite Hp in Hcount, Hb. simpl in Hcount, Hb.
  assert (Hnone : all_probes (history s) = []).
  { destruct (all_probes (history s)) as [|pw l] eqn:Ha; [done|].
    assert (Hin : pw ∈ all_probes (history s)) by (rewrite Ha; by left).
    apply all_probes_elem in Hin as (i & Hin).
    rewrite Forall_forall in Hb. specialize (Hb _ Hin). simpl in Hb. lia. }
  split_and!; try done.
  intros f Hf. destruct Hq as (_ & Hsound & _).
  rewrite Hf in Hsound. simpl in Hsound.
  destruct f as [pw|]; [|done].
  destruct Hsound as (_ & _ & Hin). rewrite Hnone in Hin.
  by apply elem_of_nil in Hin.
Qed.

Lemma negative_process_count_witness :
  (String.length "12345" = 5 \/ String.length "12345" = 6)%nat /\ -1 < 0 /\
  exists s0 s1,
    parallel_brute_force "12345" (-1) = Ok s0 /\
    exec doc_first "12345" true no_worker_run s0 = Some s1 /\
    history s1 = [EvReport None].
Proof.
  split; [left; reflexivity|]. split; [lia|].
  destruct (negative_process_count doc_first "12345" true (-1)
              ltac:(left; reflexivity) ltac:(lia))
    as (s0 & Hinit & _ & (s1 & Hrun & _ & Hh) & _).
  exists s0, s1. split; [exact Hinit|]. split; [exact Hrun | exact Hh].
Defined.

(** ** The progress lines *)

Lemma in_flight_count_bounds (ws : list wstate) :
  0 <= in_flight_count ws <= Z.of_nat (length ws).
Proof.
  induction ws as [|w ws IH]; simpl; [lia|].
  pose proof (in_flight_bounds w). lia.
Qed.

Lemma probe_count_nonneg (h : list event) : 0 <= probe_count h.
Proof. induction h as [|[] h IH]; simpl; lia. Qed.

Lemma progress_values_elem (h : list event) (v : Z) :
  v ∈ progress_values h <-> EvProgress v ∈ h.
Proof.
  unfold progress_values. rewrite list_elem_of_In, in_flat_map. split.
  - intros (e & He & Hv). destruct e; simpl in Hv; try done.
    destruct Hv as [-> | []]. by apply list_elem_of_In.
  - intros Hi. exists (EvProgress v). split.
    + by apply list_elem_of_In.
    + simpl. by left.
Qed.

Lemma progress_bounded_quiet (n : Z) (h evs : list event) :
  progress_bounded n h -> progress_values evs = [] ->
  progress_bounded n (h ++ evs).
Proof.
  intros Hb Hevs h1 v h2 Heq.
  apply app_eq_inv in Heq as [(k & -> & Hk) | (k & -> & Hk)].
  - destruct k as [|e k]; simpl in Hk.
    + assert (Hin : v ∈ progress_values evs).
      { apply progress_values_elem. rewrite <- Hk. by left. }
      rewrite Hevs in Hin. by apply elem_of_nil in Hin.
    + injection Hk as <- _. by eapply Hb.
  - assert (Hin : v ∈ progress_values evs).
    { apply progress_values_elem. rewrite Hk. apply elem_of_app.
      right. by left. }
    rewrite Hevs in Hin. by apply elem_of_nil in Hin.
Qed.

Lemma progress_bounded_line (n : Z) (h : list event) (v : Z) :
  progress_bounded n h -> probe_count h <= v <= probe_count h + n ->
  progress_bounded n (h ++ [EvProgress v]).
Proof.
  intros Hb Hv h1 v' h2 Heq.
  apply app_eq_inv in Heq as [(k & -> & Hk) | (k & -> & Hk)].
  - destruct k as [|e k]; simpl in Hk.
    + injection Hk as <- _. by rewrite app_nil_r in Hv.
    + injection Hk as <- _. by eapply Hb.
  - destruct k as [|e k]; simpl in Hk.
    + injection Hk as <- _. by rewrite app_nil_r.
    + injection Hk as _ Hk. by destruct k.
Qed.

(** What a step adds to the history. *)
Lemma step_history (doc : pdf) (fixed_part : string) (is_prefix : bool)
    (a : actor) (s s' : sys) :
  step doc fixed_part is_prefix a s = Some s' ->
  length (procs s') = length (procs s) /\
  exists evs,
    history s' = history s ++ evs /\
    (progress_values evs = [] \/
     (a = Monitor /\ mon s = MPrint /\
      evs = [EvProgress (total_attempts s)] /\
      total_attempts s' = total_attempts s)).
Proof.
  destruct a as [| |i]; simpl.
  - intros H. pose proof (step_coordinator_procs _ _ H) as (Hp & _).
    split; [by rewrite Hp|]. unfold step_coordinator in H.
    destruct (coord s) as [k f|k f|f|f|f];
      repeat case_match; try done; injection H as <-; simpl;
      try (exists []; rewrite app_nil_r; by auto).
    exists [EvReport f]. by auto.
  - intros H. pose proof (step_monitor_shape _ _ H) as (Hp & _).
    split; [by rewrite Hp|]. unfold step_monitor in H.
    destruct (mon s) eqn:Hm; repeat case_match; try done;
      injection H as <-; simpl;
      try (exists []; rewrite app_nil_r; by auto).
    exists [EvProgress (total_attempts s)]. split; [done|]. right. done.
  - intros H.
    apply step_worker_cases in H
      as (w & w' & evs & q & Hi & _ & Hp & _ & _ & _ & Hh & _ & Hk).
    split; [by rewrite Hp, length_insert|].
    exists evs. split; [done|]. left.
    destruct Hk as [(-> & _) | [(-> & _) | [(-> & _) |
      [(? & ? & _ & _ & -> & _) | (? & ? & _ & _ & -> & _)]]]]; done.
Qed.

Section ProgressProofs.

Variable doc : pdf.
Variable fixed_part : string.
Variable is_prefix : bool.
Variable ranges : list (Z * Z).
Hypothesis ranges_wf : forall i r, ranges !! i = Some r -> 0 <= fst r <= snd r.
Hypothesis ranges_small : width_sum ranges < 2 ^ 31.

Local Abbreviation inv := (run_inv doc fixed_part is_prefix ranges).

Lemma total_attempts_count (s : sys) :
  inv s ->
  total_attempts s = probe_count (history s) + in_flight_count (procs s).
Proof.
  intros (_ & _ & _ & _ & Hcount & Hb). rewrite Hcount.
  by apply attempts_from_count.
Qed.

Lemma step_total_mono (a : actor) (s s' : sys) :
  inv s -> step doc fixed_part is_prefix a s = Some s' ->
  total_attempts s <= total_attempts s'.
Proof.
  intros Hinv Hstep.
  destruct (step_total _ _ _ _ _ _ Hstep)
    as [-> | (i & v & pw & it & -> & Hi & ->)]; [lia|].
  destruct (store_no_wrap doc fixed_part is_prefix ranges ranges_wf
              ranges_small s i v pw it Hinv Hi) as [_ ->]. lia.
Qed.

Lemma step_progress_inv (a : actor) (s s' : sys) :
  inv s -> progress_inv s ->
  step doc fixed_part is_prefix a s = Some s' -> progress_inv s'.
Proof.
  intros Hinv (Hb & Hs & Hle) Hstep.
  pose proof (step_total_mono a s s' Hinv Hstep) as Hmono.
  destruct (step_history _ _ _ _ _ _ Hstep)
    as (Hlen & evs & Hh & [Hq | (-> & Hm & -> & Ht)]).
  - unfold progress_inv. rewrite Hlen, Hh, progress_values_app, Hq, app_nil_r.
    split; [by apply progress_bounded_quiet|]. split; [done|].
    eapply Forall_impl; [exact Hle|]. simpl. intros v Hv. lia.
  - unfold progress_inv.
    rewrite Hlen, Hh, progress_values_app, Ht. simpl.
    pose proof (total_attempts_count s Hinv) as Hc.
    pose proof (in_flight_count_bounds (procs s)) as Hf.
    split; [apply progress_bounded_line; [done | lia]|]. split.
    + apply StronglySorted_app_2; [|done|by repeat constructor].
      intros x1 x2 Hx1 Hx2. apply list_elem_of_singleton in Hx2 as ->.
      rewrite Forall_forall in Hle. by apply Hle.
    + apply Forall_app. split; [done|]. by repeat constructor.
Qed.

Lemma exec_progress_inv (schedule : list actor) (s s' : sys) :
  inv s -> progress_inv s ->
  exec doc fixed_part is_prefix schedule s = Some s' -> progress_inv s'.
Proof.
  revert s. induction schedule as [|a schedule IH]; intros s Hinv Hp; simpl.
  - by intros [= <-].
  - destruct (step doc fixed_part is_prefix a s) as [s1|] eqn:Hstep; [|done].
    apply IH.
    + by eapply step_inv.
    + by eapply step_progress_inv.
Qed.

Lemma total_attempts_le (s : sys) :
  inv s -> 0 <= total_attempts s <= width_sum ranges.
Proof.
  intros Hinv. pose proof Hinv as (Hlen & Hw & _ & _ & Hcount & _).
  rewrite Hcount. split; [apply attempts_from_nonneg|].
  apply attempts_from_le; [done|].
  intros k w r Hk Hr. simpl.
  eapply worker_inv_bound; eauto.
Qed.

End ProgressProofs.

Lemma parallel_brute_force_progress_inv (fixed_part : string) (n : Z)
    (s0 : sys) :
  parallel_brute_force fixed_part n = Ok s0 -> progress_inv s0.
Proof.
  unfold parallel_brute_force. destruct (n =? 0); [done|].
  intros [= <-]. unfold progress_inv. simpl. split_and!.
  - intros h1 v h2 Heq. by destruct h1.
  - constructor.
  - constructor.
Qed.

(** X8. The progress lines.  The number the monitor prints is the number of
    probes made before the line, or up to one more for each worker (a
    worker that has counted its next probe and not made it yet); the
    numbers printed never decrease, and none exceeds the counter or the
    size of the search space, 10^(11 - fixed_len). *)
Theorem progress_lines_bounded (doc : pdf) (fixed_part : string)
    (is_prefix : bool) (num_processes : Z) (schedule : list actor)
    (s0 s : sys) :
  (String.length fixed_part = 5 \/ String.length fixed_part = 6)%nat ->
  parallel_brute_force fixed_part num_processes = Ok s0 ->
  exec doc fixed_part is_prefix schedule s0 = Some s ->
  (forall h1 v h2, history s = h1 ++ EvProgress v :: h2 ->
     probe_count h1 <= v <= probe_count h1 + Z.of_nat (length (procs s)) /\
     0 <= v <= total_attempts s) /\
  StronglySorted Z.le (progress_values (history s)) /\
  0 <= total_attempts s <= 10 ^ (11 - Z.of_nat (String.length fixed_part)).
Proof.
  intros Hlen Hinit Hexec.
  pose proof (total_combinations_bounds fixed_part Hlen) as [Hpos Hsmall].
  set (ranges := split_ranges (total_combinations fixed_part) num_processes).
  assert (Hwf : forall i r, ranges !! i = Some r -> 0 <= fst r <= snd r).
  { intros i r Hr. by apply (split_ranges_wf _ _ _ _ Hpos) in Hr as [? _]. }
  pose proof (width_sum_split_le (total_combinations fixed_part)
                num_processes Hpos) as Hws. fold ranges in Hws.
  assert (Hsm : width_sum ranges < 2 ^ 31) by lia.
  pose proof (reachable_inv doc fixed_part is_prefix num_processes schedule
                s0 s Hlen Hinit Hexec) as Hinv. fold ranges in Hinv.
  pose proof (exec_progress_inv doc fixed_part is_prefix ranges Hwf Hsm
                schedule s0 s
                (parallel_brute_force_inv doc _ is_prefix _ _ Hinit)
                (parallel_brute_force_progress_inv _ _ _ Hinit) Hexec)
    as (Hb & Hs & Hle).
  pose proof (total_attempts_le doc fixed_part is_prefix ranges Hwf s Hinv)
    as Ht.
  split; [|split; [done|]].
  - intros h1 v h2 Hh. pose proof (Hb h1 v h2 Hh) as Hv.
    split; [done|].
    pose proof (probe_count_nonneg h1).
    split; [lia|].
    rewrite Forall_forall in Hle. apply Hle.
    apply progress_values_elem. rewrite Hh. apply elem_of_app.
    right. by left.
  - unfold total_combinations in Hws. lia.
Qed.

Lemma progress_lines_bounded_witness :
  (String.length "010199" = 5 \/ String.length "010199" = 6)%nat /\
  exists s0 s,
    parallel_brute_force "010199" 2 = Ok s0 /\
    exec doc_first "010199" false one_line s0 = Some s /\
    history s = [] ++ EvProgress 0 :: [] /\
    probe_count [] <= 0 <= probe_count [] + Z.of_nat (length (procs s)).
Proof.
  split; [right; reflexivity|].
  destruct (parallel_brute_force "010199" 2) as [s0|e] eqn:Hinit;
    [|by vm_compute in Hinit].
  destruct (exec doc_first "010199" false one_line s0) as [s|] eqn:Hexec.
  - exists s0, s. split; [reflexivity|]. split; [exact Hexec|].
    assert (Hh : history s = [] ++ EvProgress 0 :: []).
    { vm_compute in Hinit. injection Hinit as <-.
      vm_compute in Hexec. by injection Hexec as <-. }
    split; [exact Hh|].
    exact (proj1 (proj1 (progress_lines_bounded doc_first "010199" false 2
                           one_line s0 s ltac:(right; reflexivity)
                           Hinit Hexec) [] 0 [] Hh)).
  - vm_compute in Hinit. injection Hinit as <-. by vm_compute in Hexec.
Defined.

(** ** No password is probed twice *)

Lemma test_loop_prefix (decrypt : string -> probe_result) (pws : list string) :
  exists rest, pws = fst (test_loop decrypt pws) ++ rest.
Proof.
  destruct (first_match_split decrypt pws)
    as [Hall | (pre & pw & post & -> & Hpre & Hpw)].
  - rewrite test_loop_no_match by done. exists []. by rewrite app_nil_r.
  - rewrite test_loop_first_match by done. exists post. simpl.
    by rewrite <- app_assoc.
Qed.

(** What worker [i] has probed is an initial part of its range. *)
Lemma tried_prefix (doc : pdf) (fixed_part : string) (is_prefix : bool)
    (i : nat) (r : Z * Z) (h : list event) (lk : option actor) (total : Z)
    (w : wstate) :
  worker_inv doc fixed_part is_prefix i r h lk total w ->
  exists rest, passwords fixed_part is_prefix r = probes_of i h ++ rest.
Proof.
  unfold worker_inv. intros Hw.
  destruct w; simpl in Hw;
    repeat match goal with H : _ /\ _ |- _ => destruct H end;
    try match goal with
        | H : probes_of i h = [] |- _ => rewrite H; by eexists
        | H : _ ++ _ = passwords _ _ r |- _ => rewrite <- H; by eexists
        end.
  match goal with H : probes_of i h = _ |- _ => rewrite H end.
  apply test_loop_prefix.
Qed.

Lemma all_probes_length (h : list event) :
  Z.of_nat (length (all_probes h)) = probe_count h.
Proof.
  induction h as [|[] h IH]; simpl; try done.
  rewrite <- IH. lia.
Qed.

(** The probe a step makes, if it makes one. *)
Lemma step_probe (doc : pdf) (fixed_part : string) (is_prefix : bool)
    (a : actor) (s s' : sys) :
  step doc fixed_part is_prefix a s = Some s' ->
  exists evs,
    history s' = history s ++ evs /\
    (all_probes evs = [] \/
     exists i pw it,
       a = Worker i /\ procs s !! i = Some (WProbe pw it) /\
       all_probes evs = [pw]).
Proof.
  destruct a as [| |i]; simpl.
  - intros H. unfold step_coordinator in H.
    destruct (coord s) as [k f|k f|f|f|f];
      repeat case_match; try done; injection H as <-; simpl;
      try (exists []; rewrite app_nil_r; by auto).
    exists [EvReport f]. by auto.
  - intros H. unfold step_monitor in H.
    destruct (mon s) eqn:Hm; repeat case_match; try done;
      injection H as <-; simpl;
      try (exists []; rewrite app_nil_r; by auto).
    exists [EvProgress (total_attempts s)]. by auto.
  - intros H.
    apply step_worker_cases in H
      as (w & w' & evs & q & Hi & _ & _ & _ & _ & _ & Hh & _ & Hk).
    exists evs. split; [done|].
    destruct Hk as [(-> & _) | [(-> & _) | [(-> & _) |
      [(pw & it & -> & _ & -> & _) | (pw & it & -> & _ & -> & _)]]]];
      try (by left); right; by exists i, pw, it.
Qed.

Lemma step_probes_NoDup (doc : pdf) (fixed_part : string) (is_prefix : bool)
    (num_processes : Z) (a : actor) (s s' : sys) :
  (String.length fixed_part = 5 \/ String.length fixed_part = 6)%nat ->
  run_inv doc fixed_part is_prefix
    (split_ranges (total_combinations fixed_part) num_processes) s ->
  NoDup (all_probes (history s)) ->
  step doc fixed_part is_prefix a s = Some s' ->
  NoDup (all_probes (history s')).
Proof.
  intros Hlen Hinv Hnd Hstep.
  assert (Hlen' : (String.length fixed_part <= 11)%nat) by lia.
  destruct (step_probe _ _ _ _ _ _ Hstep)
    as (evs & -> & [Hq | (i & pw & it & -> & Hi & Hq)]);
    rewrite all_probes_app, Hq; [by rewrite app_nil_r|].
  apply NoDup_app. split; [done|]. split; [|by apply NoDup_singleton].
  intros pw' Hold Hnew. apply list_elem_of_singleton in Hnew as ->.
  destruct (inv_range _ _ _ _ _ _ _ Hinv Hi) as (ri & Hri & Hwi).
  destruct (probed_candidate _ _ _ _ _ _ Hlen Hinv Hold)
    as (j & rj & idx & Hrj & Hpj & _).
  pose proof Hinv as (Hl & Hw & _).
  assert (Hj : (j < length (procs s))%nat).
  { rewrite Hl. by eapply lookup_lt_Some. }
  destruct (lookup_lt_is_Some_2 _ _ Hj) as [wj Hwj].
  pose proof (Hw j wj rj Hwj Hrj) as Hwjinv.
  pose proof (tried_in_range _ _ _ _ _ _ _ _ _ _ Hwjinv Hpj) as Hin_j.
  destruct Hwi as (Hsplit & _).
  assert (Hin_i : pw ∈ passwords fixed_part is_prefix ri).
  { rewrite <- Hsplit. apply elem_of_app. right. by left. }
  assert (Hn : 1 <= num_processes).
  { apply split_ranges_lookup_Some in Hri as [Hlt _]. lia. }
  pose proof (passwords_disjoint fixed_part is_prefix num_processes
                j i rj ri pw Hlen' Hn Hrj Hri Hin_j Hin_i) as ->.
  pose proof (passwords_range_NoDup fixed_part is_prefix num_processes
                i ri Hlen' Hri) as Hnd_i.
  rewrite <- Hsplit in Hnd_i. apply NoDup_app in Hnd_i as (_ & Hdis & _).
  apply (Hdis pw Hpj). by left.
Qed.

(** X9. The workers waste no probe.  At every point of a run, what a worker
    has probed is an initial part of the passwords of its own range, in
    their order, and no password has been probed twice, by the same worker
    or by two of them; so the probes made are at most the size of the
    search space, 10^(11 - fixed_len). *)
Theorem no_password_probed_twice (doc : pdf) (fixed_part : string)
    (is_prefix : bool) (num_processes : Z) (schedule : list actor)
    (s0 s : sys) :
  (String.length fixed_part = 5 \/ String.length fixed_part = 6)%nat ->
  parallel_brute_force fixed_part num_processes = Ok s0 ->
  exec doc fixed_part is_prefix schedule s0 = Some s ->
  NoDup (all_probes (history s)) /\
  (forall i r,
     split_ranges (total_combinations fixed_part) num_processes !! i = Some r ->
     exists rest,
       passwords fixed_part is_prefix r = probes_of i (history s) ++ rest) /\
  (forall pw, pw ∈ all_probes (history s) ->
     exists idx, 0 <= idx < total_combinations fixed_part /\
                 pw = candidate fixed_part is_prefix idx) /\
  Z.of_nat (length (all_probes (history s))) = probe_count (history s) /\
  probe_count (history s) <= 10 ^ (11 - Z.of_nat (String.length fixed_part)).
Proof.
  intros Hlen Hinit Hexec.
  pose proof (reachable_inv doc fixed_part is_prefix num_processes schedule
                s0 s Hlen Hinit Hexec) as Hinv.
  split; [|split; [|split; [|split]]].
  - pose proof (total_combinations_bounds fixed_part Hlen) as [Hpos Hsmall].
    assert (Hwf : forall i r,
              split_ranges (total_combinations fixed_part) num_processes !! i
                = Some r -> 0 <= fst r <= snd r).
    { intros i r Hr. by apply (split_ranges_wf _ _ _ _ Hpos) in Hr as [? _]. }
    pose proof (width_sum_split_le (total_combinations fixed_part)
                  num_processes Hpos) as Hws.
    pose proof (parallel_brute_force_inv doc fixed_part is_prefix
                  num_processes s0 Hinit) as H0.
    assert (Hnd0 : NoDup (all_probes (history s0))).
    { unfold parallel_brute_force in Hinit.
      destruct (num_processes =? 0); [done|]. injection Hinit as <-.
      simpl. constructor. }
    clear Hinit Hinv. revert s0 H0 Hnd0 Hexec.
    induction schedule as [|a schedule IH]; intros s0 H0 Hnd0; simpl.
    + by intros [= <-].
    + destruct (step doc fixed_part is_prefix a s0) as [s1|] eqn:Hstep;
        [|done].
      apply IH.
      * eapply step_inv; [exact Hwf|lia|exact H0|exact Hstep].
      * by eapply step_probes_NoDup.
  - intros i r Hr. pose proof Hinv as (Hl & Hw & _).
    assert (Hi : (i < length (procs s))%nat).
    { rewrite Hl. by eapply lookup_lt_Some. }
    destruct (lookup_lt_is_Some_2 _ _ Hi) as [w Hwi].
    by eapply tried_prefix, Hw.
  - intros pw Hpw.
    destruct (probed_candidate _ _ _ _ _ _ Hlen Hinv Hpw)
      as (i & r & idx & _ & _ & _ & Hidx & ->).
    by exists idx.
  - apply all_probes_length.
  - pose proof (total_combinations_bounds fixed_part Hlen) as [Hpos Hsmall].
    assert (Hwf : forall i r,
              split_ranges (total_combinations fixed_part) num_processes !! i
                = Some r -> 0 <= fst r <= snd r).
    { intros i r Hr. by apply (split_ranges_wf _ _ _ _ Hpos) in Hr as [? _]. }
    pose proof (width_sum_split_le (total_combinations fixed_part)
                  num_processes Hpos) as Hws.
    pose proof (total_attempts_le doc fixed_part is_prefix _ Hwf s Hinv) as Ht.
    assert (Hsm : width_sum
              (split_ranges (total_combinations fixed_part) num_processes)
              < 2 ^ 31) by lia.
    pose proof (total_attempts_count doc fixed_part is_prefix _ s Hinv) as Hc.
    pose proof (in_flight_count_bounds (procs s)).
    unfold total_combinations in *. lia.
Qed.

Lemma no_password_probed_twice_witness :
  (String.length "010199" = 5 \/ String.length "010199" = 6)%nat /\
  exists s0 s,
    parallel_brute_force "010199" 2 = Ok s0 /\
    exec doc_first "010199" false (Worker 1 :: one_probe 1) s0 = Some s /\
    all_probes (history s) = ["50000010199"] /\
    NoDup (all_probes (history s)).
Proof.
  split; [right; reflexivity|].
  destruct (parallel_brute_force "010199" 2) as [s0|e] eqn:Hinit;
    [|by vm_compute in Hinit].
  destruct (exec doc_first "010199" false (Worker 1 :: one_probe 1) s0)
    as [s|] eqn:Hexec.
  - exists s0, s. split; [reflexivity|]. split; [exact Hexec|]. split.
    + assert (Hh : all_probes <$>
                (history <$> exec doc_first "010199" false
                   (Worker 1 :: one_probe 1) s0) =
              Some ["50000010199"]).
      { vm_compute in Hinit. injection Hinit as <-.
        vm_compute. reflexivity. }
      rewrite Hexec in Hh. by injection Hh.
    + exact (proj1 (no_password_probed_twice doc_first "010199" false 2
                      (Worker 1 :: one_probe 1) s0 s
                      ltac:(right; reflexivity) Hinit Hexec)).
  - assert (Hh : all_probes <$>
              (history <$> exec doc_first "010199" false
                 (Worker 1 :: one_probe 1) s0) =
            Some ["50000010199"]).
    { vm_compute in Hinit. injection Hinit as <-. vm_compute. reflexivity. }
    by rewrite Hexec in Hh.
Defined.

(** ** No deadlock *)

Lemma total_work_insert (fixed_part : string) (ws : list wstate) (i : nat)
    (w w' : wstate) :
  ws !! i = Some w ->
  (total_work fixed_part (<[i:=w']> ws) + work fixed_part w =
   total_work fixed_part ws + work fixed_part w')%nat.
Proof.
  revert i. induction ws as [|w0 ws IH]; intros [|i] Hi; simpl in *; try done.
  - injection Hi as ->. lia.
  - specialize (IH i Hi). lia.
Qed.

Ltac rank_tac Hrank q :=
  eapply (Hrank _ _ q);
  [ simpl; reflexivity | simpl; reflexivity | simpl; reflexivity
  | simpl; by rewrite ?app_nil_r | simpl; lia ].

(** A step of a worker when the lock is free, or when the worker holds it:
    it can move, and its work goes down by more than what it adds to the
    queue. *)
Lemma worker_progress (doc : pdf) (fixed_part : string) (is_prefix : bool)
    (i : nat) (s : sys) (w : wstate) :
  procs s !! i = Some w -> terminated w = false ->
  lock s = None \/ critical w = true ->
  exists s',
    step_worker doc fixed_part is_prefix i s = Some s' /\
    (run_rank fixed_part s' < run_rank fixed_part s)%nat.
Proof.
  intros Hi Hterm Hlock. unfold step_worker. rewrite Hi.
  assert (Hrank : forall s' w' (q : list (option string)),
            procs s' = <[i:=w']> (procs s) -> coord s' = coord s ->
            mon s' = mon s -> queue s' = queue s ++ q ->
            (2 * work fixed_part w' + length q < 2 * work fixed_part w)%nat ->
            (run_rank fixed_part s' < run_rank fixed_part s)%nat).
  { intros s' w' q Hp Hc Hm Hq Hlt. unfold run_rank.
    rewrite Hp, Hc, Hm, Hq, length_insert, length_app.
    pose proof (total_work_insert fixed_part (procs s) i w w' Hi). lia. }
  destruct w as [start stop|[|c it]|pw it|pw it|v pw it|pw it|pw it| |];
    try done.
  - destruct (pdf_opens doc i); eexists; (split; [reflexivity|]).
    + rank_tac Hrank (@nil (option string)).
    + rank_tac Hrank (@nil (option string)).
  - eexists. split; [reflexivity|].
    rank_tac Hrank [@None string].
  - eexists. split; [reflexivity|].
    rank_tac Hrank (@nil (option string)).
  - destruct Hlock as [-> | ?]; [|done]. eexists. split; [reflexivity|].
    rank_tac Hrank (@nil (option string)).
  - eexists. split; [reflexivity|].
    rank_tac Hrank (@nil (option string)).
  - eexists. split; [reflexivity|].
    rank_tac Hrank (@nil (option string)).
  - eexists. split; [reflexivity|].
    rank_tac Hrank (@nil (option string)).
  - destruct (pdf_decrypt doc pw) as [code|]; [destruct (code =? 1)|];
      eexists; (split; [reflexivity|]).
    + rank_tac Hrank [Some pw].
    + rank_tac Hrank (@nil (option string)).
    + rank_tac Hrank (@nil (option string)).
Qed.

Lemma run_progress (doc : pdf) (fixed_part : string) (is_prefix : bool)
    (ranges : list (Z * Z)) (s : sys) :
  run_inv doc fixed_part is_prefix ranges s -> sync_inv s ->
  (forall f, coord s <> CDone f) ->
  exists s',
    step doc fixed_part is_prefix (scheduled s) s = Some s' /\
    (run_rank fixed_part s' < run_rank fixed_part s)%nat.
Proof.
  intros Hinv (Hlm & Hlw & Hstop & _ & Hrep) Hgo.
  pose proof Hinv as (_ & _ & _ & Hco & _).
  unfold scheduled. destruct (lock s) as [[| |i]|] eqn:Hl.
  - done.
  - simpl. unfold step_monitor. rewrite (Hlm eq_refl).
    eexists. split; [reflexivity|]. unfold run_rank. simpl.
    rewrite (Hlm eq_refl). simpl. lia.
  - simpl. destruct (lookup_lt_is_Some_2 _ _ (Hlw i eq_refl)) as [w Hw].
    destruct (inv_range _ _ _ _ _ _ _ Hinv Hw) as (r & _ & Hwi).
    apply worker_inv_lock in Hwi. rewrite Hl in Hwi.
    destruct Hwi as [_ Hc]. specialize (Hc eq_refl).
    apply (worker_progress doc fixed_part is_prefix i s w); auto.
    by destruct w.
  - destruct (coord s) as [k f|k f|f|f|f] eqn:Hc.
    + destruct (procs s !! k) as [w|] eqn:Hk.
      * destruct (terminated w) eqn:Ht.
        -- simpl. unfold step_coordinator. rewrite Hc, Hk, Ht.
           eexists. split; [reflexivity|]. unfold run_rank. simpl.
           rewrite Hc. simpl. lia.
        -- simpl. apply (worker_progress doc fixed_part is_prefix k s w); auto.
      * simpl. unfold step_coordinator. rewrite Hc, Hk.
        eexists. split; [reflexivity|]. unfold run_rank. simpl.
        rewrite Hc. simpl. lia.
    + simpl. unfold step_coordinator. rewrite Hc.
      simpl in Hrep. destruct Hrep as [Hlt _].
      destruct (queue s) as [|result q] eqn:Hq.
      * eexists. split; [reflexivity|]. unfold run_rank. simpl.
        rewrite Hc, Hq. simpl. lia.
      * destruct (truthy result); eexists; (split; [reflexivity|]);
          unfold run_rank; simpl; rewrite Hc, Hq; simpl; lia.
    + simpl. unfold step_coordinator. rewrite Hc.
      eexists. split; [reflexivity|]. unfold run_rank. simpl.
      rewrite Hc. simpl. lia.
    + simpl in Hstop.
      destruct (mon s) eqn:Hm; simpl.
      * unfold step_monitor. rewrite Hm, Hstop.
        eexists. split; [reflexivity|]. unfold run_rank. simpl.
        rewrite Hm. simpl. lia.
      * unfold step_monitor. rewrite Hm.
        eexists. split; [reflexivity|]. unfold run_rank. simpl.
        rewrite Hm. simpl. lia.
      * unfold step_monitor. rewrite Hm, Hl.
        eexists. split; [reflexivity|]. unfold run_rank. simpl.
        rewrite Hm. simpl. lia.
      * unfold step_monitor. rewrite Hm.
        eexists. split; [reflexivity|]. unfold run_rank. simpl.
        rewrite Hm. simpl. lia.
      * unfold step_coordinator. rewrite Hc, Hm.
        eexists. split; [reflexivity|]. unfold run_rank. simpl.
        rewrite Hc, Hm. simpl. lia.
    + by destruct (Hgo f).
Qed.

Lemma run_completes (doc : pdf) (fixed_part : string) (is_prefix : bool)
    (ranges : list (Z * Z)) (s : sys) :
  (forall i r, ranges !! i = Some r -> 0 <= fst r <= snd r) ->
  width_sum ranges < 2 ^ 31 ->
  run_inv doc fixed_part is_prefix ranges s -> joined s -> sync_inv s ->
  exists schedule s' f,
    exec doc fixed_part is_prefix schedule s = Some s' /\ coord s' = CDone f.
Proof.
  intros Hwf Hsm.
  remember (run_rank fixed_part s) as n eqn:Hn.
  revert s Hn. induction n as [n IH] using lt_wf_ind.
  intros s Hn Hinv Hj Hsync.
  destruct (coord s) as [k f|k f|f|f|f] eqn:Hc;
    try (by exists [], s, f);
    (destruct (run_progress doc fixed_part is_prefix ranges s Hinv Hsync)
       as (s1 & Hstep & Hlt); [by rewrite Hc|];
     destruct (IH (run_rank fixed_part s1) ltac:(lia) s1 eq_refl)
       as (sched & s' & f' & Hrun & Hdone);
       [by eapply step_inv | by eapply step_joined | by eapply step_sync_inv|];
     exists (scheduled s :: sched), s', f'; simpl; by rewrite Hstep).
Qed.

(** X10. No deadlock.  In every state of a run before the final report some
    process can take a step (the holder of the lock, or with the lock free
    the worker the coordinator waits for, the monitor, or the
    coordinator), and from every state some schedule leads to the final
    report: neither the lock nor the joins can block the run for ever. *)
Theorem run_can_always_finish (doc : pdf) (fixed_part : string)
    (is_prefix : bool) (num_processes : Z) (schedule : list actor)
    (s0 s : sys) :
  (String.length fixed_part = 5 \/ String.length fixed_part = 6)%nat ->
  parallel_brute_force fixed_part num_processes = Ok s0 ->
  exec doc fixed_part is_prefix schedule s0 = Some s ->
  ((forall f, coord s <> CDone f) ->
   is_Some (step doc fixed_part is_prefix (scheduled s) s)) /\
  exists schedule' s' f,
    exec doc fixed_part is_prefix schedule' s = Some s' /\
    coord s' = CDone f.
Proof.
  intros Hlen Hinit Hexec.
  destruct (reachable_all doc fixed_part is_prefix num_processes schedule
              s0 s Hlen Hinit Hexec) as (Hinv & Hj & Hsync & _).
  pose proof (total_combinations_bounds fixed_part Hlen) as [Hpos Hsmall].
  split.
  - intros Hgo.
    destruct (run_progress doc fixed_part is_prefix _ s Hinv Hsync Hgo)
      as (s1 & Hstep & _). by exists s1.
  - eapply run_completes; eauto.
    + intros i r Hr. by apply (split_ranges_wf _ _ _ _ Hpos) in Hr as [? _].
    + pose proof (width_sum_split_le (total_combinations fixed_part)
                    num_processes Hpos). lia.
Qed.

Lemma run_can_always_finish_witness :
  (String.length "12345" = 5 \/ String.length "12345" = 6)%nat /\
  exists s0,
    parallel_brute_force "12345" 4 = Ok s0 /\
    exec doc_first "12345" true [] s0 = Some s0 /\
    exists schedule' s' f,
      exec doc_first "12345" true schedule' s0 = Some s' /\
      coord s' = CDone f.
Proof.
  split; [left; reflexivity|].
  destruct (parallel_brute_force "12345" 4) as [s0|e] eqn:Hinit;
    [|by vm_compute in Hinit].
  exists s0. split; [reflexivity|]. split; [reflexivity|].
  exact (proj2 (run_can_always_finish doc_first "12345" true 4 [] s0 s0
                  ltac:(left; reflexivity) Hinit eq_refl)).
Defined.

(** ** The outcomes of the main block *)

Lemma check_args_total (a : args) : exists c, check_args a = Ok c.
Proof.
  unfold check_args, bind.
  destruct (validate_date_suffix_total (default "" (args_suffix a)))
    as [b Hb].
  rewrite Hb. repeat case_match; simplify_eq; by eexists.
Qed.

(** X11. What the main block does with the number of processes.  The
    arguments are checked first and the checks never raise: a usage error
    exits with its message whatever the number of processes.  With valid
    arguments and --processes 0 the division of line 83 raises
    ZeroDivisionError, before any process is started, and this is the only
    exception of the main block; with any other number the run starts with
    the counter at 0, the flag unset, the lock free, the queue empty and
    one worker for each number of range(num_processes) (none for a
    negative one). *)
Theorem main_outcomes (doc : pdf) (a : args) :
  (exists c, check_args a = Ok c) /\
  (forall message status,
     check_args a = Ok (UsageError message status) ->
     main doc a = Ok (Exited message status)) /\
  (forall fixed_part is_prefix,
     check_args a = Ok (Accepted fixed_part is_prefix) ->
     args_processes a = 0 -> main doc a = Raise ZeroDivisionError) /\
  (forall e, main doc a = Raise e ->
     e = ZeroDivisionError /\ args_processes a = 0 /\
     exists fixed_part is_prefix,
       check_args a = Ok (Accepted fixed_part is_prefix)) /\
  (forall fixed_part is_prefix,
     check_args a = Ok (Accepted fixed_part is_prefix) ->
     args_processes a <> 0 ->
     exists s,
       main doc a = Ok (Running fixed_part is_prefix s) /\
       length (procs s) = Z.to_nat (args_processes a) /\
       (forall w, w ∈ procs s -> exists start stop, w = WOpen start stop) /\
       mon s = MTest /\ coord s = CJoin 0 None /\
       total_attempts s = 0 /\ stop_flag s = false /\ lock s = None /\
       queue s = [] /\ history s = []).
Proof.
  split; [apply check_args_total|]. split; [|split; [|split]].
  - intros message status Hc. unfold main. by rewrite Hc.
  - intros fixed_part is_prefix Hc Hz. unfold main. rewrite Hc. simpl.
    unfold parallel_brute_force. by rewrite Hz.
  - intros e. unfold main.
    destruct (check_args_total a) as [c Hc]. rewrite Hc. simpl.
    destruct c as [message status|fixed_part is_prefix]; [done|].
    unfold parallel_brute_force.
    destruct (Z.eqb_spec (args_processes a) 0) as [Hz|Hz]; simpl; [|done].
    intros [= <-]. split; [done|]. split; [done|]. by eexists _, _.
  - intros fixed_part is_prefix Hc Hz. unfold main. rewrite Hc. simpl.
    unfold parallel_brute_force.
    destruct (Z.eqb_spec (args_processes a) 0) as [|_]; [done|]. simpl.
    eexists. split; [reflexivity|]. simpl.
    split; [by rewrite length_map, split_ranges_length|].
    split; [|done].
    intros w Hw. change (map ?f ?l) with (f <$> l) in Hw.
    apply list_elem_of_fmap in Hw as (r & -> & _). by eexists _, _.
Qed.
